(** * LibreChat access control: the ACL engine

    A shallow embedding of the in-memory ACL engine:
    - [packages/data-schemas/src/methods/aclEntry.ts]   (module [AclEntry])
    - [packages/data-schemas/src/methods/accessRole.ts] (module [AccessRole])
    - [packages/data-schemas/src/methods/userGroup.ts]  (module [UserGroup])
    - [api/models/index.js]                             (module [Models])
    - [api/server/services/PermissionService.js]        (module [PermissionService])

    Every [async function] of the source is a computation of the monad
    [Async]: it threads the three module-level stores and yields either a
    value (the promise resolves) or a message (the promise rejects with
    [new Error(message)]). *)

From Stdlib Require Import ZArith List String Ascii Bool Lia.
From Stdlib Require Import DecimalString.
Import ListNotations.

Open Scope string_scope.
Open Scope Z_scope.
Open Scope list_scope.

Notation "a +++ b" := (String.append a b) (at level 60, right associativity).

(* ================================================================== *)
(** ** JavaScript values *)

(** The primitive values the engine handles.  Numbers are the
    integer-valued ones. *)
Inductive prim : Type :=
  | PUndefined
  | PNull
  | PNum (z : Z)
  | PStr (s : string).

(** [a === b] on primitives. *)
Definition strictEq (a b : prim) : bool :=
  match a, b with
  | PUndefined, PUndefined => true
  | PNull, PNull => true
  | PNum x, PNum y => Z.eqb x y
  | PStr s, PStr t => String.eqb s t
  | _, _ => false
  end.

(** Truthiness: [if (v)], [!v], [v && ...]. *)
Definition truthy (v : prim) : bool :=
  match v with
  | PUndefined | PNull => false
  | PNum z => negb (Z.eqb z 0)
  | PStr s => negb (String.eqb s "")
  end.

(** The text a template literal puts for [${v}]. *)
Definition display (v : prim) : string :=
  match v with
  | PUndefined => "undefined"
  | PNull => "null"
  | PNum z => NilZero.string_of_int (Z.to_int z)
  | PStr s => s
  end.

(** A value that is either a primitive, an object literal with primitive
    fields, or a [Date].  Objects are compared by reference, so an object
    is never [===] to a primitive. *)
Inductive jsval : Type :=
  | JPrim (p : prim)
  | JObject (fields : list (string * prim))
  | JDate (t : Z).

(** [v === p] where [p] is a primitive. *)
Definition strictEqPrim (v : jsval) (p : prim) : bool :=
  match v with
  | JPrim q => strictEq q p
  | _ => false
  end.

(** [s === v] where [s] is a string. *)
Definition strEqVal (s : string) (v : jsval) : bool :=
  strictEqPrim v (PStr s).

(* ------------------------------------------------------------------ *)
(** *** Strings *)

(** [s.includes(pat)] *)
Fixpoint includes (s pat : string) : bool :=
  if String.prefix pat s then true
  else match s with
       | EmptyString => false
       | String _ t => includes t pat
       end.

(** White space as [String.prototype.trim] sees it, on the code units
    below 256: TAB, LF, VT, FF, CR, SPACE and NBSP. *)
Definition isWhiteSpace (c : ascii) : bool :=
  let n := nat_of_ascii c in
  ((9 <=? n)%nat && (n <=? 13)%nat) || (n =? 32)%nat || (n =? 160)%nat.

Fixpoint trimStartChars (l : list ascii) : list ascii :=
  match l with
  | [] => []
  | c :: t => if isWhiteSpace c then trimStartChars t else l
  end.

Definition trimChars (l : list ascii) : list ascii :=
  rev (trimStartChars (rev (trimStartChars l))).

(** [s.trim()] *)
Definition trim (s : string) : string :=
  string_of_list_ascii (trimChars (list_ascii_of_string s)).

(** A string made of white space only (the empty string included). *)
Definition blank (s : string) : bool :=
  forallb isWhiteSpace (list_ascii_of_string s).

(** [xs.join(sep)] *)
Fixpoint join (sep : string) (xs : list string) : string :=
  match xs with
  | [] => ""
  | [x] => x
  | x :: rest => x +++ sep +++ join sep rest
  end.

(* ------------------------------------------------------------------ *)
(** *** 32-bit bitwise operators *)

(** [ToInt32]: the wrap-around to the signed 32-bit range. *)
Definition toInt32 (z : Z) : Z := (z + 2 ^ 31) mod 2 ^ 32 - 2 ^ 31.

Definition isInt32 (z : Z) : Prop := - 2 ^ 31 <= z < 2 ^ 31.

(** [a | b], [a & b] and [~a] *)
Definition jsOr (a b : Z) : Z := toInt32 (Z.lor (toInt32 a) (toInt32 b)).
Definition jsAnd (a b : Z) : Z := toInt32 (Z.land (toInt32 a) (toInt32 b)).
Definition jsNot (a : Z) : Z := toInt32 (Z.lnot (toInt32 a)).

(* ------------------------------------------------------------------ *)
(** *** [Map] and [Set]

    A [Map<string, V>] keeps its entries in insertion order, which
    [Array.from(m.values())] and [find] observe: it is a list of pairs. *)

Definition JsMap (V : Type) : Type := list (string * V).

Definition values {V} (m : JsMap V) : list V := map snd m.

(** [m.get(k)] *)
Fixpoint mapGet {V} (k : string) (m : JsMap V) : option V :=
  match m with
  | [] => None
  | (k', v) :: rest => if String.eqb k' k then Some v else mapGet k rest
  end.

(** [m.has(k)] *)
Definition mapHas {V} (k : string) (m : JsMap V) : bool :=
  match mapGet k m with Some _ => true | None => false end.

(** [m.set(k, v)]: a present key keeps its place, a new one goes last. *)
Fixpoint mapSet {V} (k : string) (v : V) (m : JsMap V) : JsMap V :=
  match m with
  | [] => [(k, v)]
  | (k', v') :: rest =>
      if String.eqb k' k then (k, v) :: rest else (k', v') :: mapSet k v rest
  end.

(** [m.delete(k)] *)
Fixpoint mapDelete {V} (k : string) (m : JsMap V) : JsMap V :=
  match m with
  | [] => []
  | (k', v') :: rest =>
      if String.eqb k' k then rest else (k', v') :: mapDelete k rest
  end.

(** Assignment to the fields of the first object of the map that
    satisfies [p]: [const o = values.find(p); o.f = ...].  The object
    stays where it is in the map. *)
Fixpoint updateFirst {V} (p : V -> bool) (f : V -> V) (m : JsMap V) : JsMap V :=
  match m with
  | [] => []
  | (k, v) :: rest =>
      if p v then (k, f v) :: rest else (k, v) :: updateFirst p f rest
  end.

(** [s.add(x)] on a [Set<string>], in insertion order. *)
Definition setAdd (s : list string) (x : string) : list string :=
  if existsb (String.eqb x) s then s else s ++ [x].

(** [Array.from(new Set(xs))] *)
Definition uniq (xs : list string) : list string := fold_left setAdd xs [].

(* ================================================================== *)
(** ** Constants of [librechat-data-provider] *)

(** Modelled from the spec: the enum [PrincipalType] of
    librechat-data-provider is not among the sources; the spec gives its
    four members USER, GROUP, ROLE and PUBLIC. *)
Module PrincipalType.
Definition USER : string := "user".
Definition GROUP : string := "group".
Definition ROLE : string := "role".
Definition PUBLIC : string := "public".
(** [Object.values(PrincipalType)] *)
Definition all : list string := [USER; GROUP; PUBLIC; ROLE].
End PrincipalType.

(** Modelled from the spec: the enum [PrincipalModel] of
    librechat-data-provider is not among the sources; it names the
    collection a principal id points into. *)
Module PrincipalModel.
Definition USER : string := "User".
Definition GROUP : string := "Group".
Definition ROLE : string := "Role".
End PrincipalModel.

(** Modelled from the spec: the enum [ResourceType] of
    librechat-data-provider is not among the sources; the spec lists
    AGENT, PROMPTGROUP, MCPSERVER and REMOTE_AGENT. *)
Module ResourceType.
Definition AGENT : string := "agent".
Definition PROMPTGROUP : string := "promptGroup".
Definition MCPSERVER : string := "mcpServer".
Definition REMOTE_AGENT : string := "remoteAgent".
(** [Object.values(ResourceType)] *)
Definition all : list string := [AGENT; PROMPTGROUP; MCPSERVER; REMOTE_AGENT].
End ResourceType.

(** Modelled from the spec: the permission bits and the role bundles
    ([PermissionBits] of librechat-data-provider, [RoleBits] of ~/common)
    are not among the sources; the spec gives VIEW=1, EDIT=2, DELETE=4,
    SHARE=8 and VIEWER=1, EDITOR=3, OWNER=15. *)
Module PermissionBits.
Definition VIEW : Z := 1.
Definition EDIT : Z := 2.
Definition DELETE : Z := 4.
Definition SHARE : Z := 8.
End PermissionBits.

Module RoleBits.
Definition VIEWER : Z := 1.
Definition EDITOR : Z := 3.
Definition OWNER : Z := 15.
End RoleBits.

(** Modelled from the spec: the enum [AccessRoleIds] of
    librechat-data-provider is not among the sources; one identifier per
    resource type and bundle, as [seedDefaultRoles] uses them. *)
Module AccessRoleIds.
Definition AGENT_VIEWER : string := "agent_viewer".
Definition AGENT_EDITOR : string := "agent_editor".
Definition AGENT_OWNER : string := "agent_owner".
Definition PROMPTGROUP_VIEWER : string := "promptGroup_viewer".
Definition PROMPTGROUP_EDITOR : string := "promptGroup_editor".
Definition PROMPTGROUP_OWNER : string := "promptGroup_owner".
Definition MCPSERVER_VIEWER : string := "mcpServer_viewer".
Definition MCPSERVER_EDITOR : string := "mcpServer_editor".
Definition MCPSERVER_OWNER : string := "mcpServer_owner".
Definition REMOTE_AGENT_VIEWER : string := "remoteAgent_viewer".
Definition REMOTE_AGENT_EDITOR : string := "remoteAgent_editor".
Definition REMOTE_AGENT_OWNER : string := "remoteAgent_owner".
End AccessRoleIds.

(* ================================================================== *)
(** ** Records *)

(** [IAclEntry] (types: [AclEntry & { _id: string }]).  [grantedAt] is
    the time of a [Date]. *)
Module IAclEntry.
Record t : Type := mk {
  _id : string;
  principalType : string;
  principalId : prim;
  principalModel : option string;
  resourceType : string;
  resourceId : string;
  permBits : Z;
  roleId : prim;
  grantedBy : string;
  grantedAt : Z
}.
End IAclEntry.

(** [IAccessRole] *)
Module IAccessRole.
Record t : Type := mk {
  _id : string;
  accessRoleId : string;
  name : string;
  description : string;
  resourceType : string;
  permBits : Z
}.
End IAccessRole.

(** [IGroup], with the fields the engine reads. *)
Module IGroup.
Record t : Type := mk {
  _id : string;
  name : string;
  memberIds : option (list string)
}.
End IGroup.

(** An element of a principals list:
    [{ principalType: string; principalId?: string }]. *)
Module Principal.
Record t : Type := mk {
  principalType : string;
  principalId : prim
}.
End Principal.

(* ================================================================== *)
(** ** The stores and the monad of async functions *)

(** The three module-level maps, and the two sources of values from
    outside: the results of the successive calls of [nanoid()] and of
    [new Date()], consumed at [tick]. *)
Record World : Type := mkWorld {
  aclStore : JsMap IAclEntry.t;
  accessRoleStore : JsMap IAccessRole.t;
  groupStore : JsMap IGroup.t;
  nanoidResults : nat -> string;
  clock : nat -> Z;
  tick : nat
}.

Definition setAclStore (s : JsMap IAclEntry.t) (w : World) : World :=
  mkWorld s (accessRoleStore w) (groupStore w) (nanoidResults w) (clock w) (tick w).

Definition setAccessRoleStore (s : JsMap IAccessRole.t) (w : World) : World :=
  mkWorld (aclStore w) s (groupStore w) (nanoidResults w) (clock w) (tick w).

Definition nextTick (w : World) : World :=
  mkWorld (aclStore w) (accessRoleStore w) (groupStore w)
          (nanoidResults w) (clock w) (S (tick w)).

(** How an awaited call ends. *)
Inductive Completion (A : Type) : Type :=
  | Normal (a : A)
  | Throw (message : string).
Arguments Normal {A} a.
Arguments Throw {A} message.

Definition Async (A : Type) : Type := World -> Completion A * World.

Definition ret {A} (a : A) : Async A := fun w => (Normal a, w).

Definition bind {A B} (m : Async A) (k : A -> Async B) : Async B :=
  fun w => match m w with
           | (Normal a, w') => k a w'
           | (Throw msg, w') => (Throw msg, w')
           end.

(** [throw new Error(msg)] *)
Definition throw {A} (msg : string) : Async A := fun w => (Throw msg, w).

(** [try { body } catch (error) { handler(error.message) }] *)
Definition tryCatch {A} (body : Async A) (handler : string -> Async A) : Async A :=
  fun w => match body w with
           | (Normal a, w') => (Normal a, w')
           | (Throw msg, w') => handler msg w'
           end.

Definition gets {A} (f : World -> A) : Async A := fun w => (Normal (f w), w).
Definition modify (f : World -> World) : Async unit := fun w => (Normal tt, f w).

(** [nanoid()] *)
Definition nanoid : Async string :=
  fun w => (Normal (nanoidResults w (tick w)), nextTick w).

(** [new Date()] *)
Definition newDate : Async Z :=
  fun w => (Normal (clock w (tick w)), nextTick w).

(** [logger.error(...)], [logger.debug(...)]: nothing the engine reads. *)
Definition log (_ : string) : Async unit := ret tt.

Declare Scope async_scope.
Delimit Scope async_scope with async.
Notation "x <- m ;; k" := (bind m (fun x => k))
  (at level 61, m at next level, right associativity) : async_scope.
Notation "m ;;; k" := (bind m (fun _ => k))
  (at level 61, right associativity) : async_scope.
Notation "'when' c 'then' m ;;; k" := (bind (if c then m else ret tt) (fun _ => k))
  (at level 61, c at level 200, m at next level, right associativity) : async_scope.
Open Scope async_scope.

(** The value of a completed call, and whether it threw. *)
Definition result {A} (r : Completion A * World) : Completion A := fst r.
Definition after {A} (r : Completion A * World) : World := snd r.

(* ================================================================== *)
(** ** [aclEntry.ts] *)

Module AclEntry.

(** [entry[key]] *)
Definition field (entry : IAclEntry.t) (key : string) : jsval :=
  if String.eqb key "_id" then JPrim (PStr (IAclEntry._id entry))
  else if String.eqb key "principalType" then JPrim (PStr (IAclEntry.principalType entry))
  else if String.eqb key "principalId" then JPrim (IAclEntry.principalId entry)
  else if String.eqb key "principalModel" then
    match IAclEntry.principalModel entry with
    | Some m => JPrim (PStr m)
    | None => JPrim PUndefined
    end
  else if String.eqb key "resourceType" then JPrim (PStr (IAclEntry.resourceType entry))
  else if String.eqb key "resourceId" then JPrim (PStr (IAclEntry.resourceId entry))
  else if String.eqb key "permBits" then JPrim (PNum (IAclEntry.permBits entry))
  else if String.eqb key "roleId" then JPrim (IAclEntry.roleId entry)
  else if String.eqb key "grantedBy" then JPrim (PStr (IAclEntry.grantedBy entry))
  else if String.eqb key "grantedAt" then JDate (IAclEntry.grantedAt entry)
  else JPrim PUndefined.

(** The body of the [filter] callback of [findAclEntries], for a filter
    object whose values are primitives: every key takes the branch
    [else if (entryVal !== filterVal) return false]. *)
Definition matchesFilter (filter : list (string * prim)) (entry : IAclEntry.t) : bool :=
  forallb (fun kv => strictEqPrim (field entry (fst kv)) (snd kv)) filter.

Definition findAclEntries (filter : list (string * prim)) : Async (list IAclEntry.t) :=
  gets (fun w => List.filter (matchesFilter filter) (values (aclStore w))).

(** [entries[0] || null] *)
Definition findOneAclEntry (filter : list (string * prim)) : Async (option IAclEntry.t) :=
  entries <- findAclEntries filter ;;
  ret (hd_error entries).

Definition deleteManyAclEntries (filter : list (string * prim)) : Async Z :=
  entries <- findAclEntries filter ;;
  modify (fun w =>
    setAclStore
      (fold_left (fun store entry => mapDelete (IAclEntry._id entry) store)
                 entries (aclStore w)) w) ;;;
  ret (Z.of_nat (List.length entries)).

Definition findOneAndDeleteAclEntry (filter : list (string * prim))
  : Async (option IAclEntry.t) :=
  entry <- findOneAclEntry filter ;;
  match entry with
  | Some e =>
      modify (fun w => setAclStore (mapDelete (IAclEntry._id e) (aclStore w)) w) ;;;
      ret entry
  | None => ret entry
  end.

Definition findEntriesByResource (resourceType resourceId : string)
  : Async (list IAclEntry.t) :=
  findAclEntries [("resourceType", PStr resourceType); ("resourceId", PStr resourceId)].

(** The callback of [principalsList.some(...)]. *)
Definition principalMatches (entry : IAclEntry.t) (p : Principal.t) : bool :=
  if String.eqb (Principal.principalType p) PrincipalType.PUBLIC
  then String.eqb (IAclEntry.principalType entry) PrincipalType.PUBLIC
  else String.eqb (IAclEntry.principalType entry) (Principal.principalType p)
       && strictEq (IAclEntry.principalId entry) (Principal.principalId p).

Definition findEntriesByPrincipalsAndResource
    (principalsList : list Principal.t) (resourceType resourceId : string)
  : Async (list IAclEntry.t) :=
  gets (fun w =>
    List.filter (fun entry =>
      if negb (String.eqb (IAclEntry.resourceType entry) resourceType)
         || negb (String.eqb (IAclEntry.resourceId entry) resourceId)
      then false
      else existsb (principalMatches entry) principalsList)
    (values (aclStore w))).

Definition hasPermission
    (principalsList : list Principal.t) (resourceType resourceId : string)
    (permissionBit : Z) : Async bool :=
  entries <- findEntriesByPrincipalsAndResource principalsList resourceType resourceId ;;
  ret (existsb (fun entry =>
         Z.eqb (jsAnd (IAclEntry.permBits entry) permissionBit) permissionBit)
       entries).

Definition getEffectivePermissions
    (principalsList : list Principal.t) (resourceType resourceId : string)
  : Async Z :=
  aclEntries <- findEntriesByPrincipalsAndResource principalsList resourceType resourceId ;;
  ret (fold_left (fun effectiveBits entry => jsOr effectiveBits (IAclEntry.permBits entry))
                 aclEntries 0).

Definition getEffectivePermissionsForResources
    (principalsList : list Principal.t) (resourceType : string)
    (resourceIds : list string) : Async (JsMap Z) :=
  match resourceIds with
  | [] => ret []
  | _ =>
    allEntries <- gets (fun w =>
      List.filter (fun entry =>
        if negb (String.eqb (IAclEntry.resourceType entry) resourceType)
           || negb (existsb (String.eqb (IAclEntry.resourceId entry)) resourceIds)
        then false
        else existsb (principalMatches entry) principalsList)
      (values (aclStore w))) ;;
    ret (fold_left (fun permissionsMap entry =>
           let rid := IAclEntry.resourceId entry in
           let currentBits :=
             match mapGet rid permissionsMap with Some b => b | None => 0 end in
           mapSet rid (jsOr currentBits (IAclEntry.permBits entry)) permissionsMap)
         allEntries [])
  end.

(** The callback of [find] in [grantPermission] and [modifyPermissionBits]. *)
Definition sameTuple (principalType : string) (principalId : prim)
    (resourceType resourceId : string) (e : IAclEntry.t) : bool :=
  String.eqb (IAclEntry.principalType e) principalType
  && strictEq (IAclEntry.principalId e) principalId
  && String.eqb (IAclEntry.resourceType e) resourceType
  && String.eqb (IAclEntry.resourceId e) resourceId.

(** The four assignments to [existing]. *)
Definition regrant (permBits : Z) (grantedBy : string) (now : Z) (roleId : prim)
    (existing : IAclEntry.t) : IAclEntry.t :=
  IAclEntry.mk
    (IAclEntry._id existing)
    (IAclEntry.principalType existing)
    (IAclEntry.principalId existing)
    (IAclEntry.principalModel existing)
    (IAclEntry.resourceType existing)
    (IAclEntry.resourceId existing)
    permBits
    (if truthy roleId then roleId else IAclEntry.roleId existing)
    grantedBy
    now.

Definition principalModelOf (principalType : string) : option string :=
  if String.eqb principalType PrincipalType.USER then Some PrincipalModel.USER
  else if String.eqb principalType PrincipalType.GROUP then Some PrincipalModel.GROUP
  else if String.eqb principalType PrincipalType.ROLE then Some PrincipalModel.ROLE
  else None.

Definition grantPermission (principalType : string) (principalId : prim)
    (resourceType resourceId : string) (permBits : Z) (grantedBy : string)
    (roleId : prim) : Async IAclEntry.t :=
  existing <- gets (fun w =>
    find (sameTuple principalType principalId resourceType resourceId)
         (values (aclStore w))) ;;
  match existing with
  | Some existing =>
      now <- newDate ;;
      modify (fun w =>
        setAclStore
          (updateFirst (sameTuple principalType principalId resourceType resourceId)
                       (regrant permBits grantedBy now roleId) (aclStore w)) w) ;;;
      ret (regrant permBits grantedBy now roleId existing)
  | None =>
      newId <- nanoid ;;
      now <- newDate ;;
      let newEntry :=
        IAclEntry.mk newId principalType principalId (principalModelOf principalType)
                     resourceType resourceId permBits roleId grantedBy now in
      modify (fun w => setAclStore (mapSet newId newEntry (aclStore w)) w) ;;;
      ret newEntry
  end.

Definition revokePermission (principalType : string) (principalId : prim)
    (resourceType resourceId : string) : Async Z :=
  deleteManyAclEntries
    [("principalType", PStr principalType); ("principalId", principalId);
     ("resourceType", PStr resourceType); ("resourceId", PStr resourceId)].

(** [if (bits)] for [bits?: number | null]; [None] is null or undefined. *)
Definition given (bits : option Z) : bool :=
  match bits with
  | Some z => negb (Z.eqb z 0)
  | None => false
  end.

Definition bitsOf (bits : option Z) : Z :=
  match bits with Some z => z | None => 0 end.

(** The two conditional assignments to [entry.permBits]. *)
Definition modifyBits (addBits removeBits : option Z) (entry : IAclEntry.t)
  : IAclEntry.t :=
  let b1 := if given addBits
            then jsOr (IAclEntry.permBits entry) (bitsOf addBits)
            else IAclEntry.permBits entry in
  let b2 := if given removeBits
            then jsAnd b1 (jsNot (bitsOf removeBits))
            else b1 in
  IAclEntry.mk
    (IAclEntry._id entry)
    (IAclEntry.principalType entry)
    (IAclEntry.principalId entry)
    (IAclEntry.principalModel entry)
    (IAclEntry.resourceType entry)
    (IAclEntry.resourceId entry)
    b2
    (IAclEntry.roleId entry)
    (IAclEntry.grantedBy entry)
    (IAclEntry.grantedAt entry).

Definition modifyPermissionBits (principalType : string) (principalId : prim)
    (resourceType resourceId : string) (addBits removeBits : option Z)
  : Async (option IAclEntry.t) :=
  entry <- gets (fun w =>
    find (sameTuple principalType principalId resourceType resourceId)
         (values (aclStore w))) ;;
  match entry with
  | None => ret None
  | Some entry =>
      modify (fun w =>
        setAclStore
          (updateFirst (sameTuple principalType principalId resourceType resourceId)
                       (modifyBits addBits removeBits) (aclStore w)) w) ;;;
      ret (Some (modifyBits addBits removeBits entry))
  end.

Definition findAccessibleResources
    (principalsList : list Principal.t) (resourceType : string)
    (requiredPermBit : Z) : Async (list string) :=
  entries <- gets (fun w =>
    List.filter (fun entry =>
      if negb (String.eqb (IAclEntry.resourceType entry) resourceType)
         || negb (Z.eqb (jsAnd (IAclEntry.permBits entry) requiredPermBit)
                        requiredPermBit)
      then false
      else existsb (principalMatches entry) principalsList)
    (values (aclStore w))) ;;
  ret (fold_left (fun accessibleResourceIds entry =>
         setAdd accessibleResourceIds (IAclEntry.resourceId entry))
       entries []).

End AclEntry.

(** [for (const x of xs) { ... }] with the variables the body assigns. *)
Fixpoint forOf {A S} (xs : list A) (body : S -> A -> Async S) (s : S) : Async S :=
  match xs with
  | [] => ret s
  | x :: rest => s' <- body s x ;; forOf rest body s'
  end.

(* ================================================================== *)
(** ** [accessRole.ts] *)

Module AccessRole.

Definition findRoleByIdentifier (accessRoleId : string)
  : Async (option IAccessRole.t) :=
  gets (fun w => mapGet accessRoleId (accessRoleStore w)).

(** The parameter is declared a string; [r.resourceType === resourceType]
    is evaluated on whatever the caller passes. *)
Definition findRolesByResourceType (resourceType : jsval)
  : Async (list IAccessRole.t) :=
  gets (fun w =>
    List.filter (fun r => strEqVal (IAccessRole.resourceType r) resourceType)
                (values (accessRoleStore w))).

(** The table [defaultRoles], without [_id]. *)
Definition defaultRoles : list (string * string * string * string * Z) :=
  [ (AccessRoleIds.AGENT_VIEWER, "com_ui_role_viewer", "com_ui_role_viewer_desc",
     ResourceType.AGENT, RoleBits.VIEWER);
    (AccessRoleIds.AGENT_EDITOR, "com_ui_role_editor", "com_ui_role_editor_desc",
     ResourceType.AGENT, RoleBits.EDITOR);
    (AccessRoleIds.AGENT_OWNER, "com_ui_role_owner", "com_ui_role_owner_desc",
     ResourceType.AGENT, RoleBits.OWNER);
    (AccessRoleIds.PROMPTGROUP_VIEWER, "com_ui_role_viewer", "com_ui_role_viewer_desc",
     ResourceType.PROMPTGROUP, RoleBits.VIEWER);
    (AccessRoleIds.PROMPTGROUP_EDITOR, "com_ui_role_editor", "com_ui_role_editor_desc",
     ResourceType.PROMPTGROUP, RoleBits.EDITOR);
    (AccessRoleIds.PROMPTGROUP_OWNER, "com_ui_role_owner", "com_ui_role_owner_desc",
     ResourceType.PROMPTGROUP, RoleBits.OWNER);
    (AccessRoleIds.MCPSERVER_VIEWER, "com_ui_mcp_server_role_viewer",
     "com_ui_mcp_server_role_viewer_desc", ResourceType.MCPSERVER, RoleBits.VIEWER);
    (AccessRoleIds.MCPSERVER_EDITOR, "com_ui_mcp_server_role_editor",
     "com_ui_mcp_server_role_editor_desc", ResourceType.MCPSERVER, RoleBits.EDITOR);
    (AccessRoleIds.MCPSERVER_OWNER, "com_ui_mcp_server_role_owner",
     "com_ui_mcp_server_role_owner_desc", ResourceType.MCPSERVER, RoleBits.OWNER);
    (AccessRoleIds.REMOTE_AGENT_VIEWER, "com_ui_remote_agent_role_viewer",
     "com_ui_remote_agent_role_viewer_desc", ResourceType.REMOTE_AGENT, RoleBits.VIEWER);
    (AccessRoleIds.REMOTE_AGENT_EDITOR, "com_ui_remote_agent_role_editor",
     "com_ui_remote_agent_role_editor_desc", ResourceType.REMOTE_AGENT, RoleBits.EDITOR);
    (AccessRoleIds.REMOTE_AGENT_OWNER, "com_ui_remote_agent_role_owner",
     "com_ui_remote_agent_role_owner_desc", ResourceType.REMOTE_AGENT, RoleBits.OWNER) ].

(** [has] and [get] of the same key are one lookup here: the store holds
    no undefined value. *)
Definition seedDefaultRoles : Async (JsMap IAccessRole.t) :=
  forOf defaultRoles
    (fun result role =>
       let '(accessRoleId, name, description, resourceType, permBits) := role in
       present <- gets (fun w => mapGet accessRoleId (accessRoleStore w)) ;;
       match present with
       | None =>
           id <- nanoid ;;
           let newRole :=
             IAccessRole.mk id accessRoleId name description resourceType permBits in
           modify (fun w =>
             setAccessRoleStore (mapSet accessRoleId newRole (accessRoleStore w)) w) ;;;
           ret (mapSet accessRoleId newRole result)
       | Some stored => ret (mapSet accessRoleId stored result)
       end)
    [].

End AccessRole.

(* ================================================================== *)
(** ** [userGroup.ts] *)

Module UserGroup.

(** [g.memberIds?.includes(userId)] *)
Definition isMember (userId : string) (g : IGroup.t) : bool :=
  match IGroup.memberIds g with
  | Some ids => existsb (String.eqb userId) ids
  | None => false
  end.

Definition findGroupsByMemberId (userId : string) : Async (list IGroup.t) :=
  gets (fun w => List.filter (isMember userId) (values (groupStore w))).

Definition getUserGroups (userId : string) : Async (list IGroup.t) :=
  findGroupsByMemberId userId.

(** [role && role.trim()] for [role?: string | null]; [None] is null or
    undefined. *)
Definition roleGiven (role : option string) : bool :=
  match role with
  | Some r => negb (String.eqb r "") && negb (String.eqb (trim r) "")
  | None => false
  end.

Definition getUserPrincipals (userId : string) (role : option string)
  : Async (list Principal.t) :=
  let principals := [Principal.mk PrincipalType.USER (PStr userId)] in
  let principals :=
    match role with
    | Some r =>
        if roleGiven role
        then principals ++ [Principal.mk PrincipalType.ROLE (PStr r)]
        else principals
    | None => principals
    end in
  userGroups <- getUserGroups userId ;;
  let principals :=
    fold_left (fun principals group =>
                 principals ++ [Principal.mk PrincipalType.GROUP
                                             (PStr (IGroup._id group))])
              userGroups principals in
  ret (principals ++ [Principal.mk PrincipalType.PUBLIC PUndefined]).

End UserGroup.

(* ================================================================== *)
(** ** [api/models/index.js]: the model objects *)

Module Models.

(** [aclEntry = { find: methods.findAclEntries, ... }] *)
Module aclEntry.
Definition find := AclEntry.findAclEntries.
Definition findOne := AclEntry.findOneAclEntry.
Definition deleteMany := AclEntry.deleteManyAclEntries.
Definition findOneAndDelete := AclEntry.findOneAndDeleteAclEntry.
End aclEntry.

(** [accessRole = { find: methods.findRolesByResourceType,
                    findOne: methods.findRoleByIdentifier, ... }] *)
Module accessRole.
Definition find := AccessRole.findRolesByResourceType.
Definition findOne := AccessRole.findRoleByIdentifier.
End accessRole.

Definition seedDefaultRoles := AccessRole.seedDefaultRoles.

End Models.

(* ================================================================== *)
(** ** [PermissionService.js] *)

(** An element of [updatedPrincipals] / [revokedPrincipals], and of the
    arrays [granted] and [revoked] of the result, which copy its fields. *)
Module TPrincipal.
Record t : Type := mk {
  type : string;
  id : prim;
  name : prim;
  email : prim;
  source : prim;
  avatar : prim;
  description : prim;
  idOnTheSource : prim;
  accessRoleId : prim;
  memberCount : prim;
  memberIds : option (list string)
}.
End TPrincipal.

(** [{ granted, updated, revoked, errors }] *)
Module BulkResults.
Record t : Type := mk {
  granted : list TPrincipal.t;
  updated : list TPrincipal.t;
  revoked : list TPrincipal.t;
  errors : list (TPrincipal.t * string)
}.
End BulkResults.

Module PermissionService.

Definition invalidResourceTypeMessage (resourceType : string) : string :=
  "Invalid resourceType: " +++ resourceType +++ ". Valid types: "
  +++ join ", " ResourceType.all.

Definition validateResourceType (resourceType : string) : Async unit :=
  let validTypes := ResourceType.all in
  if negb (existsb (String.eqb resourceType) validTypes)
  then throw (invalidResourceTypeMessage resourceType)
  else ret tt.

(** [typeof principalId !== 'string' || principalId.trim().length === 0] *)
Definition badRoleId (principalId : prim) : bool :=
  match principalId with
  | PStr s => String.eqb (trim s) ""
  | _ => true
  end.

Definition grantPermission (principalType : string) (principalId : prim)
    (resourceType resourceId accessRoleId grantedBy : string)
  : Async IAclEntry.t :=
  tryCatch
    (when negb (existsb (String.eqb principalType) PrincipalType.all)
       then throw ("Invalid principal type: " +++ principalType) ;;;
     when negb (String.eqb principalType PrincipalType.PUBLIC)
          && negb (truthy principalId)
       then throw "Principal ID is required for user, group, and role principals" ;;;
     when truthy principalId && String.eqb principalType PrincipalType.ROLE
          && badRoleId principalId
       then throw ("Invalid role ID: " +++ display principalId) ;;;
     when String.eqb resourceId ""
       then throw ("Invalid resource ID: " +++ resourceId) ;;;
     validateResourceType resourceType ;;;
     role <- AccessRole.findRoleByIdentifier accessRoleId ;;
     match role with
     | None => throw ("Role " +++ accessRoleId +++ " not found")
     | Some role =>
         when negb (String.eqb (IAccessRole.resourceType role) resourceType)
           then throw ("Role " +++ accessRoleId +++ " is for "
                       +++ IAccessRole.resourceType role +++ " resources, not "
                       +++ resourceType) ;;;
         AclEntry.grantPermission principalType principalId resourceType resourceId
           (IAccessRole.permBits role) grantedBy (PStr (IAccessRole._id role))
     end)
    (fun message =>
       log ("[PermissionService.grantPermission] Error: " +++ message) ;;;
       throw message).

Definition checkPermission (userId : string) (role : option string)
    (resourceType resourceId : string) (requiredPermission : prim) : Async bool :=
  tryCatch
    (match requiredPermission with
     | PNum required =>
         when required <? 1
           then throw "requiredPermission must be a positive number" ;;;
         validateResourceType resourceType ;;;
         principals <- UserGroup.getUserPrincipals userId role ;;
         if (List.length principals =? 0)%nat then ret false
         else AclEntry.hasPermission principals resourceType resourceId required
     | _ => throw "requiredPermission must be a positive number"
     end)
    (fun message =>
       log ("[PermissionService.checkPermission] Error: " +++ message) ;;;
       if includes message "requiredPermission must be" then throw message
       else ret false).

Definition getEffectivePermissions (userId : string) (role : option string)
    (resourceType resourceId : string) : Async Z :=
  tryCatch
    (validateResourceType resourceType ;;;
     principals <- UserGroup.getUserPrincipals userId role ;;
     if (List.length principals =? 0)%nat then ret 0
     else AclEntry.getEffectivePermissions principals resourceType resourceId)
    (fun message =>
       log ("[PermissionService.getEffectivePermissions] Error: " +++ message) ;;;
       ret 0).

Definition getResourcePermissionsMap (userId : string) (role : option string)
    (resourceType : string) (resourceIds : list string) : Async (JsMap Z) :=
  validateResourceType resourceType ;;;
  match resourceIds with
  | [] => ret []
  | _ =>
    tryCatch
      (principals <- UserGroup.getUserPrincipals userId role ;;
       AclEntry.getEffectivePermissionsForResources principals resourceType resourceIds)
      (fun message =>
         log ("[PermissionService.getResourcePermissionsMap] Error: " +++ message) ;;;
         throw message)
  end.

Definition findAccessibleResources (userId : string) (role : option string)
    (resourceType : string) (requiredPermissions : prim) : Async (list string) :=
  tryCatch
    (match requiredPermissions with
     | PNum required =>
         when required <? 1
           then throw "requiredPermissions must be a positive number" ;;;
         validateResourceType resourceType ;;;
         principalsList <- UserGroup.getUserPrincipals userId role ;;
         if (List.length principalsList =? 0)%nat then ret []
         else AclEntry.findAccessibleResources principalsList resourceType required
     | _ => throw "requiredPermissions must be a positive number"
     end)
    (fun message =>
       log ("[PermissionService.findAccessibleResources] Error: " +++ message) ;;;
       if includes message "requiredPermissions must be" then throw message
       else ret []).

Definition findPubliclyAccessibleResources (resourceType : string)
    (requiredPermissions : prim) : Async (list string) :=
  tryCatch
    (match requiredPermissions with
     | PNum required =>
         when required <? 1
           then throw "requiredPermissions must be a positive number" ;;;
         validateResourceType resourceType ;;;
         entries <- Models.aclEntry.find
                      [("principalType", PStr PrincipalType.PUBLIC);
                       ("resourceType", PStr resourceType);
                       ("permBits", PNum required)] ;;
         ret (uniq (map IAclEntry.resourceId entries))
     | _ => throw "requiredPermissions must be a positive number"
     end)
    (fun message =>
       log ("[PermissionService.findPubliclyAccessibleResources] Error: " +++ message) ;;;
       if includes message "requiredPermissions must be" then throw message
       else ret []).

Definition hasPublicPermission (resourceType resourceId : string)
    (requiredPermissions : prim) : Async bool :=
  tryCatch
    (match requiredPermissions with
     | PNum required =>
         when required <? 1
           then throw "requiredPermissions must be a positive number" ;;;
         validateResourceType resourceType ;;;
         let publicPrincipal := [Principal.mk PrincipalType.PUBLIC PUndefined] in
         entries <- AclEntry.findEntriesByPrincipalsAndResource
                      publicPrincipal resourceType resourceId ;;
         ret (existsb (fun entry =>
                Z.eqb (jsAnd (IAclEntry.permBits entry) required) required)
              entries)
     | _ => throw "requiredPermissions must be a positive number"
     end)
    (fun message =>
       log ("[PermissionService.hasPublicPermission] Error: " +++ message) ;;;
       if includes message "requiredPermissions must be" then throw message
       else ret false).

(** [rolesMap.get(principal.accessRoleId)]: the keys are strings. *)
Definition rolesMapGet (accessRoleId : prim) (rolesMap : JsMap IAccessRole.t)
  : option IAccessRole.t :=
  match accessRoleId with
  | PStr s => mapGet s rolesMap
  | _ => None
  end.

Definition pushError (results : BulkResults.t) (principal : TPrincipal.t)
    (error : string) : BulkResults.t :=
  BulkResults.mk (BulkResults.granted results) (BulkResults.updated results)
    (BulkResults.revoked results)
    (BulkResults.errors results ++ [(principal, error)]).

Definition pushGranted (results : BulkResults.t) (principal : TPrincipal.t)
  : BulkResults.t :=
  BulkResults.mk
    (BulkResults.granted results ++
       [TPrincipal.mk (TPrincipal.type principal) (TPrincipal.id principal)
          (TPrincipal.name principal) (TPrincipal.email principal)
          (TPrincipal.source principal) (TPrincipal.avatar principal)
          (TPrincipal.description principal) (TPrincipal.idOnTheSource principal)
          (TPrincipal.accessRoleId principal) (TPrincipal.memberCount principal)
          (TPrincipal.memberIds principal)])
    (BulkResults.updated results) (BulkResults.revoked results)
    (BulkResults.errors results).

(** The pushed object has neither [accessRoleId] nor [memberIds]. *)
Definition pushRevoked (results : BulkResults.t) (principal : TPrincipal.t)
  : BulkResults.t :=
  BulkResults.mk (BulkResults.granted results) (BulkResults.updated results)
    (BulkResults.revoked results ++
       [TPrincipal.mk (TPrincipal.type principal) (TPrincipal.id principal)
          (TPrincipal.name principal) (TPrincipal.email principal)
          (TPrincipal.source principal) (TPrincipal.avatar principal)
          (TPrincipal.description principal) (TPrincipal.idOnTheSource principal)
          PUndefined (TPrincipal.memberCount principal) None])
    (BulkResults.errors results).

(** [updatedPrincipals] and [revokedPrincipals] are arrays, so the two
    [Array.isArray] guards pass; [!resourceId] is the empty string. *)
Definition bulkUpdateResourcePermissions (resourceType resourceId : string)
    (updatedPrincipals revokedPrincipals : list TPrincipal.t) (grantedBy : string)
  : Async BulkResults.t :=
  tryCatch
    (when String.eqb resourceId ""
       then throw ("Invalid resource ID: " +++ resourceId) ;;;
     roles <- Models.accessRole.find (JObject [("resourceType", PStr resourceType)]) ;;
     let rolesMap :=
       fold_left (fun rolesMap role =>
                    mapSet (IAccessRole.accessRoleId role) role rolesMap)
                 roles [] in
     let results := BulkResults.mk [] [] [] [] in
     results <- forOf updatedPrincipals
       (fun results principal =>
          tryCatch
            (if negb (truthy (TPrincipal.accessRoleId principal))
             then ret (pushError results principal
                         "accessRoleId is required for updated principals")
             else
               match rolesMapGet (TPrincipal.accessRoleId principal) rolesMap with
               | None =>
                   ret (pushError results principal
                          ("Role " +++ display (TPrincipal.accessRoleId principal)
                           +++ " not found"))
               | Some role =>
                   AclEntry.grantPermission
                     (TPrincipal.type principal) (TPrincipal.id principal)
                     resourceType resourceId (IAccessRole.permBits role) grantedBy
                     (PStr (IAccessRole._id role)) ;;;
                   ret (pushGranted results principal)
               end)
            (fun message => ret (pushError results principal message)))
       results ;;
     results <- forOf revokedPrincipals
       (fun results principal =>
          tryCatch
            (Models.aclEntry.findOneAndDelete
               [("principalType", PStr (TPrincipal.type principal));
                ("principalId", TPrincipal.id principal);
                ("resourceType", PStr resourceType);
                ("resourceId", PStr resourceId)] ;;;
             ret (pushRevoked results principal))
            (fun message => ret (pushError results principal message)))
       results ;;
     ret results)
    (fun message =>
       log ("[PermissionService.bulkUpdateResourcePermissions] Error: " +++ message) ;;;
       throw message).

Definition removeAllPermissions (resourceType resourceId : string) : Async Z :=
  tryCatch
    (validateResourceType resourceType ;;;
     when String.eqb resourceId ""
       then throw ("Invalid resource ID: " +++ resourceId) ;;;
     Models.aclEntry.deleteMany
       [("resourceType", PStr resourceType); ("resourceId", PStr resourceId)])
    (fun message =>
       log ("[PermissionService.removeAllPermissions] Error: " +++ message) ;;;
       throw message).

End PermissionService.

(* ================================================================== *)
(** ** The properties, in the words of the specification *)

Module Spec.

(** "(principalType, principalId) matches an element of P" *)
Definition principalIn (e : IAclEntry.t) (P : list Principal.t) : bool :=
  existsb (fun p =>
             String.eqb (IAclEntry.principalType e) (Principal.principalType p)
             && strictEq (IAclEntry.principalId e) (Principal.principalId p)) P.

Definition isPublic (e : IAclEntry.t) : bool :=
  String.eqb (IAclEntry.principalType e) PrincipalType.PUBLIC.

Definition hasPublic (P : list Principal.t) : bool :=
  existsb (fun p => String.eqb (Principal.principalType p) PrincipalType.PUBLIC) P.

Definition forResource (T R : string) (e : IAclEntry.t) : bool :=
  String.eqb (IAclEntry.resourceType e) T && String.eqb (IAclEntry.resourceId e) R.

(** "every stored ACL entry for (T, R) whose (principalType, principalId)
    matches an element of P or whose principalType is PUBLIC" *)
Definition matchesAlwaysPublic (P : list Principal.t) (T R : string)
    (e : IAclEntry.t) : bool :=
  forResource T R e && (principalIn e P || isPublic e).

(** The same, with the PUBLIC entries counted only for a principal list
    that has a PUBLIC element. *)
Definition matchesListedPublic (P : list Principal.t) (T R : string)
    (e : IAclEntry.t) : bool :=
  forResource T R e && (principalIn e P || (isPublic e && hasPublic P)).

(** The bitwise OR of a list of masks. *)
Definition orAll (bits : list Z) : Z := fold_left jsOr bits 0.

(** "an entry matches when it holds all requested bits" *)
Definition holdsAll (b : Z) (e : IAclEntry.t) : bool :=
  Z.eqb (jsAnd (IAclEntry.permBits e) b) b.

(** "the de-duplicated resource ids of type T that carry a PUBLIC ACL
    entry matching b" *)
Definition publiclyAccessible (T : string) (b : Z) (store : JsMap IAclEntry.t)
  : list string :=
  uniq (map IAclEntry.resourceId
            (List.filter (fun e => isPublic e
                                   && String.eqb (IAclEntry.resourceType e) T
                                   && holdsAll b e)
                         (values store))).

(** The entries of one (principalType, principalId, resourceType,
    resourceId) tuple. *)
Definition entriesOf (pt : string) (pid : prim) (rt rid : string)
    (store : JsMap IAclEntry.t) : list IAclEntry.t :=
  List.filter (AclEntry.sameTuple pt pid rt rid) (values store).

(** "at most one entry per tuple" *)
Definition onePerTuple (store : JsMap IAclEntry.t) : Prop :=
  forall pt pid rt rid, (List.length (entriesOf pt pid rt rid store) <= 1)%nat.

(** "contains one {GROUP, groupId} for each group whose memberIds
    contains userId" *)
Definition memberOf (userId : string) (g : IGroup.t) : Prop :=
  exists ids, IGroup.memberIds g = Some ids /\ In userId ids.

Definition groupPrincipal (g : IGroup.t) : Principal.t :=
  Principal.mk PrincipalType.GROUP (PStr (IGroup._id g)).

Definition isGroup (p : Principal.t) : bool :=
  String.eqb (Principal.principalType p) PrincipalType.GROUP.


(** An unknown resource type. *)
Definition unknownResourceType (T : string) : Prop := ~ In T ResourceType.all.


End Spec.

(** A call of [grantPermission] of [aclEntry.ts]. *)
Module GrantCall.
Record t : Type := mk {
  principalType : string;
  principalId : prim;
  resourceType : string;
  resourceId : string;
  permBits : Z;
  grantedBy : string;
  roleId : prim
}.
End GrantCall.

Definition runGrant (w : World) (c : GrantCall.t) : World :=
  after (AclEntry.grantPermission
           (GrantCall.principalType c) (GrantCall.principalId c)
           (GrantCall.resourceType c) (GrantCall.resourceId c)
           (GrantCall.permBits c) (GrantCall.grantedBy c) (GrantCall.roleId c) w).

(** The world after a sequence of grants. *)
Definition runGrants (calls : list GrantCall.t) (w : World) : World :=
  fold_left runGrant calls w.

(** The world at start-up: the three maps are empty. *)
Definition initialWorld (ids : nat -> string) (clk : nat -> Z) : World :=
  mkWorld [] [] [] ids clk 0.

Definition withGroups (groups : JsMap IGroup.t) (w : World) : World :=
  mkWorld (aclStore w) (accessRoleStore w) groups (nanoidResults w) (clock w) (tick w).

(** The world once the default roles are seeded, with some groups. *)
Definition seededWorld (ids : nat -> string) (clk : nat -> Z)
    (groups : JsMap IGroup.t) : World :=
  withGroups groups (after (Models.seedDefaultRoles (initialWorld ids clk))).


(* ================================================================== *)
(** ** Example worlds *)

Module Example.

Definition ids (n : nat) : string := "id" +++ NilZero.string_of_uint (Nat.to_uint n).
Definition clk (n : nat) : Z := 1000 + Z.of_nat n.

Definition start : World := initialWorld ids clk.
Definition seeded : World := seededWorld ids clk [].

Definition user (u : string) : Principal.t := Principal.mk PrincipalType.USER (PStr u).

(** A PUBLIC grant of VIEW on agent a1, and nothing else. *)
Definition publicView : World :=
  after (AclEntry.grantPermission PrincipalType.PUBLIC PNull ResourceType.AGENT "a1"
           PermissionBits.VIEW "admin" PUndefined start).

(** A PUBLIC grant of the role AGENT_EDITOR (VIEW|EDIT) on agent a1. *)
Definition publicEditor : World :=
  after (PermissionService.grantPermission PrincipalType.PUBLIC PNull
           ResourceType.AGENT "a1" AccessRoleIds.AGENT_EDITOR "admin" seeded).

(** User u1 holds VIEW on agent a1, granted with the role "r-viewer". *)
Definition userView : World :=
  after (AclEntry.grantPermission PrincipalType.USER (PStr "u1") ResourceType.AGENT "a1"
           PermissionBits.VIEW "admin" (PStr "r-viewer") start).

Definition updated (type id accessRoleId : string) : TPrincipal.t :=
  TPrincipal.mk type (PStr id) PUndefined PUndefined PUndefined PUndefined
                PUndefined PUndefined (PStr accessRoleId) PUndefined None.

(** Three updated principals, the second with an unknown role. *)
Definition threePrincipals : list TPrincipal.t :=
  [ updated PrincipalType.USER "u1" AccessRoleIds.AGENT_VIEWER;
    updated PrincipalType.USER "u2" "non_existent_role";
    updated PrincipalType.GROUP "g1" AccessRoleIds.AGENT_OWNER ].

End Example.

(* ================================================================== *)
(** ** Proof steps *)



From Stdlib Require Import Sorted.

(* ================================================================== *)
(** ** [accessRole.ts], [userGroup.ts]: the other methods *)


(** The argument of [createRole]: the fields of an access role, and an
    [_id] that the spread puts over the generated one when it is given. *)
Module RoleData.
Record t : Type := mk {
  _id : option string;
  accessRoleId : string;
  name : string;
  description : string;
  resourceType : string;
  permBits : Z
}.
End RoleData.

(** The argument of [updateRole]: [Partial<IAccessRole>]. *)
Module RoleUpdate.
Record t : Type := mk {
  _id : option string;
  accessRoleId : option string;
  name : option string;
  description : option string;
  resourceType : option string;
  permBits : option Z
}.
End RoleUpdate.

Module AccessRoleMethods.

Definition findRoleByPermissions (resourceType : string) (permBits : Z)
  : Async (option IAccessRole.t) :=
  gets (fun w =>
    find (fun r => String.eqb (IAccessRole.resourceType r) resourceType
                   && Z.eqb (IAccessRole.permBits r) permBits)
         (values (accessRoleStore w))).

(** [roleData.accessRoleId || id] *)
Definition keyOf (accessRoleId id : string) : string :=
  if String.eqb accessRoleId "" then id else accessRoleId.

(** [{ _id: id, ...roleData }] *)
Definition createRole (roleData : RoleData.t) : Async IAccessRole.t :=
  id <- nanoid ;;
  let accessRoleId := keyOf (RoleData.accessRoleId roleData) id in
  let newRole :=
    IAccessRole.mk
      (match RoleData._id roleData with Some given => given | None => id end)
      (RoleData.accessRoleId roleData) (RoleData.name roleData)
      (RoleData.description roleData) (RoleData.resourceType roleData)
      (RoleData.permBits roleData) in
  modify (fun w => setAccessRoleStore (mapSet accessRoleId newRole (accessRoleStore w)) w) ;;;
  ret newRole.

Definition orElse {A} (o : option A) (a : A) : A :=
  match o with Some x => x | None => a end.

(** [{ ...existing, ...updateData }] *)
Definition spread (existing : IAccessRole.t) (updateData : RoleUpdate.t)
  : IAccessRole.t :=
  IAccessRole.mk
    (orElse (RoleUpdate._id updateData) (IAccessRole._id existing))
    (orElse (RoleUpdate.accessRoleId updateData) (IAccessRole.accessRoleId existing))
    (orElse (RoleUpdate.name updateData) (IAccessRole.name existing))
    (orElse (RoleUpdate.description updateData) (IAccessRole.description existing))
    (orElse (RoleUpdate.resourceType updateData) (IAccessRole.resourceType existing))
    (orElse (RoleUpdate.permBits updateData) (IAccessRole.permBits existing)).

Definition updateRole (accessRoleId : string) (updateData : RoleUpdate.t)
  : Async (option IAccessRole.t) :=
  existing <- gets (fun w => mapGet accessRoleId (accessRoleStore w)) ;;
  match existing with
  | None => ret None
  | Some existing =>
      let updated := spread existing updateData in
      modify (fun w =>
        setAccessRoleStore (mapSet accessRoleId updated (accessRoleStore w)) w) ;;;
      ret (Some updated)
  end.

(** [{ deletedCount: deleted ? 1 : 0 }] *)
Definition deleteRole (accessRoleId : string) : Async Z :=
  deleted <- gets (fun w => mapHas accessRoleId (accessRoleStore w)) ;;
  modify (fun w => setAccessRoleStore (mapDelete accessRoleId (accessRoleStore w)) w) ;;;
  ret (if deleted then 1 else 0).

(** [roles.sort((a, b) => b.permBits - a.permBits)]: the sort is stable,
    so a role goes before the first one whose bits are not greater. *)
Fixpoint insertDesc (x : IAccessRole.t) (l : list IAccessRole.t)
  : list IAccessRole.t :=
  match l with
  | [] => [x]
  | y :: rest =>
      if IAccessRole.permBits x <? IAccessRole.permBits y
      then y :: insertDesc x rest
      else x :: l
  end.

Definition sortDesc (l : list IAccessRole.t) : list IAccessRole.t :=
  fold_right insertDesc [] l.

(** The callback of the last [find]:
    [(role.permBits & permBits) === role.permBits]. *)
Definition within (permBits : Z) (role : IAccessRole.t) : bool :=
  Z.eqb (jsAnd (IAccessRole.permBits role) permBits) (IAccessRole.permBits role).

Definition getRoleForPermissions (resourceType : string) (permBits : Z)
  : Async (option IAccessRole.t) :=
  exactMatch <- findRoleByPermissions resourceType permBits ;;
  match exactMatch with
  | Some r => ret (Some r)
  | None =>
      roles <- gets (fun w =>
        sortDesc (List.filter
                    (fun r => String.eqb (IAccessRole.resourceType r) resourceType)
                    (values (accessRoleStore w)))) ;;
      ret (find (within permBits) roles)
  end.

End AccessRoleMethods.

(** The body of the loop of [seedDefaultRoles], by name. *)
Definition seedStep (result : JsMap IAccessRole.t)
    (role : string * string * string * string * Z) : Async (JsMap IAccessRole.t) :=
  let '(accessRoleId, name, description, resourceType, permBits) := role in
  present <- gets (fun w => mapGet accessRoleId (accessRoleStore w)) ;;
  match present with
  | None =>
      id <- nanoid ;;
      let newRole :=
        IAccessRole.mk id accessRoleId name description resourceType permBits in
      modify (fun w =>
        setAccessRoleStore (mapSet accessRoleId newRole (accessRoleStore w)) w) ;;;
      ret (mapSet accessRoleId newRole result)
  | Some stored => ret (mapSet accessRoleId stored result)
  end.

(** The identifier of a row of [defaultRoles]. *)
Definition rowId (row : string * string * string * string * Z) : string :=
  let '(accessRoleId, _, _, _, _) := row in accessRoleId.

(** A stored role carries the fields of a row. *)
Definition fromRow (row : string * string * string * string * Z)
    (role : IAccessRole.t) : Prop :=
  let '(accessRoleId, name, description, resourceType, permBits) := row in
  IAccessRole.accessRoleId role = accessRoleId
  /\ IAccessRole.name role = name
  /\ IAccessRole.description role = description
  /\ IAccessRole.resourceType role = resourceType
  /\ IAccessRole.permBits role = permBits.

Module UserGroupMethods.

Definition setGroupStore (s : JsMap IGroup.t) (w : World) : World :=
  mkWorld (aclStore w) (accessRoleStore w) s (nanoidResults w) (clock w) (tick w).

Definition findGroupById (groupId : string) : Async (option IGroup.t) :=
  gets (fun w => mapGet groupId (groupStore w)).

Definition withMembers (ids : list string) (g : IGroup.t) : IGroup.t :=
  IGroup.mk (IGroup._id g) (IGroup.name g) (Some ids).

(** The result is [{ user, group }]: the user is [{ _id: userId }], or
    [{}] when there is no such group.  [updatedAt] is not among the
    fields of [IGroup.t]; its [new Date()] is made all the same. *)
Definition addUserToGroup (userId groupId : string)
  : Async (option string * option IGroup.t) :=
  group <- gets (fun w => mapGet groupId (groupStore w)) ;;
  match group with
  | None => ret (None, None)
  | Some group =>
      let memberIds := match IGroup.memberIds group with Some ids => ids | None => [] end in
      if negb (existsb (String.eqb userId) memberIds)
      then
        _ <- newDate ;;
        let group := withMembers (memberIds ++ [userId]) group in
        modify (fun w => setGroupStore (mapSet groupId group (groupStore w)) w) ;;;
        ret (Some userId, Some group)
      else ret (Some userId, Some (withMembers memberIds group))
  end.

Definition removeUserFromGroup (userId groupId : string)
  : Async (option string * option IGroup.t) :=
  group <- gets (fun w => mapGet groupId (groupStore w)) ;;
  match group with
  | None => ret (None, None)
  | Some group =>
      match IGroup.memberIds group with
      | Some ids =>
          let group :=
            withMembers (List.filter (fun id => negb (String.eqb id userId)) ids) group in
          _ <- newDate ;;
          modify (fun w => setGroupStore (mapSet groupId group (groupStore w)) w) ;;;
          ret (Some userId, Some group)
      | None => ret (Some userId, Some group)
      end
  end.

End UserGroupMethods.

(** [getAvailableRoles] of [PermissionService.js]. *)
Module PermissionServiceRoles.

Definition getAvailableRoles (resourceType : string) : Async (list IAccessRole.t) :=
  PermissionService.validateResourceType resourceType ;;;
  Models.accessRole.find (JObject [("resourceType", PStr resourceType)]).

End PermissionServiceRoles.

(* ================================================================== *)
(** ** [accessControlService.ts] *)

Module AccessControlService.

(** [validateResourceType] is the private method of the class, with the
    message of the facade's function.  The entry method is called with
    six arguments: its [roleId] is undefined. *)
Definition grantPermission (principalType : string) (principalId : prim)
    (resourceType resourceId accessRoleId grantedBy : string)
  : Async IAclEntry.t :=
  tryCatch
    (when negb (existsb (String.eqb principalType) PrincipalType.all)
       then throw ("Invalid principal type: " +++ principalType) ;;;
     when negb (String.eqb principalType PrincipalType.PUBLIC)
          && negb (truthy principalId)
       then throw "Principal ID is required for user, group, and role principals" ;;;
     when truthy principalId && String.eqb principalType PrincipalType.ROLE
          && PermissionService.badRoleId principalId
       then throw ("Invalid role ID: " +++ display principalId) ;;;
     PermissionService.validateResourceType resourceType ;;;
     role <- AccessRole.findRoleByIdentifier accessRoleId ;;
     match role with
     | None => throw ("Role " +++ accessRoleId +++ " not found")
     | Some role =>
         when negb (String.eqb (IAccessRole.resourceType role) resourceType)
           then throw ("Role " +++ accessRoleId +++ " is for "
                       +++ IAccessRole.resourceType role +++ " resources, not "
                       +++ resourceType) ;;;
         AclEntry.grantPermission principalType principalId resourceType resourceId
           (IAccessRole.permBits role) grantedBy PUndefined
     end)
    (fun message =>
       log ("[AccessControlService.grantPermission] Error: " +++ message) ;;;
       throw message).

End AccessControlService.

(* ================================================================== *)
(** ** Sequences of store operations *)

(** The calls that change the entry store. *)
Inductive StoreOp : Type :=
  | OpGrant (c : GrantCall.t)
  | OpRevoke (principalType : string) (principalId : prim)
             (resourceType resourceId : string)
  | OpModify (principalType : string) (principalId : prim)
             (resourceType resourceId : string) (addBits removeBits : option Z)
  | OpRemoveAll (resourceType resourceId : string).

Definition runOp (w : World) (op : StoreOp) : World :=
  match op with
  | OpGrant c => runGrant w c
  | OpRevoke pt pid rt rid => after (AclEntry.revokePermission pt pid rt rid w)
  | OpModify pt pid rt rid add remove =>
      after (AclEntry.modifyPermissionBits pt pid rt rid add remove w)
  | OpRemoveAll rt rid => after (PermissionService.removeAllPermissions rt rid w)
  end.

Definition runOps (ops : list StoreOp) (w : World) : World := fold_left runOp ops w.

Module Store.

Definition keys {V} (m : JsMap V) : list string := map fst m.

(** Every entry sits under its own [_id], and no key occurs twice. *)
Definition wellKeyed (store : JsMap IAclEntry.t) : Prop :=
  NoDup (keys store)
  /\ Forall (fun kv => fst kv = IAclEntry._id (snd kv)) store.

(** What the operations on the entry store keep. *)
Definition invariant (store : JsMap IAclEntry.t) : Prop :=
  wellKeyed store /\ Spec.onePerTuple store.

(** The principal of a tuple, as an element of a principals list. *)
Definition principalOf (principalType : string) (principalId : prim) : Principal.t :=
  Principal.mk principalType principalId.

(** [map.get(rid) || 0] on a finished permissions map. *)
Definition bitsAt (rid : string) (m : JsMap Z) : Z :=
  match mapGet rid m with Some b => b | None => 0 end.

Definition mask31 (b : Z) : Prop := 0 <= b < 2 ^ 31.

(** Roles listed by descending bits. *)
Definition descending (l : list IAccessRole.t) : Prop :=
  StronglySorted (fun a b => IAccessRole.permBits b <= IAccessRole.permBits a) l.

End Store.

Module Example2.

Definition viewerRow : RoleData.t :=
  RoleData.mk None "custom_viewer" "Custom" "custom role" ResourceType.AGENT 1.

(** Group g1 with the single member u1. *)
Definition oneGroup : World :=
  withGroups [("g1", IGroup.mk "g1" "Team" (Some ["u1"]))] Example.seeded.

End Example2.
(* ================================================================== *)
(** ** Lemmas on the JavaScript layer *)

Lemma toInt32_range z : isInt32 (toInt32 z).
Proof.
  unfold isInt32, toInt32.
  pose proof (Z.mod_pos_bound (z + 2 ^ 31) (2 ^ 32) ltac:(lia)) as H.
  lia.
Qed.

Lemma toInt32_id z : isInt32 z -> toInt32 z = z.
Proof.
  unfold isInt32, toInt32. intros H.
  rewrite Z.mod_small by lia. lia.
Qed.

Lemma toInt32_idem z : toInt32 (toInt32 z) = toInt32 z.
Proof. apply toInt32_id, toInt32_range. Qed.

Lemma jsOr_range a b : isInt32 (jsOr a b).
Proof. apply toInt32_range. Qed.

Lemma jsAnd_range a b : isInt32 (jsAnd a b).
Proof. apply toInt32_range. Qed.

Lemma jsOr_zero_r a : isInt32 a -> jsOr a 0 = a.
Proof.
  intros H. unfold jsOr.
  replace (toInt32 0) with 0 by reflexivity.
  rewrite Z.lor_0_r, toInt32_idem. now apply toInt32_id.
Qed.

Lemma jsAnd_not_zero_r a : isInt32 a -> jsAnd a (jsNot 0) = a.
Proof.
  intros H. unfold jsAnd.
  replace (toInt32 (jsNot 0)) with (-1) by reflexivity.
  rewrite Z.land_m1_r, toInt32_idem. now apply toInt32_id.
Qed.

Lemma strictEq_eq a b : strictEq a b = true <-> a = b.
Proof.
  destruct a, b; simpl; split; intros H; try discriminate; try reflexivity.
  - apply Z.eqb_eq in H. now subst.
  - inversion H. apply Z.eqb_refl.
  - apply String.eqb_eq in H. now subst.
  - inversion H. apply String.eqb_refl.
Qed.

Lemma strictEq_refl a : strictEq a a = true.
Proof. now apply strictEq_eq. Qed.

Lemma fold_left_map_bits (f : Z -> Z -> Z) (l : list IAclEntry.t) (a : Z) :
  fold_left (fun acc e => f acc (IAclEntry.permBits e)) l a
  = fold_left f (map IAclEntry.permBits l) a.
Proof.
  revert a. induction l as [|e l IH]; intros a; simpl; [reflexivity|apply IH].
Qed.

Lemma find_none_filter {A} (p : A -> bool) (l : list A) :
  find p l = None -> List.filter p l = [].
Proof.
  induction l as [|x l IH]; simpl; [reflexivity|].
  destruct (p x); [discriminate|exact IH].
Qed.

Lemma find_some_filter {A} (p : A -> bool) (l : list A) (x : A) :
  find p l = Some x -> exists rest, List.filter p l = x :: rest.
Proof.
  induction l as [|y l IH]; simpl; [discriminate|].
  destruct (p y) eqn:E.
  - intros H. inversion H; subst. eauto.
  - exact IH.
Qed.

Lemma find_unique_filter {A} (p : A -> bool) (l : list A) (x : A) :
  find p l = Some x -> (List.length (List.filter p l) <= 1)%nat ->
  List.filter p l = [x].
Proof.
  intros Hf Hl. destruct (find_some_filter p l x Hf) as [rest Hr].
  rewrite Hr in *. destruct rest; [reflexivity|simpl in Hl; lia].
Qed.

(* ================================================================== *)
(** ** Effective permissions *)

Lemma principalMatches_some (e : IAclEntry.t) (P : list Principal.t) :
  existsb (AclEntry.principalMatches e) P
  = Spec.principalIn e P || (Spec.isPublic e && Spec.hasPublic P).
Proof.
  unfold Spec.principalIn, Spec.hasPublic, Spec.isPublic.
  induction P as [|p P IH]; cbn [existsb].
  - now rewrite andb_false_r.
  - rewrite IH. unfold AclEntry.principalMatches.
    destruct (String.eqb (Principal.principalType p) PrincipalType.PUBLIC) eqn:Ep.
    + apply String.eqb_eq in Ep. rewrite Ep.
      destruct (String.eqb (IAclEntry.principalType e) PrincipalType.PUBLIC);
        destruct (strictEq (IAclEntry.principalId e) (Principal.principalId p));
        destruct (existsb _ P); destruct (existsb _ P); reflexivity.
    + destruct (String.eqb (IAclEntry.principalType e) (Principal.principalType p));
        destruct (strictEq (IAclEntry.principalId e) (Principal.principalId p));
        destruct (String.eqb (IAclEntry.principalType e) PrincipalType.PUBLIC);
        destruct (existsb _ P); destruct (existsb _ P); reflexivity.
Qed.

Lemma entries_filter (P : list Principal.t) (T R : string) (w : World) :
  AclEntry.findEntriesByPrincipalsAndResource P T R w
  = (Normal (List.filter (Spec.matchesListedPublic P T R) (values (aclStore w))), w).
Proof.
  unfold AclEntry.findEntriesByPrincipalsAndResource, gets. f_equal. f_equal.
  apply filter_ext. intros e.
  unfold Spec.matchesListedPublic, Spec.forResource.
  rewrite <- principalMatches_some.
  destruct (String.eqb (IAclEntry.resourceType e) T),
           (String.eqb (IAclEntry.resourceId e) R); reflexivity.
Qed.

Lemma getEffectivePermissions_run (P : list Principal.t) (T R : string) (w : World) :
  AclEntry.getEffectivePermissions P T R w
  = (Normal (Spec.orAll (map IAclEntry.permBits
               (List.filter (Spec.matchesListedPublic P T R) (values (aclStore w))))),
     w).
Proof.
  unfold AclEntry.getEffectivePermissions, bind.
  rewrite entries_filter. unfold ret, Spec.orAll.
  now rewrite fold_left_map_bits.
Qed.

(** C1 (as amended).  For every principal list P, resource type T and
    resource id R, [getEffectivePermissions] resolves, leaves the stores
    as they are, and yields the bitwise OR of [permBits] over every
    stored entry for (T, R) whose (principalType, principalId) matches an
    element of P, or whose principalType is PUBLIC when P has an element
    of principalType PUBLIC. *)
Theorem getEffectivePermissions_is_union
    (P : list Principal.t) (T R : string) (w : World) :
  AclEntry.getEffectivePermissions P T R w
  = (Normal (Spec.orAll (map IAclEntry.permBits
               (List.filter (Spec.matchesListedPublic P T R) (values (aclStore w))))),
     w).
Proof. apply getEffectivePermissions_run. Qed.

(** On masks below 2^31 the JavaScript OR is the OR of the integers, so
    a bit is set in [orAll] exactly when some mask of the list has it:
    the order of the entries does not matter. *)
Lemma lor_below a b :
  0 <= a < 2 ^ 31 -> 0 <= b < 2 ^ 31 -> 0 <= Z.lor a b < 2 ^ 31.
Proof.
  intros Ha Hb.
  assert (H0 : 0 <= Z.lor a b) by (apply Z.lor_nonneg; lia).
  split; [exact H0|].
  destruct (Z.eq_dec (Z.lor a b) 0) as [E|E]; [rewrite E; lia|].
  apply Z.log2_lt_pow2; [lia|].
  rewrite Z.log2_lor by lia.
  assert (La : Z.log2 a < 31).
  { destruct (Z.eq_dec a 0) as [->|]; [simpl; lia|apply Z.log2_lt_pow2; lia]. }
  assert (Lb : Z.log2 b < 31).
  { destruct (Z.eq_dec b 0) as [->|]; [simpl; lia|apply Z.log2_lt_pow2; lia]. }
  lia.
Qed.

Lemma jsOr_below a b :
  0 <= a < 2 ^ 31 -> 0 <= b < 2 ^ 31 -> jsOr a b = Z.lor a b.
Proof.
  intros Ha Hb. unfold jsOr.
  rewrite (toInt32_id a), (toInt32_id b) by (unfold isInt32; lia).
  apply toInt32_id. pose proof (lor_below a b Ha Hb). unfold isInt32. lia.
Qed.

Lemma orAll_testbit (bits : list Z) (i : Z) :
  Forall (fun b => 0 <= b < 2 ^ 31) bits ->
  Z.testbit (Spec.orAll bits) i = existsb (fun b => Z.testbit b i) bits.
Proof.
  unfold Spec.orAll. intros H.
  assert (G : forall acc, 0 <= acc < 2 ^ 31 ->
            0 <= fold_left jsOr bits acc < 2 ^ 31
            /\ Z.testbit (fold_left jsOr bits acc) i
               = Z.testbit acc i || existsb (fun b => Z.testbit b i) bits).
  { induction H as [|b bits Hb _ IH]; intros acc Hacc; simpl.
    - now rewrite orb_false_r.
    - rewrite (jsOr_below acc b Hacc Hb).
      destruct (IH (Z.lor acc b) (lor_below acc b Hacc Hb)) as [Hr Ht].
      split; [exact Hr|]. rewrite Ht, Z.lor_spec, orb_assoc. reflexivity. }
  destruct (G 0 ltac:(lia)) as [_ Ht]. rewrite Ht, Z.testbit_0_l. reflexivity.
Qed.

(** C1 (as stated) fails: with the single entry a PUBLIC grant of VIEW on
    agent a1 and P = [USER u1], the code yields 0, while the OR over the
    entries "matching P or PUBLIC" is 1. *)
Lemma getEffectivePermissions_skips_unlisted_public :
  let P := [Example.user "u1"] in
  let w := Example.publicView in
  result (AclEntry.getEffectivePermissions P ResourceType.AGENT "a1" w) = Normal 0
  /\ Spec.orAll (map IAclEntry.permBits
       (List.filter (Spec.matchesAlwaysPublic P ResourceType.AGENT "a1")
                    (values (aclStore w)))) = 1
  /\ result (AclEntry.getEffectivePermissions P ResourceType.AGENT "a1" w)
     <> Normal (Spec.orAll (map IAclEntry.permBits
          (List.filter (Spec.matchesAlwaysPublic P ResourceType.AGENT "a1")
                       (values (aclStore w))))).
Proof.
  repeat split; try reflexivity. vm_compute. discriminate.
Qed.

(* ================================================================== *)
(** ** The principal resolver *)

Lemma trimStartChars_nil l :
  trimStartChars l = [] <-> forallb isWhiteSpace l = true.
Proof.
  induction l as [|c l IH]; simpl; [tauto|].
  destruct (isWhiteSpace c); simpl; [exact IH|].
  split; discriminate.
Qed.

Lemma trimStartChars_all_white l :
  forallb isWhiteSpace (trimStartChars l) = true -> trimStartChars l = [].
Proof.
  induction l as [|c l IH]; simpl; [reflexivity|].
  destruct (isWhiteSpace c) eqn:E; [exact IH|].
  simpl. rewrite E. discriminate.
Qed.

Lemma forallb_rev {A} (p : A -> bool) (l : list A) :
  forallb p (rev l) = forallb p l.
Proof.
  induction l as [|x l IH]; simpl; [reflexivity|].
  rewrite forallb_app, IH. simpl. rewrite andb_true_r. apply andb_comm.
Qed.

Lemma trimChars_nil l : trimChars l = [] <-> forallb isWhiteSpace l = true.
Proof.
  unfold trimChars. split.
  - intros H.
    assert (H1 : trimStartChars (rev (trimStartChars l)) = []).
    { destruct (trimStartChars (rev (trimStartChars l))); [reflexivity|].
      simpl in H. destruct (rev l0); discriminate. }
    apply trimStartChars_nil in H1. rewrite forallb_rev in H1.
    apply trimStartChars_nil, trimStartChars_all_white, H1.
  - intros H. apply trimStartChars_nil in H. rewrite H. reflexivity.
Qed.

Lemma string_of_list_ascii_nil l : string_of_list_ascii l = "" <-> l = [].
Proof. destruct l; simpl; split; intros H; try discriminate; reflexivity. Qed.

Lemma trim_empty s : String.eqb (trim s) "" = blank s.
Proof.
  unfold trim, blank.
  destruct (forallb isWhiteSpace (list_ascii_of_string s)) eqn:E.
  - apply trimChars_nil in E. rewrite E. reflexivity.
  - apply String.eqb_neq. intros H.
    apply string_of_list_ascii_nil, trimChars_nil in H. congruence.
Qed.

Lemma roleGiven_blank r : UserGroup.roleGiven (Some r) = negb (blank r).
Proof.
  unfold UserGroup.roleGiven. rewrite trim_empty.
  destruct (String.eqb r "") eqn:E; [|reflexivity].
  apply String.eqb_eq in E. subst. reflexivity.
Qed.

Lemma push_each {A B} (f : A -> B) (xs : list A) (init : list B) :
  fold_left (fun acc x => acc ++ [f x]) xs init = init ++ map f xs.
Proof.
  revert init. induction xs as [|x xs IH]; intros init; simpl.
  - now rewrite app_nil_r.
  - rewrite IH, <- app_assoc. reflexivity.
Qed.

Lemma isMember_memberOf userId g :
  UserGroup.isMember userId g = true <-> Spec.memberOf userId g.
Proof.
  unfold UserGroup.isMember, Spec.memberOf.
  destruct (IGroup.memberIds g) as [ids|].
  - rewrite existsb_exists. split.
    + intros [x [Hin Hx]]. apply String.eqb_eq in Hx. subst. eauto.
    + intros [ids' [H Hin]]. inversion H; subst.
      exists userId. split; [assumption|apply String.eqb_refl].
  - split; [discriminate|]. intros [ids [H _]]. discriminate.
Qed.

(** The list [getUserPrincipals] builds. *)
Lemma getUserPrincipals_run userId role w :
  UserGroup.getUserPrincipals userId role w
  = (Normal (Principal.mk PrincipalType.USER (PStr userId)
             :: (match role with
                 | Some r => if UserGroup.roleGiven role
                             then [Principal.mk PrincipalType.ROLE (PStr r)] else []
                 | None => []
                 end
                 ++ map Spec.groupPrincipal
                        (List.filter (UserGroup.isMember userId) (values (groupStore w)))
                 ++ [Principal.mk PrincipalType.PUBLIC PUndefined])), w).
Proof.
  unfold UserGroup.getUserPrincipals, UserGroup.getUserGroups,
    UserGroup.findGroupsByMemberId, bind, gets, ret.
  f_equal. f_equal.
  rewrite (push_each Spec.groupPrincipal).
  destruct role as [r|]; [destruct (UserGroup.roleGiven (Some r))|];
    simpl; rewrite <- ?app_assoc; reflexivity.
Qed.

(** C7.  For every user id, role and group store, [getUserPrincipals]
    resolves with a list whose first element is {USER, userId}, which
    contains {ROLE, r} exactly when the role is the string r and r is not
    blank, whose GROUP elements are one {GROUP, group._id} for each group
    of the store whose memberIds contains userId, and whose last element
    is {PUBLIC}. *)
Theorem getUserPrincipals_shape (userId : string) (role : option string) (w : World) :
  exists ps gs,
    UserGroup.getUserPrincipals userId role w = (Normal ps, w)
    /\ hd_error ps = Some (Principal.mk PrincipalType.USER (PStr userId))
    /\ (forall r, In (Principal.mk PrincipalType.ROLE (PStr r)) ps
                  <-> role = Some r /\ blank r = false)
    /\ List.filter Spec.isGroup ps = map Spec.groupPrincipal gs
    /\ gs = List.filter (UserGroup.isMember userId) (values (groupStore w))
    /\ (forall g, In g gs <-> In g (values (groupStore w)) /\ Spec.memberOf userId g)
    /\ last ps (Principal.mk PrincipalType.USER (PStr userId))
       = Principal.mk PrincipalType.PUBLIC PUndefined.
Proof.
  eexists. exists (List.filter (UserGroup.isMember userId) (values (groupStore w))).
  split; [apply getUserPrincipals_run|].
  split; [reflexivity|].
  split; [|split; [|split; [reflexivity|split]]].
  - intros r. simpl. rewrite in_app_iff, in_app_iff. split.
    + intros [H|[H|[H|H]]].
      * discriminate.
      * destruct role as [r'|]; [|contradiction].
        destruct (UserGroup.roleGiven (Some r')) eqn:E; [|contradiction].
        destruct H as [H|[]]. inversion H; subst.
        rewrite roleGiven_blank in E. split; [reflexivity|].
        now destruct (blank r).
      * apply in_map_iff in H. destruct H as [g [H _]]. discriminate.
      * destruct H as [H|[]]. discriminate.
    + intros [-> Hb]. right. left.
      rewrite roleGiven_blank, Hb. simpl. now left.
  - cbn [List.filter]. replace (Spec.isGroup _) with false by reflexivity.
    rewrite !filter_app.
    replace (List.filter Spec.isGroup [Principal.mk PrincipalType.PUBLIC PUndefined])
      with (@nil Principal.t) by reflexivity.
    rewrite app_nil_r.
    assert (Hr : List.filter Spec.isGroup
                   match role with
                   | Some r => if UserGroup.roleGiven role
                               then [Principal.mk PrincipalType.ROLE (PStr r)] else []
                   | None => []
                   end = []).
    { destruct role as [r|]; [destruct (UserGroup.roleGiven (Some r))|]; reflexivity. }
    rewrite Hr. simpl.
    induction (List.filter (UserGroup.isMember userId) (values (groupStore w)))
      as [|g l IH]; [reflexivity|].
    simpl. now rewrite IH.
  - intros g. rewrite filter_In, isMember_memberOf. tauto.
  - rewrite app_comm_cons, app_assoc. apply last_last.
Qed.

(** The facade always asks with a PUBLIC principal: the resolved list
    has one, so the PUBLIC entries of a resource count for every caller. *)
Lemma resolved_principals_have_public userId role w :
  exists ps,
    UserGroup.getUserPrincipals userId role w = (Normal ps, w)
    /\ Spec.hasPublic ps = true.
Proof.
  eexists. split; [apply getUserPrincipals_run|].
  unfold Spec.hasPublic. cbn [existsb].
  rewrite !existsb_app. cbn [existsb].
  replace (String.eqb (Principal.principalType
                         (Principal.mk PrincipalType.PUBLIC PUndefined))
                      PrincipalType.PUBLIC) with true by reflexivity.
  now rewrite !orb_true_r.
Qed.

(* ================================================================== *)
(** ** Permission checks *)

Lemma hasPermission_run P T R b w :
  AclEntry.hasPermission P T R b w
  = (Normal (existsb (Spec.holdsAll b)
               (List.filter (Spec.matchesListedPublic P T R) (values (aclStore w)))), w).
Proof.
  unfold AclEntry.hasPermission, bind. rewrite entries_filter. reflexivity.
Qed.

Lemma validateResourceType_known T w :
  existsb (String.eqb T) ResourceType.all = true ->
  PermissionService.validateResourceType T w = (Normal tt, w).
Proof.
  intros H. unfold PermissionService.validateResourceType. now rewrite H.
Qed.

Lemma validateResourceType_unknown T w :
  existsb (String.eqb T) ResourceType.all = false ->
  PermissionService.validateResourceType T w
  = (Throw (PermissionService.invalidResourceTypeMessage T), w).
Proof.
  intros H. unfold PermissionService.validateResourceType. now rewrite H.
Qed.

Lemma getUserPrincipals_cons userId role w :
  exists rest,
    UserGroup.getUserPrincipals userId role w
    = (Normal (Principal.mk PrincipalType.USER (PStr userId) :: rest), w).
Proof. eexists. apply getUserPrincipals_run. Qed.

(** A check with a known resource type and a positive mask is the
    store's [hasPermission] on the resolved principals. *)
Lemma checkPermission_valid userId role T R b w :
  1 <= b -> existsb (String.eqb T) ResourceType.all = true ->
  exists rest,
    UserGroup.getUserPrincipals userId role w
    = (Normal (Principal.mk PrincipalType.USER (PStr userId) :: rest), w)
    /\ PermissionService.checkPermission userId role T R (PNum b) w
       = AclEntry.hasPermission
           (Principal.mk PrincipalType.USER (PStr userId) :: rest) T R b w.
Proof.
  intros Hb HT. destruct (getUserPrincipals_cons userId role w) as [rest Hps].
  exists rest. split; [exact Hps|].
  unfold PermissionService.checkPermission, tryCatch, bind.
  replace (b <? 1) with false by (symmetry; apply Z.ltb_ge; lia).
  unfold ret at 1. rewrite validateResourceType_known by assumption.
  rewrite Hps. cbn [List.length Nat.eqb].
  rewrite hasPermission_run. reflexivity.
Qed.



(* ================================================================== *)
(** ** Empty principal lists and invalid masks *)

Lemma filter_none {A} (p : A -> bool) (l : list A) :
  (forall x, p x = false) -> List.filter p l = [].
Proof.
  intros H. induction l as [|x l IH]; simpl; [reflexivity|].
  now rewrite H.
Qed.







(* ================================================================== *)
(** ** Grants and modifications *)

Section MapUpdates.

Context {V : Type}.
Variables (p q : V -> bool) (f : V -> V).

Lemma updateFirst_count (m : JsMap V) :
  (forall v, q (f v) = q v) ->
  List.length (List.filter q (values (updateFirst p f m)))
  = List.length (List.filter q (values m)).
Proof.
  intros Hq. induction m as [|[k v] m IH]; simpl; [reflexivity|].
  destruct (p v); simpl.
  - rewrite Hq. destruct (q v); reflexivity.
  - destruct (q v); simpl; now rewrite IH.
Qed.

Lemma updateFirst_find (m : JsMap V) (e : V) :
  (forall v, p (f v) = p v) ->
  find p (values m) = Some e ->
  find p (values (updateFirst p f m)) = Some (f e).
Proof.
  intros Hp. induction m as [|[k v] m IH]; simpl; [discriminate|].
  destruct (p v) eqn:E; simpl.
  - intros H. inversion H; subst. now rewrite Hp, E.
  - rewrite E. exact IH.
Qed.

Lemma updateFirst_length (m : JsMap V) :
  List.length (updateFirst p f m) = List.length m.
Proof.
  induction m as [|[k v] m IH]; simpl; [reflexivity|].
  destruct (p v); simpl; [reflexivity|now rewrite IH].
Qed.

Lemma mapSet_count (k : string) (v : V) (m : JsMap V) :
  (List.length (List.filter q (values (mapSet k v m)))
   <= List.length (List.filter q (values m)) + (if q v then 1 else 0))%nat.
Proof.
  induction m as [|[k' v'] m IH]; simpl.
  - destruct (q v); simpl; lia.
  - destruct (String.eqb k' k); simpl.
    + destruct (q v), (q v'); simpl; lia.
    + destruct (q v'); simpl; lia.
Qed.

Lemma mapSet_find (k : string) (v : V) (m : JsMap V) :
  find q (values m) = None -> q v = true ->
  find q (values (mapSet k v m)) = Some v.
Proof.
  intros Hn Hv. induction m as [|[k' v'] m IH]; simpl in *.
  - now rewrite Hv.
  - destruct (q v') eqn:E; [discriminate|].
    destruct (String.eqb k' k); simpl.
    + now rewrite Hv.
    + rewrite E. now apply IH.
Qed.

End MapUpdates.

Lemma sameTuple_regrant pt pid rt rid b gb now role e :
  AclEntry.sameTuple pt pid rt rid (AclEntry.regrant b gb now role e)
  = AclEntry.sameTuple pt pid rt rid e.
Proof. reflexivity. Qed.

Lemma sameTuple_modifyBits pt pid rt rid add remove e :
  AclEntry.sameTuple pt pid rt rid (AclEntry.modifyBits add remove e)
  = AclEntry.sameTuple pt pid rt rid e.
Proof. reflexivity. Qed.

(** Two tuples that select the same entry select the same entries. *)
Lemma sameTuple_transfer pt pid rt rid pt' pid' rt' rid' e :
  AclEntry.sameTuple pt pid rt rid e = true ->
  AclEntry.sameTuple pt' pid' rt' rid' e = true ->
  forall x, AclEntry.sameTuple pt' pid' rt' rid' x = AclEntry.sameTuple pt pid rt rid x.
Proof.
  unfold AclEntry.sameTuple. intros H H' x.
  repeat (apply andb_prop in H; destruct H as [H ?]).
  repeat (apply andb_prop in H'; destruct H' as [H' ?]).
  repeat match goal with
         | E : String.eqb _ _ = true |- _ => apply String.eqb_eq in E
         | E : strictEq _ _ = true |- _ => apply strictEq_eq in E
         end.
  congruence.
Qed.

Lemma grantPermission_existing w pt pid rt rid b gb role existing :
  find (AclEntry.sameTuple pt pid rt rid) (values (aclStore w)) = Some existing ->
  AclEntry.grantPermission pt pid rt rid b gb role w
  = (Normal (AclEntry.regrant b gb (clock w (tick w)) role existing),
     setAclStore (updateFirst (AclEntry.sameTuple pt pid rt rid)
                    (AclEntry.regrant b gb (clock w (tick w)) role) (aclStore w))
                 (nextTick w)).
Proof.
  intros H. unfold AclEntry.grantPermission, bind, gets. rewrite H. reflexivity.
Qed.

Lemma grantPermission_new w pt pid rt rid b gb role :
  find (AclEntry.sameTuple pt pid rt rid) (values (aclStore w)) = None ->
  let newEntry :=
    IAclEntry.mk (nanoidResults w (tick w)) pt pid (AclEntry.principalModelOf pt)
                 rt rid b role gb (clock w (S (tick w))) in
  AclEntry.grantPermission pt pid rt rid b gb role w
  = (Normal newEntry,
     setAclStore (mapSet (nanoidResults w (tick w)) newEntry (aclStore w))
                 (nextTick (nextTick w))).
Proof.
  intros H. unfold AclEntry.grantPermission, bind, gets. rewrite H. reflexivity.
Qed.

Lemma sameTuple_self pt pid rt rid model b role gb now id :
  AclEntry.sameTuple pt pid rt rid (IAclEntry.mk id pt pid model rt rid b role gb now)
  = true.
Proof.
  unfold AclEntry.sameTuple. simpl.
  now rewrite !String.eqb_refl, strictEq_refl.
Qed.

(** A grant resolves, and then [find] on its tuple gives the entry it
    returned, which carries the granted bits. *)
Lemma grantPermission_found w pt pid rt rid b gb role :
  exists e w',
    AclEntry.grantPermission pt pid rt rid b gb role w = (Normal e, w')
    /\ find (AclEntry.sameTuple pt pid rt rid) (values (aclStore w')) = Some e
    /\ IAclEntry.permBits e = b.
Proof.
  destruct (find (AclEntry.sameTuple pt pid rt rid) (values (aclStore w)))
    as [existing|] eqn:E.
  - do 2 eexists. split; [apply grantPermission_existing; exact E|].
    split; [|reflexivity]. simpl.
    apply updateFirst_find; [|exact E].
    intros v. apply sameTuple_regrant.
  - do 2 eexists. split; [apply grantPermission_new; exact E|].
    split; [|reflexivity]. simpl.
    apply mapSet_find; [exact E|apply sameTuple_self].
Qed.

(** A grant keeps the store at one entry per tuple. *)
Lemma grantPermission_onePerTuple w pt pid rt rid b gb role :
  Spec.onePerTuple (aclStore w) ->
  Spec.onePerTuple
    (aclStore (after (AclEntry.grantPermission pt pid rt rid b gb role w))).
Proof.
  intros Inv pt' pid' rt' rid'. unfold Spec.entriesOf.
  destruct (find (AclEntry.sameTuple pt pid rt rid) (values (aclStore w)))
    as [existing|] eqn:E.
  - rewrite (grantPermission_existing _ _ _ _ _ _ _ _ _ E). simpl.
    rewrite updateFirst_count; [apply Inv|].
    intros v. apply sameTuple_regrant.
  - rewrite (grantPermission_new _ _ _ _ _ _ _ _ E). simpl.
    set (newEntry := IAclEntry.mk _ _ _ _ _ _ _ _ _ _).
    pose proof (mapSet_count (AclEntry.sameTuple pt' pid' rt' rid')
                  (nanoidResults w (tick w)) newEntry (aclStore w)) as Hc.
    destruct (AclEntry.sameTuple pt' pid' rt' rid' newEntry) eqn:En.
    + assert (Hz : List.filter (AclEntry.sameTuple pt' pid' rt' rid')
                     (values (aclStore w)) = []).
      { rewrite (filter_ext _ _
                   (sameTuple_transfer pt pid rt rid pt' pid' rt' rid' newEntry
                      (sameTuple_self _ _ _ _ _ _ _ _ _ _) En)).
        now apply find_none_filter. }
      rewrite Hz in Hc. simpl in Hc. lia.
    + specialize (Inv pt' pid' rt' rid'). unfold Spec.entriesOf in Inv. lia.
Qed.

Lemma runGrants_onePerTuple calls w :
  Spec.onePerTuple (aclStore w) -> Spec.onePerTuple (aclStore (runGrants calls w)).
Proof.
  revert w. induction calls as [|c calls IH]; intros w Inv; simpl; [exact Inv|].
  apply IH. unfold runGrant. now apply grantPermission_onePerTuple.
Qed.

(** C3.  After any sequence of [grantPermission] calls on the empty
    store, the store holds at most one entry for every (principalType,
    principalId, resourceType, resourceId) tuple; and two further grants
    to one tuple leave exactly one entry for it, whose [permBits] are
    those of the second grant. *)
Theorem grants_keep_one_entry_per_tuple
    (ids : nat -> string) (clk : nat -> Z) (calls : list GrantCall.t) :
  Spec.onePerTuple (aclStore (runGrants calls (initialWorld ids clk)))
  /\ forall pt pid rt rid b1 gb1 role1 b2 gb2 role2,
       let first := GrantCall.mk pt pid rt rid b1 gb1 role1 in
       let second := GrantCall.mk pt pid rt rid b2 gb2 role2 in
       exists e,
         Spec.entriesOf pt pid rt rid
           (aclStore (runGrants (calls ++ [first; second]) (initialWorld ids clk)))
         = [e]
         /\ IAclEntry.permBits e = b2.
Proof.
  assert (Inv0 : Spec.onePerTuple (aclStore (initialWorld ids clk))).
  { intros pt pid rt rid. simpl. lia. }
  split; [now apply runGrants_onePerTuple|].
  intros pt pid rt rid b1 gb1 role1 b2 gb2 role2 first second.
  unfold runGrants. rewrite fold_left_app. simpl.
  fold (runGrants calls (initialWorld ids clk)).
  set (w1 := runGrant (runGrants calls (initialWorld ids clk)) first).
  assert (Inv1 : Spec.onePerTuple (aclStore w1)).
  { unfold w1, runGrant. apply grantPermission_onePerTuple.
    now apply runGrants_onePerTuple. }
  unfold runGrant at 1. simpl.
  destruct (grantPermission_found w1 pt pid rt rid b2 gb2 role2)
    as [e [w2 [Hrun [Hfind Hbits]]]].
  exists e. split; [|exact Hbits].
  pose proof (grantPermission_onePerTuple w1 pt pid rt rid b2 gb2 role2 Inv1) as Inv2.
  rewrite Hrun in *. simpl in *.
  apply find_unique_filter; [exact Hfind|apply Inv2].
Qed.

(** C10.  When [grantPermission] finds an entry for the tuple and the
    new grant carries no [roleId] (undefined, null or the empty string),
    the call resolves with the entry updated in place: its [roleId] is
    the previous one, while [permBits], [grantedBy] and [grantedAt] are
    those of the new grant; no entry is added. *)
Theorem regrant_without_role_keeps_roleId
    (w : World) (pt : string) (pid : prim) (rt rid : string)
    (permBits : Z) (grantedBy : string) (roleId : prim) (existing : IAclEntry.t) :
  find (AclEntry.sameTuple pt pid rt rid) (values (aclStore w)) = Some existing ->
  truthy roleId = false ->
  exists updated w',
    AclEntry.grantPermission pt pid rt rid permBits grantedBy roleId w
    = (Normal updated, w')
    /\ find (AclEntry.sameTuple pt pid rt rid) (values (aclStore w')) = Some updated
    /\ IAclEntry.roleId updated = IAclEntry.roleId existing
    /\ IAclEntry.permBits updated = permBits
    /\ IAclEntry.grantedBy updated = grantedBy
    /\ IAclEntry.grantedAt updated = clock w (tick w)
    /\ List.length (aclStore w') = List.length (aclStore w).
Proof.
  intros Hfind Hrole. do 2 eexists.
  split; [apply grantPermission_existing; exact Hfind|].
  split.
  - simpl. apply updateFirst_find; [|exact Hfind].
    intros v. apply sameTuple_regrant.
  - simpl. rewrite Hrole. repeat split. apply updateFirst_length.
Qed.

Lemma regrant_without_role_keeps_roleId_witness :
  exists updated w',
    AclEntry.grantPermission PrincipalType.USER (PStr "u1") ResourceType.AGENT "a1"
      RoleBits.EDITOR "owner" PUndefined Example.userView
    = (Normal updated, w')
    /\ find (AclEntry.sameTuple PrincipalType.USER (PStr "u1") ResourceType.AGENT "a1")
            (values (aclStore w')) = Some updated
    /\ IAclEntry.roleId updated = PStr "r-viewer"
    /\ IAclEntry.permBits updated = RoleBits.EDITOR
    /\ IAclEntry.grantedBy updated = "owner"
    /\ IAclEntry.grantedAt updated = 1002
    /\ List.length (aclStore w') = 1%nat.
Proof.
  apply (regrant_without_role_keeps_roleId Example.userView PrincipalType.USER
           (PStr "u1") ResourceType.AGENT "a1" RoleBits.EDITOR "owner" PUndefined
           (IAclEntry.mk "id0" PrincipalType.USER (PStr "u1") (Some PrincipalModel.USER)
              ResourceType.AGENT "a1" PermissionBits.VIEW (PStr "r-viewer") "admin" 1001)).
  - reflexivity.
  - reflexivity.
Defined.

Lemma not_given_zero bits : AclEntry.given bits = false -> AclEntry.bitsOf bits = 0.
Proof.
  destruct bits as [z|]; simpl; [|reflexivity].
  intros H. apply negb_false_iff, Z.eqb_eq in H. exact H.
Qed.

Lemma modifyBits_formula add remove e :
  isInt32 (IAclEntry.permBits e) ->
  IAclEntry.permBits (AclEntry.modifyBits add remove e)
  = jsAnd (jsOr (IAclEntry.permBits e) (AclEntry.bitsOf add))
          (jsNot (AclEntry.bitsOf remove)).
Proof.
  intros Hb. unfold AclEntry.modifyBits. simpl.
  destruct (AclEntry.given add) eqn:Ea, (AclEntry.given remove) eqn:Er.
  - reflexivity.
  - rewrite (not_given_zero _ Er), jsAnd_not_zero_r by apply jsOr_range. reflexivity.
  - rewrite (not_given_zero _ Ea), jsOr_zero_r by assumption. reflexivity.
  - rewrite (not_given_zero _ Ea), (not_given_zero _ Er).
    rewrite jsOr_zero_r, jsAnd_not_zero_r by assumption. reflexivity.
Qed.

(** C8.  On a tuple with an entry whose bits b are a 32-bit mask,
    [modifyPermissionBits] resolves with that entry, its bits set to
    [(b | addBits) & ~removeBits] (an absent mask counting as 0) and
    nothing else changed, in place in the store; on a tuple with no
    entry it resolves with null and leaves the stores as they are. *)
Theorem modifyPermissionBits_updates_or_returns_null
    (w : World) (pt : string) (pid : prim) (rt rid : string)
    (addBits removeBits : option Z) :
  (forall entry,
     find (AclEntry.sameTuple pt pid rt rid) (values (aclStore w)) = Some entry ->
     isInt32 (IAclEntry.permBits entry) ->
     exists updated w',
       AclEntry.modifyPermissionBits pt pid rt rid addBits removeBits w
       = (Normal (Some updated), w')
       /\ IAclEntry.permBits updated
          = jsAnd (jsOr (IAclEntry.permBits entry) (AclEntry.bitsOf addBits))
                  (jsNot (AclEntry.bitsOf removeBits))
       /\ find (AclEntry.sameTuple pt pid rt rid) (values (aclStore w')) = Some updated
       /\ IAclEntry._id updated = IAclEntry._id entry
       /\ IAclEntry.roleId updated = IAclEntry.roleId entry
       /\ IAclEntry.grantedBy updated = IAclEntry.grantedBy entry
       /\ IAclEntry.grantedAt updated = IAclEntry.grantedAt entry
       /\ List.length (aclStore w') = List.length (aclStore w))
  /\ (find (AclEntry.sameTuple pt pid rt rid) (values (aclStore w)) = None ->
      AclEntry.modifyPermissionBits pt pid rt rid addBits removeBits w
      = (Normal None, w)).
Proof.
  split.
  - intros entry Hfind Hb.
    exists (AclEntry.modifyBits addBits removeBits entry). eexists.
    split.
    { unfold AclEntry.modifyPermissionBits, bind, gets. rewrite Hfind. reflexivity. }
    split; [now apply modifyBits_formula|].
    split.
    { simpl. apply updateFirst_find; [|exact Hfind].
      intros v. apply sameTuple_modifyBits. }
    repeat split. simpl. apply updateFirst_length.
  - intros Hfind.
    unfold AclEntry.modifyPermissionBits, bind, gets. rewrite Hfind. reflexivity.
Qed.

Lemma modifyPermissionBits_updates_or_returns_null_witness :
  (exists updated w',
     AclEntry.modifyPermissionBits PrincipalType.USER (PStr "u1") ResourceType.AGENT "a1"
       (Some PermissionBits.EDIT) (Some 0) Example.userView
     = (Normal (Some updated), w')
     /\ IAclEntry.permBits updated = jsAnd (jsOr 1 2) (jsNot 0)
     /\ find (AclEntry.sameTuple PrincipalType.USER (PStr "u1") ResourceType.AGENT "a1")
             (values (aclStore w')) = Some updated
     /\ IAclEntry._id updated = "id0"
     /\ IAclEntry.roleId updated = PStr "r-viewer"
     /\ IAclEntry.grantedBy updated = "admin"
     /\ IAclEntry.grantedAt updated = 1001
     /\ List.length (aclStore w') = 1%nat)
  /\ AclEntry.modifyPermissionBits PrincipalType.USER (PStr "u2") ResourceType.AGENT "a1"
       (Some PermissionBits.EDIT) None Example.userView
     = (Normal None, Example.userView).
Proof.
  split.
  - apply (proj1 (modifyPermissionBits_updates_or_returns_null Example.userView
                    PrincipalType.USER (PStr "u1") ResourceType.AGENT "a1"
                    (Some PermissionBits.EDIT) (Some 0))
             (IAclEntry.mk "id0" PrincipalType.USER (PStr "u1")
                (Some PrincipalModel.USER) ResourceType.AGENT "a1"
                PermissionBits.VIEW (PStr "r-viewer") "admin" 1001)).
    + reflexivity.
    + unfold isInt32, PermissionBits.VIEW. simpl. lia.
  - apply (proj2 (modifyPermissionBits_updates_or_returns_null Example.userView
                    PrincipalType.USER (PStr "u2") ResourceType.AGENT "a1"
                    (Some PermissionBits.EDIT) None)).
    reflexivity.
Defined.

(* ================================================================== *)
(** ** Validation errors at the facade *)

Lemma unknown_not_listed T :
  Spec.unknownResourceType T -> existsb (String.eqb T) ResourceType.all = false.
Proof.
  intros H. destruct (existsb (String.eqb T) ResourceType.all) eqn:E; [|reflexivity].
  apply existsb_exists in E. destruct E as [x [Hin Hx]].
  apply String.eqb_eq in Hx. subst. contradiction.
Qed.






Lemma bogus_is_unknown : Spec.unknownResourceType "bogus".
Proof.
  intros H. simpl in H.
  repeat (destruct H as [H|H]; [discriminate H|]). exact H.
Qed.



(* ================================================================== *)
(** ** Publicly accessible resources *)

(** What the facade computes for a known resource type and a positive
    mask: the PUBLIC entries of the type whose [permBits] are equal to
    the mask. *)
Lemma findPubliclyAccessibleResources_run T b w :
  1 <= b -> existsb (String.eqb T) ResourceType.all = true ->
  PermissionService.findPubliclyAccessibleResources T (PNum b) w
  = (Normal (uniq (map IAclEntry.resourceId
               (List.filter (fun e => Spec.isPublic e
                                      && String.eqb (IAclEntry.resourceType e) T
                                      && Z.eqb (IAclEntry.permBits e) b)
                            (values (aclStore w))))), w).
Proof.
  intros Hb HT.
  unfold PermissionService.findPubliclyAccessibleResources, tryCatch, bind.
  replace (b <? 1) with false by (symmetry; apply Z.ltb_ge; lia).
  unfold ret at 1. rewrite validateResourceType_known by assumption.
  unfold Models.aclEntry.find, AclEntry.findAclEntries, gets, ret.
  f_equal. f_equal. f_equal. f_equal.
  apply filter_ext. intros e.
  unfold AclEntry.matchesFilter, Spec.isPublic. simpl.
  now rewrite andb_true_r, andb_assoc.
Qed.

(** C2, at the failing input.  Agent a1 carries a PUBLIC entry with
    permBits 3 (role AGENT_EDITOR), which holds all the bits of the mask
    1: [hasPublicPermission] says so, and a1 is the one resource id
    that carries a PUBLIC entry holding all the bits of 1;
    [findPubliclyAccessibleResources] for the mask 1 resolves with the
    empty list, and finds a1 only for the mask 3. *)
Theorem findPubliclyAccessibleResources_misses_superset_bits :
  let w := Example.publicEditor in
  map IAclEntry.permBits (values (aclStore w)) = [3]
  /\ Spec.publiclyAccessible ResourceType.AGENT 1 (aclStore w) = ["a1"]
  /\ PermissionService.hasPublicPermission ResourceType.AGENT "a1" (PNum 1) w
     = (Normal true, w)
  /\ PermissionService.findPubliclyAccessibleResources ResourceType.AGENT (PNum 1) w
     = (Normal [], w)
  /\ PermissionService.findPubliclyAccessibleResources ResourceType.AGENT (PNum 3) w
     = (Normal ["a1"], w).
Proof. repeat split; reflexivity. Qed.

(* ================================================================== *)
(** ** Bulk updates *)

(** The model object [accessRole.find] is [findRolesByResourceType],
    which compares each role's resourceType with its argument; the
    facade passes the filter object [{ resourceType }], to which no
    string is equal. *)
Lemma accessRole_find_filter_object_empty (fields : list (string * prim)) (w : World) :
  Models.accessRole.find (JObject fields) w = (Normal [], w).
Proof.
  unfold Models.accessRole.find, AccessRole.findRolesByResourceType, gets.
  rewrite filter_none; [reflexivity|]. intros r. reflexivity.
Qed.

(** C9, at the failing input.  With the default roles seeded, a bulk
    update of three principals, of which the first and the third name the
    existing roles AGENT_VIEWER and AGENT_OWNER and the second an unknown
    role, does not throw; it grants none of them, reports three errors
    and leaves the entry store empty. *)
Theorem bulkUpdate_reports_every_principal_as_error :
  let w := Example.seeded in
  exists results,
    PermissionService.bulkUpdateResourcePermissions ResourceType.AGENT "r1"
      Example.threePrincipals [] "admin" w = (Normal results, w)
    /\ (exists viewer owner,
          mapGet AccessRoleIds.AGENT_VIEWER (accessRoleStore w) = Some viewer
          /\ mapGet AccessRoleIds.AGENT_OWNER (accessRoleStore w) = Some owner)
    /\ BulkResults.granted results = []
    /\ map snd (BulkResults.errors results)
       = ["Role agent_viewer not found"; "Role non_existent_role not found";
          "Role agent_owner not found"]
    /\ aclStore w = [].
Proof.
  eexists. split; [reflexivity|].
  split; [do 2 eexists; split; reflexivity|].
  repeat split; reflexivity.
Qed.

Lemma forOf_invariant {A S} (I : S -> Prop) (xs : list A)
    (body : S -> A -> Async S) (s : S) (w : World) :
  I s ->
  (forall s w x, I s -> exists s' w', body s x w = (Normal s', w') /\ I s') ->
  exists s' w', forOf xs body s w = (Normal s', w') /\ I s'.
Proof.
  intros Hs Hbody. revert s w Hs.
  induction xs as [|x xs IH]; intros s w Hs; simpl.
  - do 2 eexists. split; [reflexivity|exact Hs].
  - destruct (Hbody s w x Hs) as [s1 [w1 [E1 H1]]].
    unfold bind. rewrite E1. now apply IH.
Qed.

(** Whatever the stores and the principals, a bulk update with a
    resource id resolves, and its [granted] list is empty. *)
Lemma bulkUpdate_never_throws_never_grants T R updatedPrincipals revokedPrincipals gb w :
  R <> "" ->
  exists results w',
    PermissionService.bulkUpdateResourcePermissions
      T R updatedPrincipals revokedPrincipals gb w = (Normal results, w')
    /\ BulkResults.granted results = [].
Proof.
  intros HR. apply String.eqb_neq in HR.
  unfold PermissionService.bulkUpdateResourcePermissions, tryCatch.
  unfold bind at 1. rewrite HR. unfold ret at 1.
  unfold bind at 1. rewrite accessRole_find_filter_object_empty.
  cbn [fold_left].
  set (I := fun results : BulkResults.t => BulkResults.granted results = []).
  unfold bind at 1.
  match goal with
  | |- context [forOf updatedPrincipals ?body ?s w] =>
      destruct (forOf_invariant I updatedPrincipals body s w) as [s1 [w1 [E1 H1]]]
  end.
  { reflexivity. }
  { intros s w0 x Hs. unfold tryCatch.
    destruct (negb (truthy (TPrincipal.accessRoleId x))).
    - do 2 eexists. split; [reflexivity|exact Hs].
    - replace (PermissionService.rolesMapGet (TPrincipal.accessRoleId x) [])
        with (@None IAccessRole.t) by (now destruct (TPrincipal.accessRoleId x)).
      do 2 eexists. split; [reflexivity|exact Hs]. }
  rewrite E1. unfold bind at 1.
  match goal with
  | |- context [forOf revokedPrincipals ?body ?s w1] =>
      destruct (forOf_invariant I revokedPrincipals body s w1) as [s2 [w2 [E2 H2]]]
  end.
  { exact H1. }
  { intros s w0 x Hs. unfold tryCatch, bind.
    unfold Models.aclEntry.findOneAndDelete, AclEntry.findOneAndDeleteAclEntry, bind.
    unfold AclEntry.findOneAclEntry, bind, AclEntry.findAclEntries, gets, ret.
    destruct (hd_error _); do 2 eexists; (split; [reflexivity|exact Hs]). }
  rewrite E2. do 2 eexists. split; [reflexivity|exact H2].
Qed.

(* ================================================================== *)
(** ** The entry store under revocation *)

Section MapKeys.

Context {V : Type}.

Lemma keys_mapSet (k : string) (v : V) (m : JsMap V) :
  Store.keys (mapSet k v m)
  = if existsb (String.eqb k) (Store.keys m) then Store.keys m else Store.keys m ++ [k].
Proof.
  induction m as [|[k' v'] m IH]; simpl; [reflexivity|].
  rewrite (String.eqb_sym k k').
  destruct (String.eqb k' k) eqn:E; simpl.
  - apply String.eqb_eq in E. now subst.
  - rewrite IH. now destruct (existsb (String.eqb k) (Store.keys m)).
Qed.

Lemma NoDup_mapSet (k : string) (v : V) (m : JsMap V) :
  NoDup (Store.keys m) -> NoDup (Store.keys (mapSet k v m)).
Proof.
  intros H. rewrite keys_mapSet.
  destruct (existsb (String.eqb k) (Store.keys m)) eqn:E; [exact H|].
  apply NoDup_app; [exact H|repeat constructor; intros []|].
  intros x Hx [<-|[]].
  assert (existsb (String.eqb k) (Store.keys m) = true); [|congruence].
  apply existsb_exists. exists k. split; [exact Hx|apply String.eqb_refl].
Qed.

Lemma keys_updateFirst (p : V -> bool) (f : V -> V) (m : JsMap V) :
  Store.keys (updateFirst p f m) = Store.keys m.
Proof.
  induction m as [|[k v] m IH]; simpl; [reflexivity|].
  destruct (p v); simpl; [reflexivity|now rewrite IH].
Qed.

Lemma In_mapDelete (k : string) (m : JsMap V) (kv : string * V) :
  In kv (mapDelete k m) -> In kv m.
Proof.
  induction m as [|[k' v'] m IH]; simpl; [tauto|].
  destruct (String.eqb k' k); simpl; tauto.
Qed.

Lemma NoDup_mapDelete (k : string) (m : JsMap V) :
  NoDup (Store.keys m) -> NoDup (Store.keys (mapDelete k m)).
Proof.
  induction m as [|[k' v'] m IH]; simpl; [trivial|].
  intros H. inversion H as [|? ? Hn Hd]; subst.
  destruct (String.eqb k' k); simpl; [exact Hd|].
  constructor; [|now apply IH].
  intros Hin. apply Hn. unfold Store.keys in *.
  apply in_map_iff in Hin. destruct Hin as [[k2 v2] [E Hin]].
  apply In_mapDelete in Hin. apply in_map_iff. now exists (k2, v2).
Qed.

Lemma mapGet_mapSet_same (k : string) (v : V) (m : JsMap V) :
  mapGet k (mapSet k v m) = Some v.
Proof.
  induction m as [|[k' v'] m IH]; simpl.
  - now rewrite String.eqb_refl.
  - destruct (String.eqb k' k) eqn:E; simpl.
    + now rewrite String.eqb_refl.
    + now rewrite E.
Qed.

Lemma mapGet_mapSet_other (k k2 : string) (v : V) (m : JsMap V) :
  k2 <> k -> mapGet k2 (mapSet k v m) = mapGet k2 m.
Proof.
  intros Hne. induction m as [|[k' v'] m IH]; simpl.
  - apply String.eqb_neq in Hne. rewrite String.eqb_sym in Hne. now rewrite Hne.
  - destruct (String.eqb k' k) eqn:E; simpl.
    + apply String.eqb_eq in E. subst k'.
      apply String.eqb_neq in Hne. rewrite String.eqb_sym in Hne. now rewrite Hne.
    + now rewrite IH.
Qed.

Lemma mapGet_mapDelete_same (k : string) (m : JsMap V) :
  NoDup (Store.keys m) -> mapGet k (mapDelete k m) = None.
Proof.
  induction m as [|[k' v'] m IH]; simpl; [reflexivity|].
  intros H. inversion H as [|? ? Hn Hd]; subst.
  destruct (String.eqb k' k) eqn:E; simpl.
  - apply String.eqb_eq in E. subst k'.
    destruct (mapGet k m) eqn:G; [|reflexivity].
    exfalso. apply Hn. clear -G.
    induction m as [|[k2 v2] m IH]; simpl in *; [discriminate|].
    destruct (String.eqb k2 k) eqn:E.
    + left. now apply String.eqb_eq.
    + right. auto.
  - rewrite E. now apply IH.
Qed.

Lemma mapGet_mapDelete_other (k k2 : string) (m : JsMap V) :
  k2 <> k -> mapGet k2 (mapDelete k m) = mapGet k2 m.
Proof.
  intros Hne. induction m as [|[k' v'] m IH]; simpl; [reflexivity|].
  destruct (String.eqb k' k) eqn:E; simpl.
  - apply String.eqb_eq in E. subst k'.
    apply String.eqb_neq in Hne. rewrite String.eqb_sym in Hne. now rewrite Hne.
  - now rewrite IH.
Qed.

End MapKeys.

Lemma wellKeyed_In store e :
  Store.wellKeyed store -> In e (values store) -> In (IAclEntry._id e, e) store.
Proof.
  intros [_ Hk] Hin. unfold values in Hin. apply in_map_iff in Hin.
  destruct Hin as [[k v] [E Hin]]. simpl in E. subst v.
  rewrite Forall_forall in Hk. specialize (Hk _ Hin). simpl in Hk. now subst k.
Qed.

Lemma NoDup_keys_functional {V} (m : JsMap V) k (a b : V) :
  NoDup (Store.keys m) -> In (k, a) m -> In (k, b) m -> a = b.
Proof.
  induction m as [|[k' v'] m IH]; simpl; [tauto|].
  intros H Ha Hb. inversion H as [|? ? Hn Hd]; subst.
  assert (Hkey : forall x, In (k', x) m -> False).
  { intros x Hx. apply Hn. unfold Store.keys. apply in_map_iff. now exists (k', x). }
  destruct Ha as [Ea|Ha], Hb as [Eb|Hb].
  - congruence.
  - inversion Ea; subst. exfalso. eauto.
  - inversion Eb; subst. exfalso. eauto.
  - now apply IH.
Qed.

(** In a well-keyed store two entries with one [_id] are one entry. *)
Lemma wellKeyed_ids_inj store x y :
  Store.wellKeyed store -> In x (values store) -> In y (values store) ->
  IAclEntry._id x = IAclEntry._id y -> x = y.
Proof.
  intros Hw Hx Hy E.
  pose proof (wellKeyed_In _ _ Hw Hx) as Px.
  pose proof (wellKeyed_In _ _ Hw Hy) as Py.
  rewrite E in Px. destruct Hw as [Hn _].
  exact (NoDup_keys_functional _ _ _ _ Hn Px Py).
Qed.

Lemma wellKeyed_tail kv store :
  Store.wellKeyed (kv :: store) -> Store.wellKeyed store.
Proof.
  intros [Hn Hk]. inversion Hn; inversion Hk; subst. now split.
Qed.

Lemma wellKeyed_mapDelete k store :
  Store.wellKeyed store -> Store.wellKeyed (mapDelete k store).
Proof.
  intros [Hn Hk]. split; [now apply NoDup_mapDelete|].
  rewrite Forall_forall in *. intros kv Hin. apply Hk.
  now apply In_mapDelete in Hin.
Qed.

Lemma values_mapDelete k store :
  Store.wellKeyed store ->
  values (mapDelete k store)
  = List.filter (fun e => negb (String.eqb (IAclEntry._id e) k)) (values store).
Proof.
  induction store as [|[k' v'] store IH]; simpl; [reflexivity|].
  intros Hw. pose proof (wellKeyed_tail _ _ Hw) as Hw'.
  destruct Hw as [Hn Hk]. inversion Hn as [|? ? Hnot _]; subst.
  inversion Hk as [|? ? Hhead _]; subst. simpl in Hhead. subst k'.
  destruct (String.eqb (IAclEntry._id v') k) eqn:E; simpl.
  - apply String.eqb_eq in E. subst k.
    symmetry. apply forallb_filter_id. apply forallb_forall. intros e He.
    apply negb_true_iff, String.eqb_neq. intros Eid. apply Hnot.
    pose proof (wellKeyed_In _ _ Hw' He) as P. rewrite Eid in P.
    unfold Store.keys. apply in_map_iff. now exists (IAclEntry._id v', e).
  - now rewrite IH.
Qed.

Lemma filter_filter {A} (f g : A -> bool) (l : list A) :
  List.filter f (List.filter g l) = List.filter (fun x => g x && f x) l.
Proof.
  induction l as [|x l IH]; simpl; [reflexivity|].
  destruct (g x); simpl; [destruct (f x)|]; now rewrite IH.
Qed.

Lemma deleteAll_values es store :
  Store.wellKeyed store ->
  let store' := fold_left (fun s e => mapDelete (IAclEntry._id e) s) es store in
  Store.wellKeyed store'
  /\ values store'
     = List.filter
         (fun e => negb (existsb (fun x => String.eqb (IAclEntry._id e) (IAclEntry._id x)) es))
         (values store).
Proof.
  revert store. induction es as [|x es IH]; intros store Hw; simpl.
  - split; [exact Hw|]. symmetry. apply forallb_filter_id.
    apply forallb_forall. reflexivity.
  - destruct (IH (mapDelete (IAclEntry._id x) store) (wellKeyed_mapDelete _ _ Hw))
      as [Hw' Hv].
    split; [exact Hw'|]. rewrite Hv, values_mapDelete by assumption.
    rewrite filter_filter. apply filter_ext. intros e.
    now rewrite negb_orb.
Qed.

(** What [deleteManyAclEntries] does to a well-keyed store. *)
Lemma deleteMany_run filter w :
  Store.wellKeyed (aclStore w) ->
  exists store',
    AclEntry.deleteManyAclEntries filter w
    = (Normal (Z.of_nat (List.length
                 (List.filter (AclEntry.matchesFilter filter) (values (aclStore w))))),
       setAclStore store' w)
    /\ Store.wellKeyed store'
    /\ values store'
       = List.filter (fun e => negb (AclEntry.matchesFilter filter e))
                     (values (aclStore w)).
Proof.
  intros Hw. eexists. split; [reflexivity|].
  destruct (deleteAll_values
              (List.filter (AclEntry.matchesFilter filter) (values (aclStore w)))
              (aclStore w) Hw) as [Hw' Hv].
  split; [exact Hw'|]. simpl in Hv. rewrite Hv.
  apply filter_ext_in. intros e He. f_equal.
  destruct (AclEntry.matchesFilter filter e) eqn:E.
  - apply existsb_exists. exists e. split; [|apply String.eqb_refl].
    apply filter_In. now split.
  - destruct (existsb _ _) eqn:X; [|reflexivity].
    apply existsb_exists in X. destruct X as [x [Hx Ex]].
    apply filter_In in Hx. destruct Hx as [Hx Mx].
    apply String.eqb_eq in Ex.
    rewrite (wellKeyed_ids_inj _ _ _ Hw He Hx Ex) in E. congruence.
Qed.

Lemma tupleFilter_sameTuple pt pid rt rid e :
  AclEntry.matchesFilter
    [("principalType", PStr pt); ("principalId", pid);
     ("resourceType", PStr rt); ("resourceId", PStr rid)] e
  = AclEntry.sameTuple pt pid rt rid e.
Proof.
  unfold AclEntry.matchesFilter, AclEntry.sameTuple. simpl.
  now rewrite andb_true_r, !andb_assoc.
Qed.

Lemma setAclStore_same w : setAclStore (aclStore w) w = w.
Proof. now destruct w. Qed.

(** X2.  Revoking a grant that does not exist resolves with
    [deletedCount] 0 and changes nothing, in any store. *)
Theorem revokePermission_absent_is_noop
    (w : World) (pt : string) (pid : prim) (rt rid : string) :
  find (AclEntry.sameTuple pt pid rt rid) (values (aclStore w)) = None ->
  AclEntry.revokePermission pt pid rt rid w = (Normal 0, w).
Proof.
  intros H. apply find_none_filter in H.
  unfold AclEntry.revokePermission, AclEntry.deleteManyAclEntries,
    AclEntry.findAclEntries, bind, gets, modify, ret.
  rewrite (filter_ext _ _ (tupleFilter_sameTuple pt pid rt rid)), H. simpl.
  now rewrite setAclStore_same.
Qed.

Lemma revokePermission_absent_is_noop_witness :
  AclEntry.revokePermission PrincipalType.USER (PStr "u2") ResourceType.AGENT "a1"
    Example.userView = (Normal 0, Example.userView).
Proof.
  apply (revokePermission_absent_is_noop Example.userView PrincipalType.USER
           (PStr "u2") ResourceType.AGENT "a1").
  reflexivity.
Defined.

(** X1.  On a well-keyed store, [revokePermission] resolves with the
    number of entries the tuple had, removes exactly those entries and
    keeps every other entry, in order; only the entry store changes. *)
Theorem revokePermission_removes_exactly_the_tuple
    (w : World) (pt : string) (pid : prim) (rt rid : string) :
  Store.wellKeyed (aclStore w) ->
  exists store',
    AclEntry.revokePermission pt pid rt rid w
    = (Normal (Z.of_nat (List.length (Spec.entriesOf pt pid rt rid (aclStore w)))),
       setAclStore store' w)
    /\ Store.wellKeyed store'
    /\ values store'
       = List.filter (fun e => negb (AclEntry.sameTuple pt pid rt rid e))
                     (values (aclStore w))
    /\ Spec.entriesOf pt pid rt rid store' = [].
Proof.
  intros Hw. unfold AclEntry.revokePermission.
  destruct (deleteMany_run
              [("principalType", PStr pt); ("principalId", pid);
               ("resourceType", PStr rt); ("resourceId", PStr rid)] w Hw)
    as [store' [Hrun [Hw' Hv]]].
  exists store'.
  rewrite (filter_ext _ _ (tupleFilter_sameTuple pt pid rt rid)) in Hrun.
  rewrite (filter_ext _ _ (fun e => f_equal negb (tupleFilter_sameTuple pt pid rt rid e)))
    in Hv.
  split; [exact Hrun|]. split; [exact Hw'|]. split; [exact Hv|].
  unfold Spec.entriesOf. rewrite Hv, filter_filter.
  apply filter_none. intros e. now destruct (AclEntry.sameTuple pt pid rt rid e).
Qed.

Lemma userView_wellKeyed : Store.wellKeyed (aclStore Example.userView).
Proof.
  split; simpl.
  - repeat constructor. intros [].
  - repeat constructor.
Qed.

Lemma revokePermission_removes_exactly_the_tuple_witness :
  exists store',
    AclEntry.revokePermission PrincipalType.USER (PStr "u1") ResourceType.AGENT "a1"
      Example.userView
    = (Normal (Z.of_nat (List.length
         (Spec.entriesOf PrincipalType.USER (PStr "u1") ResourceType.AGENT "a1"
                         (aclStore Example.userView)))),
       setAclStore store' Example.userView)
    /\ Store.wellKeyed store'
    /\ values store'
       = List.filter
           (fun e => negb (AclEntry.sameTuple PrincipalType.USER (PStr "u1")
                             ResourceType.AGENT "a1" e))
           (values (aclStore Example.userView))
    /\ Spec.entriesOf PrincipalType.USER (PStr "u1") ResourceType.AGENT "a1" store' = [].
Proof.
  apply (revokePermission_removes_exactly_the_tuple Example.userView).
  exact userView_wellKeyed.
Defined.

(* ------------------------------------------------------------------ *)
(** *** What every sequence of operations keeps *)

Lemma Forall_mapSet {V} (P : string * V -> Prop) k v (m : JsMap V) :
  Forall P m -> P (k, v) -> Forall P (mapSet k v m).
Proof.
  intros Hm Hkv. induction m as [|[k' v'] m IH]; simpl.
  - now constructor.
  - inversion Hm; subst. destruct (String.eqb k' k); constructor; auto.
Qed.

Lemma Forall_updateFirst (p : IAclEntry.t -> bool) (f : IAclEntry.t -> IAclEntry.t)
    (m : JsMap IAclEntry.t) :
  (forall e, IAclEntry._id (f e) = IAclEntry._id e) ->
  Forall (fun kv => fst kv = IAclEntry._id (snd kv)) m ->
  Forall (fun kv => fst kv = IAclEntry._id (snd kv)) (updateFirst p f m).
Proof.
  intros Hf Hm. induction m as [|[k v] m IH]; simpl; [constructor|].
  inversion Hm; subst. destruct (p v); constructor; simpl in *; auto.
  now rewrite Hf.
Qed.

Lemma wellKeyed_updateFirst p f store :
  (forall e, IAclEntry._id (f e) = IAclEntry._id e) ->
  Store.wellKeyed store -> Store.wellKeyed (updateFirst p f store).
Proof.
  intros Hf [Hn Hk]. split.
  - now rewrite keys_updateFirst.
  - now apply Forall_updateFirst.
Qed.

Lemma grantPermission_wellKeyed w pt pid rt rid b gb role :
  Store.wellKeyed (aclStore w) ->
  Store.wellKeyed (aclStore (after (AclEntry.grantPermission pt pid rt rid b gb role w))).
Proof.
  intros Hw.
  destruct (find (AclEntry.sameTuple pt pid rt rid) (values (aclStore w)))
    as [existing|] eqn:E.
  - rewrite (grantPermission_existing _ _ _ _ _ _ _ _ _ E). simpl.
    apply wellKeyed_updateFirst; [reflexivity|exact Hw].
  - rewrite (grantPermission_new _ _ _ _ _ _ _ _ E). simpl.
    destruct Hw as [Hn Hk]. split.
    + now apply NoDup_mapSet.
    + now apply Forall_mapSet.
Qed.

Lemma filtered_onePerTuple store store' (keep : IAclEntry.t -> bool) :
  values store' = List.filter keep (values store) ->
  Spec.onePerTuple store -> Spec.onePerTuple store'.
Proof.
  intros Hv Inv pt pid rt rid. specialize (Inv pt pid rt rid).
  unfold Spec.entriesOf in *. rewrite Hv, filter_filter.
  rewrite (filter_ext _ (fun x => AclEntry.sameTuple pt pid rt rid x && keep x))
    by (intros; apply andb_comm).
  rewrite <- filter_filter.
  pose proof (filter_length_le keep
                (List.filter (AclEntry.sameTuple pt pid rt rid) (values store))).
  lia.
Qed.

Lemma deleteMany_invariant filter w :
  Store.invariant (aclStore w) ->
  Store.invariant (aclStore (after (AclEntry.deleteManyAclEntries filter w))).
Proof.
  intros [Hw Inv].
  destruct (deleteMany_run filter w Hw) as [store' [Hrun [Hw' Hv]]].
  rewrite Hrun. simpl. split; [exact Hw'|].
  exact (filtered_onePerTuple _ _ _ Hv Inv).
Qed.

Lemma modifyPermissionBits_invariant w pt pid rt rid add remove :
  Store.invariant (aclStore w) ->
  Store.invariant
    (aclStore (after (AclEntry.modifyPermissionBits pt pid rt rid add remove w))).
Proof.
  intros [Hw Inv]. unfold AclEntry.modifyPermissionBits, bind, gets.
  destruct (find (AclEntry.sameTuple pt pid rt rid) (values (aclStore w)));
    simpl; [|now split].
  split.
  - apply wellKeyed_updateFirst; [reflexivity|exact Hw].
  - intros pt' pid' rt' rid'. unfold Spec.entriesOf.
    rewrite updateFirst_count; [apply Inv|].
    intros v. apply sameTuple_modifyBits.
Qed.

Lemma removeAllPermissions_run rt rid w :
  PermissionService.removeAllPermissions rt rid w
  = if existsb (String.eqb rt) ResourceType.all
    then if String.eqb rid ""
         then (Throw ("Invalid resource ID: " +++ rid), w)
         else AclEntry.deleteManyAclEntries
                [("resourceType", PStr rt); ("resourceId", PStr rid)] w
    else (Throw (PermissionService.invalidResourceTypeMessage rt), w).
Proof.
  unfold PermissionService.removeAllPermissions, tryCatch, bind.
  destruct (existsb (String.eqb rt) ResourceType.all) eqn:ET.
  - rewrite validateResourceType_known by assumption.
    destruct (String.eqb rid ""); [reflexivity|].
    unfold ret at 1. unfold Models.aclEntry.deleteMany.
    now destruct (AclEntry.deleteManyAclEntries _ w) as [[z|msg] w'].
  - rewrite validateResourceType_unknown by assumption. reflexivity.
Qed.

Lemma runOp_invariant w op :
  Store.invariant (aclStore w) -> Store.invariant (aclStore (runOp w op)).
Proof.
  intros H. destruct op as [c|pt pid rt rid|pt pid rt rid add remove|rt rid]; simpl.
  - destruct H. split.
    + now apply grantPermission_wellKeyed.
    + now apply grantPermission_onePerTuple.
  - now apply deleteMany_invariant.
  - now apply modifyPermissionBits_invariant.
  - rewrite removeAllPermissions_run.
    destruct (existsb (String.eqb rt) ResourceType.all); [|exact H].
    destruct (String.eqb rid ""); [exact H|].
    now apply deleteMany_invariant.
Qed.

Lemma runOps_invariant ops w :
  Store.invariant (aclStore w) -> Store.invariant (aclStore (runOps ops w)).
Proof.
  revert w. induction ops as [|op ops IH]; intros w H; simpl; [exact H|].
  apply IH. now apply runOp_invariant.
Qed.

Lemma initial_invariant ids clk : Store.invariant (aclStore (initialWorld ids clk)).
Proof.
  split.
  - split; simpl; constructor.
  - intros pt pid rt rid. simpl. lia.
Qed.

(** X3.  Whatever sequence of grants, revocations, bit modifications
    and resource clean-ups runs on the empty store, and whatever ids
    [nanoid] returns, every entry sits under its own [_id], no key occurs
    twice, and no tuple has two entries. *)
Theorem store_operations_keep_the_store_well_formed
    (ids : nat -> string) (clk : nat -> Z) (ops : list StoreOp) :
  let store := aclStore (runOps ops (initialWorld ids clk)) in
  Store.wellKeyed store /\ Spec.onePerTuple store.
Proof. apply runOps_invariant, initial_invariant. Qed.

(* ------------------------------------------------------------------ *)
(** *** Grants seen through the queries *)

Lemma singleton_matches pt pid rt rid e :
  pt <> PrincipalType.PUBLIC ->
  Spec.matchesListedPublic [Store.principalOf pt pid] rt rid e
  = AclEntry.sameTuple pt pid rt rid e.
Proof.
  intros Hpt. apply String.eqb_neq in Hpt.
  unfold Spec.matchesListedPublic, Spec.forResource, Spec.principalIn, Spec.hasPublic,
    AclEntry.sameTuple, Store.principalOf.
  cbn [existsb Principal.principalType Principal.principalId]. rewrite Hpt.
  destruct (String.eqb (IAclEntry.principalType e) pt),
           (strictEq (IAclEntry.principalId e) pid),
           (String.eqb (IAclEntry.resourceType e) rt),
           (String.eqb (IAclEntry.resourceId e) rid),
           (Spec.isPublic e); reflexivity.
Qed.

(** X5.  In a store with one entry per tuple, once [grantPermission]
    has run for a tuple of a non-PUBLIC principal, the queries made for
    that principal alone see the new bits and nothing of an earlier
    grant: [hasPermission] is the test of the mask against the granted
    bits, and [getEffectivePermissions] is the granted bits (as a 32-bit
    integer). *)
Theorem last_grant_decides_the_queries
    (w : World) (pt : string) (pid : prim) (rt rid : string)
    (b : Z) (gb : string) (role : prim) (mask : Z) :
  Spec.onePerTuple (aclStore w) ->
  pt <> PrincipalType.PUBLIC ->
  let w' := after (AclEntry.grantPermission pt pid rt rid b gb role w) in
  AclEntry.hasPermission [Store.principalOf pt pid] rt rid mask w'
  = (Normal (Z.eqb (jsAnd b mask) mask), w')
  /\ AclEntry.getEffectivePermissions [Store.principalOf pt pid] rt rid w'
     = (Normal (toInt32 b), w').
Proof.
  intros Inv Hpt w'.
  destruct (grantPermission_found w pt pid rt rid b gb role)
    as [e [w2 [Hrun [Hfind Hbits]]]].
  pose proof (grantPermission_onePerTuple w pt pid rt rid b gb role Inv) as Inv'.
  unfold w'. rewrite Hrun in *. simpl in *.
  assert (E : List.filter (Spec.matchesListedPublic [Store.principalOf pt pid] rt rid)
                (values (aclStore w2)) = [e]).
  { rewrite (filter_ext _ _ (fun e => singleton_matches pt pid rt rid e Hpt)).
    apply find_unique_filter; [exact Hfind|apply Inv']. }
  rewrite hasPermission_run, getEffectivePermissions_run, E.
  unfold Spec.holdsAll, Spec.orAll. simpl. rewrite Hbits, orb_false_r.
  split; [reflexivity|].
  unfold jsOr. replace (toInt32 0) with 0 by reflexivity.
  rewrite Z.lor_0_l. now rewrite toInt32_idem.
Qed.

Lemma mapSet_fresh {V} k (v : V) (m : JsMap V) :
  ~ In k (Store.keys m) -> mapSet k v m = m ++ [(k, v)].
Proof.
  induction m as [|[k' v'] m IH]; simpl; [reflexivity|].
  intros H. destruct (String.eqb k' k) eqn:E.
  - apply String.eqb_eq in E. tauto.
  - rewrite IH; tauto.
Qed.

Lemma mapDelete_fresh_last {V} k (v : V) (m : JsMap V) :
  ~ In k (Store.keys m) -> mapDelete k (m ++ [(k, v)]) = m.
Proof.
  induction m as [|[k' v'] m IH]; simpl.
  - now rewrite String.eqb_refl.
  - intros H. destruct (String.eqb k' k) eqn:E.
    + apply String.eqb_eq in E. tauto.
    + rewrite IH; tauto.
Qed.

(** X4.  When the tuple has no entry and [nanoid] returns an id that is
    not yet a key of the store, a grant followed by the revocation of the
    same tuple resolves with [deletedCount] 1 and gives back the entry
    store as it was before the grant; the other stores are untouched. *)
Theorem grant_then_revoke_restores_the_store
    (w : World) (pt : string) (pid : prim) (rt rid : string)
    (b : Z) (gb : string) (role : prim) :
  find (AclEntry.sameTuple pt pid rt rid) (values (aclStore w)) = None ->
  ~ In (nanoidResults w (tick w)) (Store.keys (aclStore w)) ->
  exists w2,
    AclEntry.revokePermission pt pid rt rid
      (after (AclEntry.grantPermission pt pid rt rid b gb role w))
    = (Normal 1, w2)
    /\ aclStore w2 = aclStore w
    /\ accessRoleStore w2 = accessRoleStore w
    /\ groupStore w2 = groupStore w.
Proof.
  intros Hnone Hfresh.
  rewrite (grantPermission_new _ _ _ _ _ _ _ _ Hnone). simpl.
  rewrite (mapSet_fresh _ _ _ Hfresh).
  set (newEntry := IAclEntry.mk _ _ _ _ _ _ _ _ _ _).
  eexists. split.
  - unfold AclEntry.revokePermission, AclEntry.deleteManyAclEntries,
      AclEntry.findAclEntries, bind, gets, modify, ret.
    cbn [aclStore setAclStore].
    rewrite (filter_ext _ _ (tupleFilter_sameTuple pt pid rt rid)).
    unfold values. rewrite map_app, filter_app.
    fold (values (aclStore w)). rewrite (find_none_filter _ _ Hnone).
    cbn [map snd List.filter app].
    replace (AclEntry.sameTuple pt pid rt rid newEntry) with true
      by (symmetry; apply sameTuple_self).
    cbn [fold_left List.length IAclEntry._id newEntry].
    rewrite (mapDelete_fresh_last _ _ _ Hfresh). reflexivity.
  - repeat split.
Qed.

Lemma grant_then_revoke_restores_the_store_witness :
  exists w2,
    AclEntry.revokePermission PrincipalType.GROUP (PStr "g1") ResourceType.AGENT "a1"
      (after (AclEntry.grantPermission PrincipalType.GROUP (PStr "g1")
                ResourceType.AGENT "a1" 3 "admin" PUndefined Example.userView))
    = (Normal 1, w2)
    /\ aclStore w2 = aclStore Example.userView
    /\ accessRoleStore w2 = accessRoleStore Example.userView
    /\ groupStore w2 = groupStore Example.userView.
Proof.
  apply (grant_then_revoke_restores_the_store Example.userView).
  - reflexivity.
  - simpl. intros [H|[]]. discriminate H.
Defined.



Lemma userView_invariant : Store.invariant (aclStore Example.userView).
Proof.
  exact (runOps_invariant
           [OpGrant (GrantCall.mk PrincipalType.USER (PStr "u1") ResourceType.AGENT "a1"
                       PermissionBits.VIEW "admin" (PStr "r-viewer"))]
           Example.start (initial_invariant _ _)).
Qed.

Lemma last_grant_decides_the_queries_witness :
  let w' := after (AclEntry.grantPermission PrincipalType.USER (PStr "u1")
                     ResourceType.AGENT "a1" 1 "admin" PUndefined
                     (after (AclEntry.grantPermission PrincipalType.USER (PStr "u1")
                               ResourceType.AGENT "a1" 15 "admin" PUndefined
                               Example.userView))) in
  AclEntry.hasPermission [Store.principalOf PrincipalType.USER (PStr "u1")]
    ResourceType.AGENT "a1" 2 w' = (Normal (Z.eqb (jsAnd 1 2) 2), w')
  /\ AclEntry.getEffectivePermissions [Store.principalOf PrincipalType.USER (PStr "u1")]
       ResourceType.AGENT "a1" w' = (Normal (toInt32 1), w').
Proof.
  apply (last_grant_decides_the_queries
           (after (AclEntry.grantPermission PrincipalType.USER (PStr "u1")
                     ResourceType.AGENT "a1" 15 "admin" PUndefined Example.userView))).
  - apply grantPermission_onePerTuple. exact (proj2 userView_invariant).
  - discriminate.
Defined.

(* ------------------------------------------------------------------ *)
(** *** Lists of accessible resources *)

Lemma setAdd_In s y x : In x (setAdd s y) <-> In x s \/ x = y.
Proof.
  unfold setAdd. destruct (existsb (String.eqb y) s) eqn:E.
  - split; [tauto|]. intros [H | ->]; [exact H|].
    apply existsb_exists in E. destruct E as [z [Hz Ez]].
    apply String.eqb_eq in Ez. now subst.
  - rewrite in_app_iff. simpl. intuition.
Qed.

Lemma NoDup_setAdd s y : NoDup s -> NoDup (setAdd s y).
Proof.
  intros H. unfold setAdd. destruct (existsb (String.eqb y) s) eqn:E; [exact H|].
  apply NoDup_app; [exact H|repeat constructor; intros []|].
  intros a Ha [<-|[]].
  assert (existsb (String.eqb y) s = true); [|congruence].
  apply existsb_exists. exists y. split; [exact Ha|apply String.eqb_refl].
Qed.

Lemma collect_ids {A} (f : A -> string) (es : list A) (acc : list string) :
  NoDup acc ->
  NoDup (fold_left (fun s e => setAdd s (f e)) es acc)
  /\ forall x, In x (fold_left (fun s e => setAdd s (f e)) es acc)
               <-> In x acc \/ exists e, In e es /\ f e = x.
Proof.
  revert acc. induction es as [|e es IH]; intros acc Hacc; simpl.
  - split; [exact Hacc|]. intros x. split; [tauto|]. intros [H|[e [He _]]]; [exact H|destruct He].
  - destruct (IH (setAdd acc (f e)) (NoDup_setAdd _ _ Hacc)) as [Hn Hin].
    split; [exact Hn|]. intros x. rewrite Hin, setAdd_In. split.
    + intros [[H | ->]|[e' [He' E]]]; eauto.
    + intros [H|[e' [[-> | He'] E]]]; eauto.
Qed.

Lemma normal_true_iff (v : bool) (w : World) : (Normal v, w) = (Normal true, w) <-> v = true.
Proof. split; [intros H; now inversion H|now intros ->]. Qed.

Lemma accessible_iff_hasPermission
    (P : list Principal.t) (T : string) (b : Z) (w : World) :
  exists ids,
    AclEntry.findAccessibleResources P T b w = (Normal ids, w)
    /\ NoDup ids
    /\ forall r, In r ids <-> AclEntry.hasPermission P T r b w = (Normal true, w).
Proof.
  eexists. split; [reflexivity|].
  match goal with
  | |- NoDup (fold_left _ ?es []) /\ _ =>
      destruct (collect_ids IAclEntry.resourceId es [] (NoDup_nil _)) as [Hn Hin]
  end.
  split; [exact Hn|]. intros r. rewrite Hin, hasPermission_run, normal_true_iff.
  rewrite existsb_exists. split.
  - intros [Hf|[e [He Er]]]; [destruct Hf|]. apply filter_In in He. destruct He as [He Hp].
    exists e. rewrite filter_In.
    unfold Spec.matchesListedPublic, Spec.forResource, Spec.holdsAll.
    rewrite <- principalMatches_some, Er, String.eqb_refl.
    destruct (String.eqb (IAclEntry.resourceType e) T); [|discriminate].
    destruct (Z.eqb (jsAnd (IAclEntry.permBits e) b) b); [|discriminate].
    simpl in *. auto.
  - intros [e [He Hb]]. apply filter_In in He. destruct He as [He Hm].
    right. exists e.
    unfold Spec.matchesListedPublic, Spec.forResource, Spec.holdsAll in *.
    rewrite <- principalMatches_some in Hm.
    apply andb_prop in Hm. destruct Hm as [Hres Hm].
    apply andb_prop in Hres. destruct Hres as [HT HR].
    split; [|now apply String.eqb_eq].
    apply filter_In. split; [exact He|]. now rewrite HT, Hb.
Qed.

(** X6.  [findAccessibleResources] of the entry store resolves with a
    list without repetition, and a resource id is in it exactly when
    [hasPermission] is true for that id with the same principals, type
    and mask. *)
Theorem findAccessibleResources_lists_what_hasPermission_accepts
    (P : list Principal.t) (T : string) (b : Z) (w : World) :
  exists ids,
    AclEntry.findAccessibleResources P T b w = (Normal ids, w)
    /\ NoDup ids
    /\ forall r, In r ids <-> AclEntry.hasPermission P T r b w = (Normal true, w).
Proof. apply accessible_iff_hasPermission. Qed.

(* ------------------------------------------------------------------ *)
(** *** The batch of effective permissions *)

Lemma batch_fold (es : list IAclEntry.t) (m : JsMap Z) (rid : string) :
  let step := fun (permissionsMap : JsMap Z) (entry : IAclEntry.t) =>
    mapSet (IAclEntry.resourceId entry)
      (jsOr match mapGet (IAclEntry.resourceId entry) permissionsMap with
            | Some b => b
            | None => 0
            end (IAclEntry.permBits entry))
      permissionsMap in
  Store.bitsAt rid (fold_left step es m)
  = fold_left jsOr
      (map IAclEntry.permBits
           (List.filter (fun e => String.eqb (IAclEntry.resourceId e) rid) es))
      (Store.bitsAt rid m)
  /\ (mapGet rid (fold_left step es m) = None
      <-> mapGet rid m = None
          /\ List.filter (fun e => String.eqb (IAclEntry.resourceId e) rid) es = []).
Proof.
  intros step.
  assert (S1 : forall m e,
            Store.bitsAt rid (step m e)
            = if String.eqb (IAclEntry.resourceId e) rid
              then jsOr (Store.bitsAt rid m) (IAclEntry.permBits e)
              else Store.bitsAt rid m).
  { intros m0 e. unfold step, Store.bitsAt.
    destruct (String.eqb (IAclEntry.resourceId e) rid) eqn:E.
    - apply String.eqb_eq in E. now rewrite E, mapGet_mapSet_same.
    - apply String.eqb_neq in E. now rewrite mapGet_mapSet_other by congruence. }
  assert (S2 : forall m e,
            mapGet rid (step m e) = None
            <-> mapGet rid m = None
                /\ String.eqb (IAclEntry.resourceId e) rid = false).
  { intros m0 e. unfold step.
    destruct (String.eqb (IAclEntry.resourceId e) rid) eqn:E.
    - apply String.eqb_eq in E. rewrite E, mapGet_mapSet_same.
      split; [discriminate|intros [_ H]; discriminate].
    - apply String.eqb_neq in E. rewrite mapGet_mapSet_other by congruence. tauto. }
  revert m. induction es as [|e es IH]; intros m; simpl.
  - split; [reflexivity|tauto].
  - destruct (IH (step m e)) as [Hb Hn]. rewrite Hb, Hn, S1, S2.
    destruct (String.eqb (IAclEntry.resourceId e) rid); simpl.
    + split; [reflexivity|]. split; [intros [[_ H] _]; discriminate|intros [_ H]; discriminate].
    + split; [reflexivity|tauto].
Qed.

Lemma batch_run
    (P : list Principal.t) (T : string) (resourceIds : list string) (w : World) :
  exists m,
    AclEntry.getEffectivePermissionsForResources P T resourceIds w = (Normal m, w)
    /\ (forall rid, In rid resourceIds ->
          AclEntry.getEffectivePermissions P T rid w = (Normal (Store.bitsAt rid m), w))
    /\ (forall rid, mapGet rid m <> None
                    <-> In rid resourceIds
                        /\ exists e, In e (values (aclStore w))
                                     /\ Spec.matchesListedPublic P T rid e = true).
Proof.
  destruct resourceIds as [|r0 rs].
  - exists []. split; [reflexivity|]. split; [intros rid []|].
    intros rid. simpl. split; [congruence|intros [[] _]].
  - set (ids := r0 :: rs).
    eexists. split; [reflexivity|].
    assert (F : forall rid,
              List.filter (fun e => String.eqb (IAclEntry.resourceId e) rid)
                (List.filter (fun entry =>
                   if negb (String.eqb (IAclEntry.resourceType entry) T)
                      || negb (existsb (String.eqb (IAclEntry.resourceId entry)) ids)
                   then false
                   else existsb (AclEntry.principalMatches entry) P)
                   (values (aclStore w)))
              = if existsb (String.eqb rid) ids
                then List.filter (Spec.matchesListedPublic P T rid) (values (aclStore w))
                else []).
    { intros rid. rewrite filter_filter.
      destruct (existsb (String.eqb rid) ids) eqn:X.
      - apply filter_ext. intros e.
        unfold Spec.matchesListedPublic, Spec.forResource.
        rewrite <- principalMatches_some.
        destruct (String.eqb (IAclEntry.resourceId e) rid) eqn:E.
        + apply String.eqb_eq in E. rewrite E, X.
          destruct (String.eqb (IAclEntry.resourceType e) T); simpl;
            rewrite ?andb_true_r; reflexivity.
        + rewrite !andb_false_r. reflexivity.
      - apply filter_none. intros e.
        destruct (String.eqb (IAclEntry.resourceId e) rid) eqn:E.
        + apply String.eqb_eq in E. rewrite E, X.
          now rewrite orb_true_r.
        + now rewrite andb_false_r. }
    split.
    + intros rid Hin. rewrite getEffectivePermissions_run. f_equal. f_equal.
      cbv zeta.
      match goal with
      | |- _ = Store.bitsAt rid (fold_left _ ?es []) =>
          destruct (batch_fold es [] rid) as [Hb _]
      end.
      cbv zeta in Hb. rewrite Hb, F.
      replace (existsb (String.eqb rid) ids) with true; [reflexivity|].
      symmetry. apply existsb_exists. exists rid. split; [exact Hin|apply String.eqb_refl].
    + intros rid. cbv zeta.
      match goal with
      | |- mapGet rid (fold_left _ ?es []) <> None <-> _ =>
          destruct (batch_fold es [] rid) as [_ Hn]
      end.
      cbv zeta in Hn. rewrite Hn, F. simpl mapGet.
      destruct (existsb (String.eqb rid) ids) eqn:X.
      * apply existsb_exists in X. destruct X as [x [Hx Ex]].
        apply String.eqb_eq in Ex. subst x.
        split.
        -- intros H. split; [exact Hx|].
           destruct (List.filter (Spec.matchesListedPublic P T rid) (values (aclStore w)))
             as [|e l] eqn:Fe; [tauto|].
           exists e. apply filter_In. rewrite Fe. now left.
        -- intros [_ [e [He Hm]]] [_ H].
           assert (Hin : In e (List.filter (Spec.matchesListedPublic P T rid)
                                 (values (aclStore w)))) by (apply filter_In; tauto).
           rewrite H in Hin. destruct Hin.
      * split; [tauto|]. intros [Hin _].
        assert (existsb (String.eqb rid) ids = true); [|congruence].
        apply existsb_exists. exists rid. split; [exact Hin|apply String.eqb_refl].
Qed.

(** X7.  The batched [getEffectivePermissionsForResources] agrees with
    the single query: for every listed resource id the bits in the map
    (0 when the id has no key) are what [getEffectivePermissions] yields
    for that id; and an id has a key exactly when it is listed and some
    stored entry of the resource matches the principals. *)
Theorem batch_agrees_with_single_query
    (P : list Principal.t) (T : string) (resourceIds : list string) (w : World) :
  exists m,
    AclEntry.getEffectivePermissionsForResources P T resourceIds w = (Normal m, w)
    /\ (forall rid, In rid resourceIds ->
          AclEntry.getEffectivePermissions P T rid w = (Normal (Store.bitsAt rid m), w))
    /\ (forall rid, mapGet rid m <> None
                    <-> In rid resourceIds
                        /\ exists e, In e (values (aclStore w))
                                     /\ Spec.matchesListedPublic P T rid e = true).
Proof. apply batch_run. Qed.

(* ================================================================== *)
(** ** The facade, composed *)

(** A check with a known resource type and a positive mask, on the
    resolved principals, which include PUBLIC. *)
Lemma checkPermission_run userId role T R b w :
  1 <= b -> existsb (String.eqb T) ResourceType.all = true ->
  exists ps,
    UserGroup.getUserPrincipals userId role w = (Normal ps, w)
    /\ Spec.hasPublic ps = true
    /\ hd_error ps = Some (Principal.mk PrincipalType.USER (PStr userId))
    /\ PermissionService.checkPermission userId role T R (PNum b) w
       = (Normal (existsb (Spec.holdsAll b)
                    (List.filter (Spec.matchesListedPublic ps T R)
                                 (values (aclStore w)))), w).
Proof.
  intros Hb HT.
  destruct (checkPermission_valid userId role T R b w Hb HT) as [rest [Hps Hc]].
  destruct (resolved_principals_have_public userId role w) as [ps [Hps' Hpub]].
  rewrite Hps in Hps'. inversion Hps'; subst ps.
  eexists. split; [exact Hps|]. split; [exact Hpub|]. split; [reflexivity|].
  now rewrite Hc, hasPermission_run.
Qed.

Lemma hasPublicPermission_run T R b w :
  1 <= b -> existsb (String.eqb T) ResourceType.all = true ->
  PermissionService.hasPublicPermission T R (PNum b) w
  = (Normal (existsb (Spec.holdsAll b)
               (List.filter
                  (Spec.matchesListedPublic
                     [Principal.mk PrincipalType.PUBLIC PUndefined] T R)
                  (values (aclStore w)))), w).
Proof.
  intros Hb HT. unfold PermissionService.hasPublicPermission, tryCatch, bind.
  replace (b <? 1) with false by (symmetry; apply Z.ltb_ge; lia).
  unfold ret at 1. rewrite validateResourceType_known by assumption.
  rewrite entries_filter. reflexivity.
Qed.

Lemma public_entry_matches_everyone ps T R e :
  Spec.hasPublic ps = true ->
  Spec.matchesListedPublic [Principal.mk PrincipalType.PUBLIC PUndefined] T R e = true ->
  Spec.matchesListedPublic ps T R e = true.
Proof.
  unfold Spec.matchesListedPublic, Spec.principalIn, Spec.hasPublic, Spec.isPublic.
  cbn [existsb Principal.principalType Principal.principalId].
  intros Hp H. rewrite Hp.
  apply andb_prop in H. destruct H as [Hres H]. rewrite Hres. simpl.
  destruct (String.eqb (IAclEntry.principalType e) PrincipalType.PUBLIC).
  - now rewrite orb_true_r.
  - simpl in H. discriminate H.
Qed.

(** X8.  A public grant is honoured for every caller: for a known
    resource type and a positive mask, when [hasPublicPermission] is
    true for a resource, [checkPermission] is true for every user id and
    role. *)
Theorem public_permission_holds_for_every_user
    (T R : string) (b : Z) (w : World) (userId : string) (role : option string) :
  1 <= b -> existsb (String.eqb T) ResourceType.all = true ->
  PermissionService.hasPublicPermission T R (PNum b) w = (Normal true, w) ->
  PermissionService.checkPermission userId role T R (PNum b) w = (Normal true, w).
Proof.
  intros Hb HT Hpub.
  rewrite hasPublicPermission_run in Hpub by assumption.
  apply normal_true_iff, existsb_exists in Hpub. destruct Hpub as [e [He Hh]].
  apply filter_In in He. destruct He as [He Hm].
  destruct (checkPermission_run userId role T R b w Hb HT)
    as [ps [_ [Hp [_ Hc]]]].
  rewrite Hc. apply normal_true_iff, existsb_exists. exists e.
  split; [|exact Hh]. apply filter_In. split; [exact He|].
  now apply (public_entry_matches_everyone ps).
Qed.

Lemma public_permission_holds_for_every_user_witness :
  PermissionService.checkPermission "someone" (Some "USER") ResourceType.AGENT "a1"
    (PNum 1) Example.publicEditor = (Normal true, Example.publicEditor).
Proof.
  apply (public_permission_holds_for_every_user ResourceType.AGENT "a1" 1
           Example.publicEditor "someone" (Some "USER")).
  - lia.
  - reflexivity.
  - reflexivity.
Defined.

(** X9.  The list pre-filter agrees with the single check: for a known
    resource type and a positive mask, the facade's
    [findAccessibleResources] resolves with a list without repetition
    that holds a resource id exactly when [checkPermission] is true for
    that user, role, type, id and mask. *)
Theorem accessible_list_agrees_with_checkPermission
    (userId : string) (role : option string) (T : string) (b : Z) (w : World) :
  1 <= b -> existsb (String.eqb T) ResourceType.all = true ->
  exists ids,
    PermissionService.findAccessibleResources userId role T (PNum b) w = (Normal ids, w)
    /\ NoDup ids
    /\ forall r, In r ids
                 <-> PermissionService.checkPermission userId role T r (PNum b) w
                     = (Normal true, w).
Proof.
  intros Hb HT.
  destruct (getUserPrincipals_cons userId role w) as [rest Hps].
  destruct (accessible_iff_hasPermission
              (Principal.mk PrincipalType.USER (PStr userId) :: rest) T b w)
    as [ids [Hrun [Hn Hin]]].
  exists ids. split; [|split; [exact Hn|]].
  - unfold PermissionService.findAccessibleResources, tryCatch, bind.
    replace (b <? 1) with false by (symmetry; apply Z.ltb_ge; lia).
    unfold ret at 1. rewrite validateResourceType_known by assumption.
    rewrite Hps. cbn [List.length Nat.eqb]. now rewrite Hrun.
  - intros r. rewrite Hin.
    destruct (checkPermission_valid userId role T r b w Hb HT) as [rest' [Hps' Hc]].
    rewrite Hps in Hps'. inversion Hps'; subst rest'. now rewrite Hc.
Qed.

Lemma accessible_list_agrees_with_checkPermission_witness :
  exists ids,
    PermissionService.findAccessibleResources "u1" None ResourceType.AGENT (PNum 1)
      Example.userView = (Normal ids, Example.userView)
    /\ NoDup ids
    /\ forall r, In r ids
                 <-> PermissionService.checkPermission "u1" None ResourceType.AGENT r
                       (PNum 1) Example.userView = (Normal true, Example.userView).
Proof.
  apply (accessible_list_agrees_with_checkPermission "u1" None ResourceType.AGENT 1
           Example.userView).
  - lia.
  - reflexivity.
Defined.

Lemma getEffectivePermissions_facade_run userId role T R w :
  existsb (String.eqb T) ResourceType.all = true ->
  exists rest,
    UserGroup.getUserPrincipals userId role w
    = (Normal (Principal.mk PrincipalType.USER (PStr userId) :: rest), w)
    /\ PermissionService.getEffectivePermissions userId role T R w
       = AclEntry.getEffectivePermissions
           (Principal.mk PrincipalType.USER (PStr userId) :: rest) T R w.
Proof.
  intros HT. destruct (getUserPrincipals_cons userId role w) as [rest Hps].
  exists rest. split; [exact Hps|].
  unfold PermissionService.getEffectivePermissions, tryCatch, bind.
  rewrite validateResourceType_known by assumption.
  rewrite Hps. cbn [List.length Nat.eqb].
  now rewrite getEffectivePermissions_run.
Qed.

(** X10.  [getResourcePermissionsMap] validates the resource type
    outside its [try]: an unknown type is thrown to the caller, the
    stores unchanged.  For a known type it resolves with a map whose
    bits for every listed resource id (0 when the id has no key) are
    what the facade's [getEffectivePermissions] yields for that id. *)
Theorem getResourcePermissionsMap_throws_or_agrees
    (userId : string) (role : option string) (T : string)
    (resourceIds : list string) (w : World) :
  (Spec.unknownResourceType T ->
   PermissionService.getResourcePermissionsMap userId role T resourceIds w
   = (Throw (PermissionService.invalidResourceTypeMessage T), w))
  /\ (existsb (String.eqb T) ResourceType.all = true ->
      exists m,
        PermissionService.getResourcePermissionsMap userId role T resourceIds w
        = (Normal m, w)
        /\ forall rid, In rid resourceIds ->
             PermissionService.getEffectivePermissions userId role T rid w
             = (Normal (Store.bitsAt rid m), w)).
Proof.
  split.
  - intros HT. unfold PermissionService.getResourcePermissionsMap, bind.
    rewrite validateResourceType_unknown by now apply unknown_not_listed.
    reflexivity.
  - intros HT. destruct (getUserPrincipals_cons userId role w) as [rest Hps].
    destruct (batch_run (Principal.mk PrincipalType.USER (PStr userId) :: rest)
                T resourceIds w) as [m [Hrun [Hbits _]]].
    exists m. split.
    + unfold PermissionService.getResourcePermissionsMap, bind.
      rewrite validateResourceType_known by assumption.
      destruct resourceIds as [|r0 rs].
      * simpl in Hrun. inversion Hrun. reflexivity.
      * unfold tryCatch, bind. rewrite Hps, Hrun. reflexivity.
    + intros rid Hin.
      destruct (getEffectivePermissions_facade_run userId role T rid w HT)
        as [rest' [Hps' Hc]].
      rewrite Hps in Hps'. inversion Hps'; subst rest'.
      rewrite Hc. now apply Hbits.
Qed.

Lemma getResourcePermissionsMap_throws_or_agrees_witness :
  PermissionService.getResourcePermissionsMap "u1" None "bogus" ["a1"] Example.userView
  = (Throw (PermissionService.invalidResourceTypeMessage "bogus"), Example.userView)
  /\ exists m,
       PermissionService.getResourcePermissionsMap "u1" None ResourceType.AGENT
         ["a1"; "a2"] Example.userView = (Normal m, Example.userView)
       /\ forall rid, In rid ["a1"; "a2"] ->
            PermissionService.getEffectivePermissions "u1" None ResourceType.AGENT rid
              Example.userView = (Normal (Store.bitsAt rid m), Example.userView).
Proof.
  split.
  - apply (proj1 (getResourcePermissionsMap_throws_or_agrees "u1" None "bogus" ["a1"]
                    Example.userView)).
    exact bogus_is_unknown.
  - apply (proj2 (getResourcePermissionsMap_throws_or_agrees "u1" None
                    ResourceType.AGENT ["a1"; "a2"] Example.userView)).
    reflexivity.
Defined.

Lemma resourceFilter_forResource rt rid e :
  AclEntry.matchesFilter [("resourceType", PStr rt); ("resourceId", PStr rid)] e
  = Spec.forResource rt rid e.
Proof.
  unfold AclEntry.matchesFilter, Spec.forResource. simpl. now rewrite andb_true_r.
Qed.

(** X11.  [removeAllPermissions] throws and changes nothing on an
    unknown resource type or an empty resource id.  Otherwise, on a
    well-keyed store, it resolves with the number of entries of the
    resource, keeps the entries of every other resource, and leaves no
    entry of the resource: afterwards [hasPermission] on it is false for
    all principals and masks. *)
Theorem removeAllPermissions_clears_the_resource
    (T R : string) (w : World) :
  (Spec.unknownResourceType T \/ R = "" ->
   exists msg, PermissionService.removeAllPermissions T R w = (Throw msg, w))
  /\ (existsb (String.eqb T) ResourceType.all = true -> R <> "" ->
      Store.wellKeyed (aclStore w) ->
      exists w',
        PermissionService.removeAllPermissions T R w
        = (Normal (Z.of_nat (List.length
                     (List.filter (Spec.forResource T R) (values (aclStore w))))), w')
        /\ values (aclStore w')
           = List.filter (fun e => negb (Spec.forResource T R e)) (values (aclStore w))
        /\ forall P b, AclEntry.hasPermission P T R b w' = (Normal false, w')).
Proof.
  rewrite removeAllPermissions_run. split.
  - intros [HT| ->].
    + rewrite (unknown_not_listed _ HT). eexists; reflexivity.
    + destruct (existsb (String.eqb T) ResourceType.all); eexists; reflexivity.
  - intros HT HR Hw. rewrite HT.
    apply String.eqb_neq in HR. rewrite HR.
    destruct (deleteMany_run [("resourceType", PStr T); ("resourceId", PStr R)] w Hw)
      as [store' [Hrun [_ Hv]]].
    rewrite (filter_ext _ _ (resourceFilter_forResource T R)) in Hrun.
    rewrite (filter_ext _ _ (fun e => f_equal negb (resourceFilter_forResource T R e)))
      in Hv.
    eexists. split; [exact Hrun|]. split; [exact Hv|].
    intros P b. rewrite hasPermission_run. cbn [aclStore setAclStore].
    rewrite Hv, filter_filter, filter_none; [reflexivity|].
    intros e. unfold Spec.matchesListedPublic.
    now destruct (Spec.forResource T R e).
Qed.

Lemma removeAllPermissions_clears_the_resource_witness :
  (exists msg,
     PermissionService.removeAllPermissions ResourceType.AGENT "" Example.userView
     = (Throw msg, Example.userView))
  /\ exists w',
       PermissionService.removeAllPermissions ResourceType.AGENT "a1" Example.userView
       = (Normal (Z.of_nat (List.length
                    (List.filter (Spec.forResource ResourceType.AGENT "a1")
                                 (values (aclStore Example.userView))))), w')
       /\ values (aclStore w')
          = List.filter (fun e => negb (Spec.forResource ResourceType.AGENT "a1" e))
                        (values (aclStore Example.userView))
       /\ forall P b, AclEntry.hasPermission P ResourceType.AGENT "a1" b w'
                      = (Normal false, w').
Proof.
  split.
  - apply (proj1 (removeAllPermissions_clears_the_resource ResourceType.AGENT ""
                    Example.userView)).
    right. reflexivity.
  - apply (proj2 (removeAllPermissions_clears_the_resource ResourceType.AGENT "a1"
                    Example.userView)).
    + reflexivity.
    + discriminate.
    + exact userView_wellKeyed.
Defined.

(* ================================================================== *)
(** ** Checks against effective permissions *)

Lemma land_below x b : Store.mask31 x -> 0 <= Z.land x b < 2 ^ 31.
Proof.
  unfold Store.mask31. intros Hx.
  assert (E : Z.land x b = Z.land x b mod 2 ^ 31).
  { rewrite <- Z.land_ones by lia.
    rewrite <- Z.land_assoc, (Z.land_comm b), Z.land_assoc, Z.land_ones by lia.
    now rewrite (Z.mod_small x) by lia. }
  rewrite E. apply Z.mod_pos_bound. lia.
Qed.

Lemma jsAnd_below x b : Store.mask31 x -> isInt32 b -> jsAnd x b = Z.land x b.
Proof.
  intros Hx Hb. unfold jsAnd.
  rewrite (toInt32_id x), (toInt32_id b); [|exact Hb|unfold isInt32, Store.mask31 in *; lia].
  apply toInt32_id. pose proof (land_below x b Hx). unfold isInt32. lia.
Qed.

Lemma orAll_below (bits : list Z) :
  Forall Store.mask31 bits -> Store.mask31 (Spec.orAll bits).
Proof.
  unfold Spec.orAll. intros H.
  assert (G : forall acc, Store.mask31 acc -> Store.mask31 (fold_left jsOr bits acc)).
  { induction H as [|b bits Hb _ IH]; intros acc Hacc; simpl; [exact Hacc|].
    apply IH. rewrite (jsOr_below acc b Hacc Hb). exact (lor_below acc b Hacc Hb). }
  apply G. unfold Store.mask31. lia.
Qed.

(** X12.  When all stored masks are below 2^31 and [hasPermission] is
    true for a mask, the effective permissions of the same principals
    on the same resource hold all the bits of that mask. *)
Theorem hasPermission_implies_effective_bits
    (P : list Principal.t) (T R : string) (b : Z) (w : World) :
  Forall Store.mask31 (map IAclEntry.permBits (values (aclStore w))) ->
  AclEntry.hasPermission P T R b w = (Normal true, w) ->
  exists eff,
    AclEntry.getEffectivePermissions P T R w = (Normal eff, w)
    /\ jsAnd eff b = b.
Proof.
  intros Hall Hhas. eexists. split; [apply getEffectivePermissions_run|].
  rewrite hasPermission_run in Hhas.
  apply normal_true_iff, existsb_exists in Hhas. destruct Hhas as [e [He Hh]].
  unfold Spec.holdsAll in Hh. apply Z.eqb_eq in Hh.
  set (entries := List.filter (Spec.matchesListedPublic P T R) (values (aclStore w))) in *.
  assert (Hbits : Forall Store.mask31 (map IAclEntry.permBits entries)).
  { rewrite Forall_forall in *. intros x Hx. apply in_map_iff in Hx.
    destruct Hx as [y [<- Hy]]. apply Hall. apply in_map.
    unfold entries in Hy. now apply filter_In in Hy. }
  assert (He31 : Store.mask31 (IAclEntry.permBits e)).
  { rewrite Forall_forall in Hbits. apply Hbits. now apply in_map. }
  assert (Hb32 : isInt32 b) by (rewrite <- Hh; apply jsAnd_range).
  rewrite (jsAnd_below _ _ He31 Hb32) in Hh.
  rewrite (jsAnd_below _ _ (orAll_below _ Hbits) Hb32).
  apply Z.bits_inj'. intros i Hi. rewrite Z.land_spec.
  destruct (Z.testbit b i) eqn:Bi; [|apply andb_false_r].
  rewrite andb_true_r, (orAll_testbit _ i Hbits).
  apply existsb_exists. exists (IAclEntry.permBits e). split; [now apply in_map|].
  rewrite <- Hh, Z.land_spec in Bi. now apply andb_prop in Bi.
Qed.

Lemma hasPermission_implies_effective_bits_witness :
  exists eff,
    AclEntry.getEffectivePermissions [Example.user "u1"] ResourceType.AGENT "a1"
      Example.userView = (Normal eff, Example.userView)
    /\ jsAnd eff 1 = 1.
Proof.
  apply (hasPermission_implies_effective_bits [Example.user "u1"] ResourceType.AGENT
           "a1" 1 Example.userView).
  - simpl. repeat constructor; unfold PermissionBits.VIEW; lia.
  - reflexivity.
Defined.

(* ================================================================== *)
(** ** A role grant, then a check *)

Lemma jsAnd_diag b : isInt32 b -> jsAnd b b = b.
Proof.
  intros H. unfold jsAnd. rewrite (toInt32_id b H), Z.land_diag. now apply toInt32_id.
Qed.

(** What a successful role grant went through. *)
Lemma grantPermission_facade_success w pt pid T R accessRoleId gb e w' :
  PermissionService.grantPermission pt pid T R accessRoleId gb w = (Normal e, w') ->
  existsb (String.eqb T) ResourceType.all = true
  /\ exists role,
       mapGet accessRoleId (accessRoleStore w) = Some role
       /\ IAccessRole.resourceType role = T
       /\ AclEntry.grantPermission pt pid T R (IAccessRole.permBits role) gb
            (PStr (IAccessRole._id role)) w = (Normal e, w').
Proof.
  unfold PermissionService.grantPermission, tryCatch, bind.
  repeat match goal with
         | |- context [if ?c then throw _ else ret tt] =>
             destruct c; [intros H; discriminate H|]
         end.
  unfold ret at 1 2 3 4.
  destruct (existsb (String.eqb T) ResourceType.all) eqn:ET.
  2:{ rewrite validateResourceType_unknown by assumption. intros H; discriminate H. }
  rewrite validateResourceType_known by assumption.
  unfold AccessRole.findRoleByIdentifier, gets.
  destruct (mapGet accessRoleId (accessRoleStore w)) as [role|] eqn:Er.
  2:{ intros H; discriminate H. }
  destruct (negb (String.eqb (IAccessRole.resourceType role) T)) eqn:ER.
  { intros H; discriminate H. }
  unfold ret at 1. intros H. split; [reflexivity|]. exists role.
  split; [reflexivity|]. split.
  - now apply negb_false_iff, String.eqb_eq in ER.
  - destruct (AclEntry.grantPermission pt pid T R (IAccessRole.permBits role) gb
                (PStr (IAccessRole._id role)) w) as [[x|msg] w2];
      [exact H|discriminate H].
Qed.

(** X17.  A role grant is visible at once: when the facade's
    [grantPermission] to a user, or to PUBLIC, resolves with an entry
    whose bits are a positive 32-bit mask, [checkPermission] for those
    bits on the same resource is true in the resulting world, for that
    user (and for every user after a PUBLIC grant), whatever the role and
    groups. *)
Theorem role_grant_is_visible_to_checkPermission
    (w w' : World) (pt : string) (pid : prim) (T R accessRoleId gb : string)
    (e : IAclEntry.t) (userId : string) (role : option string) :
  PermissionService.grantPermission pt pid T R accessRoleId gb w = (Normal e, w') ->
  (pt = PrincipalType.USER /\ pid = PStr userId) \/ pt = PrincipalType.PUBLIC ->
  1 <= IAclEntry.permBits e < 2 ^ 31 ->
  (exists r, mapGet accessRoleId (accessRoleStore w) = Some r
             /\ IAclEntry.permBits e = IAccessRole.permBits r)
  /\ PermissionService.checkPermission userId role T R (PNum (IAclEntry.permBits e)) w'
     = (Normal true, w').
Proof.
  intros Hg Hwho Hb.
  destruct (grantPermission_facade_success _ _ _ _ _ _ _ _ _ Hg)
    as [HT [r [Hr [_ Hacl]]]].
  destruct (grantPermission_found w pt pid T R (IAccessRole.permBits r) gb
              (PStr (IAccessRole._id r))) as [e2 [w2 [Hrun [Hfind Hbits]]]].
  rewrite Hacl in Hrun. inversion Hrun; subst e2 w2.
  split; [exists r; split; [exact Hr|exact Hbits]|].
  destruct (checkPermission_run userId role T R (IAclEntry.permBits e) w'
              ltac:(lia) HT) as [ps [_ [Hpub [Hhd Hc]]]].
  rewrite Hc. apply normal_true_iff, existsb_exists. exists e.
  apply find_some in Hfind. destruct Hfind as [Hin Hsame].
  split.
  - apply filter_In. split; [exact Hin|].
    unfold AclEntry.sameTuple in Hsame.
    apply andb_prop in Hsame. destruct Hsame as [Hsame HR].
    apply andb_prop in Hsame. destruct Hsame as [Hsame HTe].
    apply andb_prop in Hsame. destruct Hsame as [Hpt Hpid].
    unfold Spec.matchesListedPublic, Spec.forResource. rewrite HTe, HR. simpl.
    destruct Hwho as [[-> ->]| ->].
    + destruct ps as [|p ps]; [discriminate|]. simpl in Hhd. inversion Hhd; subst p.
      unfold Spec.principalIn. cbn [existsb Principal.principalType Principal.principalId].
      now rewrite Hpt, Hpid.
    + unfold Spec.isPublic. rewrite Hpt, Hpub. now rewrite orb_true_r.
  - unfold Spec.holdsAll. apply Z.eqb_eq, jsAnd_diag. unfold isInt32. lia.
Qed.

Lemma role_grant_is_visible_to_checkPermission_witness :
  (exists r, mapGet AccessRoleIds.AGENT_EDITOR (accessRoleStore Example.seeded) = Some r
             /\ 3 = IAccessRole.permBits r)
  /\ PermissionService.checkPermission "anyone" None ResourceType.AGENT "a1" (PNum 3)
       Example.publicEditor = (Normal true, Example.publicEditor).
Proof.
  apply (role_grant_is_visible_to_checkPermission Example.seeded Example.publicEditor
           PrincipalType.PUBLIC PNull ResourceType.AGENT "a1" AccessRoleIds.AGENT_EDITOR
           "admin"
           (IAclEntry.mk "id12" PrincipalType.PUBLIC PNull None ResourceType.AGENT "a1"
              3 (PStr "id1") "admin" 1013)
           "anyone" None).
  - reflexivity.
  - right. reflexivity.
  - simpl. lia.
Defined.

(* ================================================================== *)
(** ** The role registry *)

Lemma seedDefaultRoles_loop :
  AccessRole.seedDefaultRoles = forOf AccessRole.defaultRoles seedStep [].
Proof. reflexivity. Qed.

Lemma seedStep_run result row w :
  seedStep result row w
  = match mapGet (rowId row) (accessRoleStore w) with
    | Some stored => (Normal (mapSet (rowId row) stored result), w)
    | None =>
        let '(accessRoleId, name, description, resourceType, permBits) := row in
        let newRole := IAccessRole.mk (nanoidResults w (tick w)) accessRoleId name
                         description resourceType permBits in
        (Normal (mapSet accessRoleId newRole result),
         setAccessRoleStore (mapSet accessRoleId newRole (accessRoleStore w))
                            (nextTick w))
    end.
Proof.
  destruct row as [[[[id name] desc] T] bits]. unfold seedStep, bind, gets. simpl.
  now destruct (mapGet id (accessRoleStore w)).
Qed.

Lemma seed_loop rows :
  NoDup (map rowId rows) ->
  forall result w,
  exists result' w',
    forOf rows seedStep result w = (Normal result', w')
    /\ aclStore w' = aclStore w /\ groupStore w' = groupStore w
    /\ (forall k role, mapGet k (accessRoleStore w) = Some role ->
                       mapGet k (accessRoleStore w') = Some role)
    /\ (forall k, ~ In k (map rowId rows) ->
                  mapGet k (accessRoleStore w') = mapGet k (accessRoleStore w))
    /\ (forall row, In row rows ->
          exists role, mapGet (rowId row) (accessRoleStore w') = Some role
                       /\ (mapGet (rowId row) (accessRoleStore w) = None ->
                           fromRow row role))
    /\ ((forall row, In row rows -> mapGet (rowId row) (accessRoleStore w) <> None) ->
        w' = w).
Proof.
  induction rows as [|row rows IH]; intros Hnd result w; simpl.
  - do 2 eexists. split; [reflexivity|]. repeat split; auto. intros row [].
  - inversion Hnd as [|? ? Hnot Hnd']; subst.
    unfold bind. rewrite seedStep_run.
    destruct (mapGet (rowId row) (accessRoleStore w)) as [stored|] eqn:G.
    + destruct (IH Hnd' (mapSet (rowId row) stored result) w)
        as [r' [w' [Hrun [Ha [Hg [Hkeep [Hother [Hall Hid]]]]]]]].
      exists r', w'. split; [exact Hrun|].
      split; [exact Ha|]. split; [exact Hg|]. split; [exact Hkeep|].
      split; [intros k Hk; apply Hother; tauto|].
      split.
      * intros row' [<-|Hin]; [|now apply Hall].
        exists stored. split; [now apply Hkeep|congruence].
      * intros Hpres. apply Hid. intros row' Hin. apply Hpres. now right.
    + destruct row as [[[[id name] desc] T] bits]. simpl in G, Hnot |- *.
      set (newRole := IAccessRole.mk _ id name desc T bits).
      set (w1 := setAccessRoleStore _ _).
      destruct (IH Hnd' (mapSet id newRole result) w1)
        as [r' [w' [Hrun [Ha [Hg [Hkeep [Hother [Hall Hid]]]]]]]].
      exists r', w'. split; [exact Hrun|].
      split; [exact Ha|]. split; [exact Hg|].
      assert (Hnew : mapGet id (accessRoleStore w1) = Some newRole)
        by (simpl; apply mapGet_mapSet_same).
      assert (Hold : forall k, k <> id ->
                mapGet k (accessRoleStore w1) = mapGet k (accessRoleStore w))
        by (intros k Hk; simpl; now apply mapGet_mapSet_other).
      split; [|split; [|split]].
      * intros k role Hk. apply Hkeep. rewrite Hold; [exact Hk|congruence].
      * intros k Hk. rewrite Hother by tauto. apply Hold. intros ->. tauto.
      * intros row' [<-|Hin].
        -- exists newRole. split; [now apply Hkeep|]. intros _. simpl. tauto.
        -- destruct (Hall row' Hin) as [role [Hrole Hfields]].
           exists role. split; [exact Hrole|]. intros Hn. apply Hfields.
           rewrite Hold; [exact Hn|].
           intros E. apply Hnot. rewrite <- E. now apply in_map.
      * intros Hpres. exfalso. apply (Hpres (id, name, desc, T, bits)); [now left|exact G].
Qed.

Lemma defaultRoles_distinct : NoDup (map rowId AccessRole.defaultRoles).
Proof.
  simpl. repeat (constructor; [simpl; intuition discriminate|]). constructor.
Qed.

(** X13.  [seedDefaultRoles] resolves in every world and touches only
    the role store.  It keeps every role that is already stored, changes
    no key outside its table, and afterwards every identifier of the
    table has a role, which carries the fields of its row when the
    identifier was not stored before.  Seeding a second time changes
    nothing. *)
Theorem seedDefaultRoles_is_idempotent_and_keeps_stored_roles (w : World) :
  exists result w',
    AccessRole.seedDefaultRoles w = (Normal result, w')
    /\ aclStore w' = aclStore w /\ groupStore w' = groupStore w
    /\ (forall k role, mapGet k (accessRoleStore w) = Some role ->
                       mapGet k (accessRoleStore w') = Some role)
    /\ (forall k, ~ In k (map rowId AccessRole.defaultRoles) ->
                  mapGet k (accessRoleStore w') = mapGet k (accessRoleStore w))
    /\ (forall row, In row AccessRole.defaultRoles ->
          exists role, mapGet (rowId row) (accessRoleStore w') = Some role
                       /\ (mapGet (rowId row) (accessRoleStore w) = None ->
                           fromRow row role))
    /\ exists result2, AccessRole.seedDefaultRoles w' = (Normal result2, w').
Proof.
  rewrite seedDefaultRoles_loop.
  destruct (seed_loop _ defaultRoles_distinct [] w)
    as [r' [w' [Hrun [Ha [Hg [Hkeep [Hother [Hall _]]]]]]]].
  exists r', w'. repeat (split; [assumption|]).
  destruct (seed_loop _ defaultRoles_distinct [] w')
    as [r2 [w2 [Hrun2 [_ [_ [_ [_ [_ Hid]]]]]]]].
  exists r2. rewrite Hrun2. f_equal. apply Hid.
  intros row Hin. destruct (Hall row Hin) as [role [Hrole _]]. congruence.
Qed.

Lemma insertDesc_In x a l :
  In x (AccessRoleMethods.insertDesc a l) <-> x = a \/ In x l.
Proof.
  induction l as [|y l IH]; simpl; [intuition|].
  destruct (IAccessRole.permBits a <? IAccessRole.permBits y); simpl.
  - rewrite IH. intuition.
  - intuition.
Qed.

Lemma sortDesc_In x l : In x (AccessRoleMethods.sortDesc l) <-> In x l.
Proof.
  induction l as [|y l IH]; simpl; [tauto|].
  rewrite insertDesc_In, IH. intuition.
Qed.

Lemma insertDesc_descending a l :
  Store.descending l -> Store.descending (AccessRoleMethods.insertDesc a l).
Proof.
  unfold Store.descending. induction l as [|y l IH]; simpl; intros H.
  - repeat constructor.
  - inversion H as [|? ? Hs Hall]; subst.
    destruct (IAccessRole.permBits a <? IAccessRole.permBits y) eqn:E.
    + apply Z.ltb_lt in E. constructor; [now apply IH|].
      rewrite Forall_forall in *. intros x Hx. apply insertDesc_In in Hx.
      destruct Hx as [->|Hx]; [lia|now apply Hall].
    + apply Z.ltb_ge in E. constructor; [exact H|].
      constructor; [exact E|].
      rewrite Forall_forall in *. intros x Hx. specialize (Hall x Hx). lia.
Qed.

Lemma sortDesc_descending l : Store.descending (AccessRoleMethods.sortDesc l).
Proof.
  induction l as [|y l IH]; simpl; [constructor|now apply insertDesc_descending].
Qed.

Lemma find_in_descending (p : IAccessRole.t -> bool) l r :
  Store.descending l -> find p l = Some r ->
  forall r', In r' l -> p r' = true -> IAccessRole.permBits r' <= IAccessRole.permBits r.
Proof.
  unfold Store.descending. induction l as [|y l IH]; simpl; [discriminate|].
  intros H Hf r' Hin Hp. inversion H as [|? ? Hs Hall]; subst.
  destruct (p y) eqn:E.
  - inversion Hf; subst y. destruct Hin as [->|Hin]; [lia|].
    rewrite Forall_forall in Hall. now apply Hall.
  - destruct Hin as [->|Hin]; [congruence|]. now apply IH.
Qed.

(** X14.  [getRoleForPermissions] resolves without changing anything.
    When a stored role of the resource type has exactly the given bits,
    the result is such a role.  Otherwise the result is a stored role of
    the type whose bits all lie within the given bits and are the
    greatest among such roles, and it is null only when no role of the
    type lies within the given bits. *)
Theorem getRoleForPermissions_exact_or_greatest_within
    (T : string) (bits : Z) (w : World) :
  exists res,
    AccessRoleMethods.getRoleForPermissions T bits w = (Normal res, w)
    /\ match res with
       | Some r =>
           In r (values (accessRoleStore w))
           /\ IAccessRole.resourceType r = T
           /\ (IAccessRole.permBits r = bits
               \/ ((forall r', In r' (values (accessRoleStore w)) ->
                        IAccessRole.resourceType r' = T ->
                        IAccessRole.permBits r' <> bits)
                   /\ jsAnd (IAccessRole.permBits r) bits = IAccessRole.permBits r
                   /\ forall r', In r' (values (accessRoleStore w)) ->
                        IAccessRole.resourceType r' = T ->
                        jsAnd (IAccessRole.permBits r') bits = IAccessRole.permBits r' ->
                        IAccessRole.permBits r' <= IAccessRole.permBits r))
       | None =>
           forall r', In r' (values (accessRoleStore w)) ->
             IAccessRole.resourceType r' = T ->
             IAccessRole.permBits r' <> bits
             /\ jsAnd (IAccessRole.permBits r') bits <> IAccessRole.permBits r'
       end.
Proof.
  unfold AccessRoleMethods.getRoleForPermissions, AccessRoleMethods.findRoleByPermissions,
    bind, gets, ret.
  set (roles := values (accessRoleStore w)).
  destruct (find (fun r => String.eqb (IAccessRole.resourceType r) T
                           && Z.eqb (IAccessRole.permBits r) bits) roles)
    as [r|] eqn:Ex.
  - eexists. split; [reflexivity|].
    apply find_some in Ex. destruct Ex as [Hin Hp].
    apply andb_prop in Hp. destruct Hp as [HT Hb].
    apply String.eqb_eq in HT. apply Z.eqb_eq in Hb. auto.
  - assert (Hno : forall r', In r' roles -> IAccessRole.resourceType r' = T ->
                             IAccessRole.permBits r' <> bits).
    { intros r' Hin HT Hb. pose proof (find_none _ _ Ex r' Hin) as Hf.
      simpl in Hf. rewrite HT, Hb, String.eqb_refl, Z.eqb_refl in Hf. discriminate. }
    set (typed := List.filter (fun r => String.eqb (IAccessRole.resourceType r) T) roles).
    exists (find (AccessRoleMethods.within bits) (AccessRoleMethods.sortDesc typed)).
    split; [reflexivity|].
    destruct (find (AccessRoleMethods.within bits) (AccessRoleMethods.sortDesc typed))
      as [r|] eqn:F; cbv beta iota.
    + pose proof (find_in_descending _ _ _ (sortDesc_descending typed) F) as Hmax.
      apply find_some in F. destruct F as [Hin Hw].
      apply sortDesc_In, filter_In in Hin. destruct Hin as [Hin HT].
      apply String.eqb_eq in HT. unfold AccessRoleMethods.within in Hw.
      apply Z.eqb_eq in Hw.
      split; [exact Hin|]. split; [exact HT|]. right.
      split; [exact Hno|]. split; [exact Hw|].
      intros r' Hin' HT' Hw'. apply Hmax.
      * apply sortDesc_In, filter_In. split; [exact Hin'|].
        now apply String.eqb_eq.
      * unfold AccessRoleMethods.within. now apply Z.eqb_eq.
    + intros r' Hin HT. split; [now apply Hno|].
      assert (Hs : In r' (AccessRoleMethods.sortDesc typed)).
      { apply sortDesc_In, filter_In. split; [exact Hin|]. now apply String.eqb_eq. }
      pose proof (find_none _ _ F r' Hs) as Hf.
      unfold AccessRoleMethods.within in Hf. now apply Z.eqb_neq in Hf.
Qed.

Lemma mapDelete_absent {V} k (m : JsMap V) : mapGet k m = None -> mapDelete k m = m.
Proof.
  induction m as [|[k' v'] m IH]; simpl; [reflexivity|].
  destruct (String.eqb k' k); [discriminate|]. intros H. now rewrite IH.
Qed.

Lemma setAccessRoleStore_same w : setAccessRoleStore (accessRoleStore w) w = w.
Proof. now destruct w. Qed.

(** X15.  Roles are stored under their identifier.  After [createRole]
    with a non-empty identifier, [findRoleByIdentifier] finds the created
    role, which carries the given fields, and every other identifier
    resolves as before.  [deleteRole] then resolves with [deletedCount]
    1, after which the identifier is not found and a second [deleteRole]
    resolves with 0 and changes nothing. *)
Theorem createRole_find_delete_round_trip (data : RoleData.t) (w : World) :
  RoleData.accessRoleId data <> "" ->
  NoDup (Store.keys (accessRoleStore w)) ->
  let id := RoleData.accessRoleId data in
  exists role w1 w2,
    AccessRoleMethods.createRole data w = (Normal role, w1)
    /\ IAccessRole.accessRoleId role = id
    /\ IAccessRole.resourceType role = RoleData.resourceType data
    /\ IAccessRole.permBits role = RoleData.permBits data
    /\ AccessRole.findRoleByIdentifier id w1 = (Normal (Some role), w1)
    /\ (forall k, k <> id ->
          mapGet k (accessRoleStore w1) = mapGet k (accessRoleStore w))
    /\ AccessRoleMethods.deleteRole id w1 = (Normal 1, w2)
    /\ AccessRole.findRoleByIdentifier id w2 = (Normal None, w2)
    /\ (forall k, k <> id ->
          mapGet k (accessRoleStore w2) = mapGet k (accessRoleStore w))
    /\ AccessRoleMethods.deleteRole id w2 = (Normal 0, w2).
Proof.
  intros Hid Hnd id. apply String.eqb_neq in Hid.
  do 3 eexists.
  split.
  { unfold AccessRoleMethods.createRole, bind, nanoid, modify, ret.
    unfold AccessRoleMethods.keyOf. rewrite Hid. reflexivity. }
  cbn [IAccessRole.accessRoleId IAccessRole.resourceType IAccessRole.permBits].
  split; [reflexivity|]. split; [reflexivity|]. split; [reflexivity|].
  unfold AccessRole.findRoleByIdentifier, AccessRoleMethods.deleteRole, bind, gets,
    modify, ret, mapHas.
  cbn [accessRoleStore setAccessRoleStore nextTick].
  fold id. rewrite mapGet_mapSet_same.
  split; [reflexivity|].
  split; [intros k Hk; now apply mapGet_mapSet_other|].
  split; [reflexivity|].
  cbn [accessRoleStore setAccessRoleStore].
  assert (Hgone : forall v, mapGet id (mapDelete id (mapSet id v (accessRoleStore w))) = None).
  { intros v. apply mapGet_mapDelete_same. now apply NoDup_mapSet. }
  rewrite Hgone. split; [reflexivity|].
  split.
  { intros k Hk. rewrite mapGet_mapDelete_other by assumption.
    now apply mapGet_mapSet_other. }
  rewrite mapDelete_absent by apply Hgone. reflexivity.
Qed.

Lemma createRole_find_delete_round_trip_witness :
  exists role w1 w2,
    AccessRoleMethods.createRole Example2.viewerRow Example.seeded = (Normal role, w1)
    /\ IAccessRole.accessRoleId role = "custom_viewer"
    /\ IAccessRole.resourceType role = ResourceType.AGENT
    /\ IAccessRole.permBits role = 1
    /\ AccessRole.findRoleByIdentifier "custom_viewer" w1 = (Normal (Some role), w1)
    /\ (forall k, k <> "custom_viewer" ->
          mapGet k (accessRoleStore w1) = mapGet k (accessRoleStore Example.seeded))
    /\ AccessRoleMethods.deleteRole "custom_viewer" w1 = (Normal 1, w2)
    /\ AccessRole.findRoleByIdentifier "custom_viewer" w2 = (Normal None, w2)
    /\ (forall k, k <> "custom_viewer" ->
          mapGet k (accessRoleStore w2) = mapGet k (accessRoleStore Example.seeded))
    /\ AccessRoleMethods.deleteRole "custom_viewer" w2 = (Normal 0, w2).
Proof.
  apply (createRole_find_delete_round_trip Example2.viewerRow Example.seeded).
  - discriminate.
  - exact defaultRoles_distinct.
Defined.

(* ================================================================== *)
(** ** Group membership *)

Lemma In_values_mapSet {V} k (v : V) (m : JsMap V) : In v (values (mapSet k v m)).
Proof.
  induction m as [|[k' v'] m IH]; simpl; [now left|].
  destruct (String.eqb k' k); simpl; [now left|now right].
Qed.

Lemma withMembers_same g ids :
  IGroup.memberIds g = Some ids -> UserGroupMethods.withMembers ids g = g.
Proof. destruct g. simpl. now intros ->. Qed.

Lemma existsb_last u ids : existsb (String.eqb u) (ids ++ [u]) = true.
Proof. rewrite existsb_app. simpl. now rewrite String.eqb_refl, orb_true_r. Qed.

Lemma principals_include_member_group userId role w g :
  In g (values (groupStore w)) -> UserGroup.isMember userId g = true ->
  exists ps,
    UserGroup.getUserPrincipals userId role w = (Normal ps, w)
    /\ In (Spec.groupPrincipal g) ps.
Proof.
  intros Hin Hm. eexists. split; [apply getUserPrincipals_run|].
  right. apply in_or_app. right. apply in_or_app. left.
  apply in_map, filter_In. now split.
Qed.

(** X16.  For a group stored under [groupId]: [addUserToGroup]
    resolves with the group now listing the user, stored under the same
    key with the same [_id]; from then on [getUserPrincipals] of that
    user contains {GROUP, group._id}, whatever the role; adding the user
    again changes nothing; and [removeUserFromGroup] leaves under the
    key a group that no longer lists the user. *)
Theorem group_membership_add_then_remove
    (w : World) (userId groupId : string) (group : IGroup.t) :
  mapGet groupId (groupStore w) = Some group ->
  exists group' w1,
    UserGroupMethods.addUserToGroup userId groupId w
    = (Normal (Some userId, Some group'), w1)
    /\ Spec.memberOf userId group'
    /\ IGroup._id group' = IGroup._id group
    /\ UserGroupMethods.findGroupById groupId w1 = (Normal (Some group'), w1)
    /\ (forall role, exists ps,
          UserGroup.getUserPrincipals userId role w1 = (Normal ps, w1)
          /\ In (Spec.groupPrincipal group) ps)
    /\ UserGroupMethods.addUserToGroup userId groupId w1
       = (Normal (Some userId, Some group'), w1)
    /\ exists group'' w2,
         UserGroupMethods.removeUserFromGroup userId groupId w1
         = (Normal (Some userId, Some group''), w2)
         /\ ~ Spec.memberOf userId group''
         /\ UserGroupMethods.findGroupById groupId w2 = (Normal (Some group''), w2).
Proof.
  intros Hget.
  assert (Hrem : forall w1 g ids,
            mapGet groupId (groupStore w1) = Some g -> IGroup.memberIds g = Some ids ->
            exists group'' w2,
              UserGroupMethods.removeUserFromGroup userId groupId w1
              = (Normal (Some userId, Some group''), w2)
              /\ ~ Spec.memberOf userId group''
              /\ UserGroupMethods.findGroupById groupId w2 = (Normal (Some group''), w2)).
  { intros w1 g ids Hg Hids. do 2 eexists. split.
    - unfold UserGroupMethods.removeUserFromGroup, bind, gets. rewrite Hg, Hids.
      reflexivity.
    - split.
      + intros [l [Hl Hin]]. simpl in Hl. inversion Hl; subst l.
        apply filter_In in Hin. destruct Hin as [_ Hne].
        now rewrite String.eqb_refl in Hne.
      + unfold UserGroupMethods.findGroupById, gets. simpl.
        now rewrite mapGet_mapSet_same. }
  assert (Hagain : forall w1 g ids,
            mapGet groupId (groupStore w1) = Some g -> IGroup.memberIds g = Some ids ->
            existsb (String.eqb userId) ids = true ->
            UserGroupMethods.addUserToGroup userId groupId w1
            = (Normal (Some userId, Some g), w1)).
  { intros w1 g ids Hg Hids Hex.
    unfold UserGroupMethods.addUserToGroup, bind, gets. rewrite Hg, Hids, Hex. simpl.
    now rewrite (withMembers_same g ids Hids). }
  assert (Hprin : forall w1 g,
            mapGet groupId (groupStore w1) = Some g ->
            UserGroup.isMember userId g = true -> IGroup._id g = IGroup._id group ->
            forall role, exists ps,
              UserGroup.getUserPrincipals userId role w1 = (Normal ps, w1)
              /\ In (Spec.groupPrincipal group) ps).
  { intros w1 g Hg Hm Hid role.
    assert (Hin : In g (values (groupStore w1))).
    { clear -Hg. induction (groupStore w1) as [|[k v] m IH]; simpl in *; [discriminate|].
      destruct (String.eqb k groupId); [inversion Hg; now left|right; auto]. }
    destruct (principals_include_member_group userId role w1 g Hin Hm) as [ps [Hps Hp]].
    exists ps. split; [exact Hps|].
    unfold Spec.groupPrincipal in *. now rewrite <- Hid. }
  destruct (existsb (String.eqb userId)
              match IGroup.memberIds group with Some ids => ids | None => [] end) eqn:Ex.
  - (* already a member *)
    destruct (IGroup.memberIds group) as [ids|] eqn:Hids; [|discriminate].
    exists group, w.
    split; [now apply (Hagain w group ids)|].
    split; [apply isMember_memberOf; unfold UserGroup.isMember; now rewrite Hids|].
    split; [reflexivity|].
    split; [unfold UserGroupMethods.findGroupById, gets; now rewrite Hget|].
    split.
    { apply (Hprin w group Hget); [|reflexivity].
      unfold UserGroup.isMember. now rewrite Hids. }
    split; [now apply (Hagain w group ids)|].
    now apply (Hrem w group ids).
  - set (ids := match IGroup.memberIds group with Some ids => ids | None => [] end) in *.
    set (group' := UserGroupMethods.withMembers (ids ++ [userId]) group).
    set (w1 := UserGroupMethods.setGroupStore (mapSet groupId group' (groupStore w))
                 (nextTick w)).
    assert (Hg1 : mapGet groupId (groupStore w1) = Some group')
      by (simpl; apply mapGet_mapSet_same).
    exists group', w1.
    split.
    { unfold UserGroupMethods.addUserToGroup, bind, gets. rewrite Hget.
      fold ids. rewrite Ex. reflexivity. }
    split.
    { exists (ids ++ [userId]). split; [reflexivity|].
      apply in_or_app. right. now left. }
    split; [reflexivity|].
    split; [unfold UserGroupMethods.findGroupById, gets; now rewrite Hg1|].
    split.
    { apply (Hprin w1 group' Hg1); [|reflexivity].
      unfold UserGroup.isMember. simpl. apply existsb_last. }
    split.
    { apply (Hagain w1 group' (ids ++ [userId]) Hg1); [reflexivity|apply existsb_last]. }
    now apply (Hrem w1 group' (ids ++ [userId])).
Qed.

Lemma group_membership_add_then_remove_witness :
  exists group' w1,
    UserGroupMethods.addUserToGroup "u2" "g1" Example2.oneGroup
    = (Normal (Some "u2", Some group'), w1)
    /\ Spec.memberOf "u2" group'
    /\ IGroup._id group' = "g1"
    /\ UserGroupMethods.findGroupById "g1" w1 = (Normal (Some group'), w1)
    /\ (forall role, exists ps,
          UserGroup.getUserPrincipals "u2" role w1 = (Normal ps, w1)
          /\ In (Spec.groupPrincipal (IGroup.mk "g1" "Team" (Some ["u1"]))) ps)
    /\ UserGroupMethods.addUserToGroup "u2" "g1" w1
       = (Normal (Some "u2", Some group'), w1)
    /\ exists group'' w2,
         UserGroupMethods.removeUserFromGroup "u2" "g1" w1
         = (Normal (Some "u2", Some group''), w2)
         /\ ~ Spec.memberOf "u2" group''
         /\ UserGroupMethods.findGroupById "g1" w2 = (Normal (Some group''), w2).
Proof.
  apply (group_membership_add_then_remove Example2.oneGroup "u2" "g1"
           (IGroup.mk "g1" "Team" (Some ["u1"]))).
  reflexivity.
Defined.

(** When no group is stored under [groupId], both calls resolve with an
    empty user and a null group, and change nothing. *)
Lemma group_membership_of_a_missing_group
    (w : World) (userId groupId : string) :
  mapGet groupId (groupStore w) = None ->
  UserGroupMethods.addUserToGroup userId groupId w = (Normal (None, None), w)
  /\ UserGroupMethods.removeUserFromGroup userId groupId w = (Normal (None, None), w).
Proof.
  intros H.
  unfold UserGroupMethods.addUserToGroup, UserGroupMethods.removeUserFromGroup, bind, gets.
  now rewrite H.
Qed.

(* ================================================================== *)
(** ** Roles offered and roles updated *)

(** X18.  [getAvailableRoles] throws on an unknown resource type; for a
    known one it resolves with the empty list whatever roles are stored,
    since the role finder it calls compares each role's resource type
    with the filter object it is given. *)
Theorem getAvailableRoles_throws_or_is_empty (T : string) (w : World) :
  (Spec.unknownResourceType T ->
   PermissionServiceRoles.getAvailableRoles T w
   = (Throw (PermissionService.invalidResourceTypeMessage T), w))
  /\ (existsb (String.eqb T) ResourceType.all = true ->
      PermissionServiceRoles.getAvailableRoles T w = (Normal [], w)).
Proof.
  unfold PermissionServiceRoles.getAvailableRoles, bind. split; intros HT.
  - now rewrite validateResourceType_unknown by now apply unknown_not_listed.
  - rewrite validateResourceType_known by assumption.
    apply accessRole_find_filter_object_empty.
Qed.

Lemma getAvailableRoles_throws_or_is_empty_witness :
  PermissionServiceRoles.getAvailableRoles "bogus" Example.seeded
  = (Throw (PermissionService.invalidResourceTypeMessage "bogus"), Example.seeded)
  /\ PermissionServiceRoles.getAvailableRoles ResourceType.AGENT Example.seeded
     = (Normal [], Example.seeded)
  /\ List.length (values (accessRoleStore Example.seeded)) = 12%nat.
Proof.
  split; [|split].
  - apply (proj1 (getAvailableRoles_throws_or_is_empty "bogus" Example.seeded)).
    exact bogus_is_unknown.
  - apply (proj2 (getAvailableRoles_throws_or_is_empty ResourceType.AGENT Example.seeded)).
    reflexivity.
  - reflexivity.
Defined.

(** X19.  [updateRole] on an identifier that is not stored resolves
    with null and changes nothing.  On a stored one it resolves with the
    role in which exactly the given fields are replaced, and stores it
    under the identifier it was called with, also when the update
    changes the role's [accessRoleId]; every other identifier resolves
    as before. *)
Theorem updateRole_keeps_the_key
    (accessRoleId : string) (updateData : RoleUpdate.t) (w : World) :
  (mapGet accessRoleId (accessRoleStore w) = None ->
   AccessRoleMethods.updateRole accessRoleId updateData w = (Normal None, w))
  /\ (forall existing,
        mapGet accessRoleId (accessRoleStore w) = Some existing ->
        exists w',
          AccessRoleMethods.updateRole accessRoleId updateData w
          = (Normal (Some (AccessRoleMethods.spread existing updateData)), w')
          /\ AccessRole.findRoleByIdentifier accessRoleId w'
             = (Normal (Some (AccessRoleMethods.spread existing updateData)), w')
          /\ (forall k, k <> accessRoleId ->
                mapGet k (accessRoleStore w') = mapGet k (accessRoleStore w))
          /\ Store.keys (accessRoleStore w') = Store.keys (accessRoleStore w)
          /\ (RoleUpdate.permBits updateData = None ->
              IAccessRole.permBits (AccessRoleMethods.spread existing updateData)
              = IAccessRole.permBits existing)).
Proof.
  unfold AccessRoleMethods.updateRole, AccessRole.findRoleByIdentifier, bind, gets,
    modify, ret.
  split.
  - now intros ->.
  - intros existing H. rewrite H. eexists. split; [reflexivity|].
    cbn [accessRoleStore setAccessRoleStore]. rewrite mapGet_mapSet_same.
    split; [reflexivity|].
    split; [intros k Hk; now apply mapGet_mapSet_other|].
    split.
    + rewrite keys_mapSet.
      replace (existsb (String.eqb accessRoleId) (Store.keys (accessRoleStore w)))
        with true; [reflexivity|].
      symmetry. clear -H.
      induction (accessRoleStore w) as [|[k v] m IH]; simpl in *; [discriminate|].
      rewrite String.eqb_sym.
      destruct (String.eqb k accessRoleId); [reflexivity|auto].
    + intros Hp. simpl. now rewrite Hp.
Qed.

Lemma updateRole_keeps_the_key_witness :
  AccessRoleMethods.updateRole "missing"
    (RoleUpdate.mk None (Some "renamed") None None None None) Example.seeded
  = (Normal None, Example.seeded)
  /\ exists w',
       AccessRoleMethods.updateRole AccessRoleIds.AGENT_VIEWER
         (RoleUpdate.mk None (Some "renamed") None None None None) Example.seeded
       = (Normal (Some (AccessRoleMethods.spread
                          (IAccessRole.mk "id0" AccessRoleIds.AGENT_VIEWER
                             "com_ui_role_viewer" "com_ui_role_viewer_desc"
                             ResourceType.AGENT 1)
                          (RoleUpdate.mk None (Some "renamed") None None None None))), w')
       /\ AccessRole.findRoleByIdentifier AccessRoleIds.AGENT_VIEWER w'
          = (Normal (Some (AccessRoleMethods.spread
                             (IAccessRole.mk "id0" AccessRoleIds.AGENT_VIEWER
                                "com_ui_role_viewer" "com_ui_role_viewer_desc"
                                ResourceType.AGENT 1)
                             (RoleUpdate.mk None (Some "renamed") None None None None))), w')
       /\ (forall k, k <> AccessRoleIds.AGENT_VIEWER ->
             mapGet k (accessRoleStore w') = mapGet k (accessRoleStore Example.seeded))
       /\ Store.keys (accessRoleStore w') = Store.keys (accessRoleStore Example.seeded)
       /\ (RoleUpdate.permBits (RoleUpdate.mk None (Some "renamed") None None None None)
           = None ->
           IAccessRole.permBits
             (AccessRoleMethods.spread
                (IAccessRole.mk "id0" AccessRoleIds.AGENT_VIEWER
                   "com_ui_role_viewer" "com_ui_role_viewer_desc" ResourceType.AGENT 1)
                (RoleUpdate.mk None (Some "renamed") None None None None))
           = IAccessRole.permBits
               (IAccessRole.mk "id0" AccessRoleIds.AGENT_VIEWER
                  "com_ui_role_viewer" "com_ui_role_viewer_desc" ResourceType.AGENT 1)).
Proof.
  split.
  - apply (proj1 (updateRole_keeps_the_key "missing"
                    (RoleUpdate.mk None (Some "renamed") None None None None)
                    Example.seeded)).
    reflexivity.
  - apply (proj2 (updateRole_keeps_the_key AccessRoleIds.AGENT_VIEWER
                    (RoleUpdate.mk None (Some "renamed") None None None None)
                    Example.seeded)).
    reflexivity.
Defined.

(* ================================================================== *)
(** ** The grant of [AccessControlService] *)

Lemma grantPermission_service_success w pt pid T R accessRoleId gb e w' :
  AccessControlService.grantPermission pt pid T R accessRoleId gb w = (Normal e, w') ->
  exists role,
    mapGet accessRoleId (accessRoleStore w) = Some role
    /\ IAccessRole.resourceType role = T
    /\ AclEntry.grantPermission pt pid T R (IAccessRole.permBits role) gb PUndefined w
       = (Normal e, w').
Proof.
  unfold AccessControlService.grantPermission, tryCatch, bind.
  repeat match goal with
         | |- context [if ?c then throw _ else ret tt] =>
             destruct c; [intros H; discriminate H|]
         end.
  unfold ret at 1 2 3.
  destruct (existsb (String.eqb T) ResourceType.all) eqn:ET.
  2:{ rewrite validateResourceType_unknown by assumption. intros H; discriminate H. }
  rewrite validateResourceType_known by assumption.
  unfold AccessRole.findRoleByIdentifier, gets.
  destruct (mapGet accessRoleId (accessRoleStore w)) as [role|] eqn:Er.
  2:{ intros H; discriminate H. }
  destruct (negb (String.eqb (IAccessRole.resourceType role) T)) eqn:ER.
  { intros H; discriminate H. }
  unfold ret at 1. intros H. exists role.
  split; [reflexivity|]. split.
  - now apply negb_false_iff, String.eqb_eq in ER.
  - destruct (AclEntry.grantPermission pt pid T R (IAccessRole.permBits role) gb
                PUndefined w) as [[x|msg] w2];
      [exact H|discriminate H].
Qed.

(** X20.  The grant of [AccessControlService] never records the role:
    when it resolves, the entry carries the [permBits] of the role named
    by [accessRoleId], but its [roleId] is undefined when the tuple had
    no entry, and is the [roleId] of the earlier grant when it had one. *)
Theorem service_grant_never_records_the_role
    (w w' : World) (pt : string) (pid : prim) (T R accessRoleId gb : string)
    (e : IAclEntry.t) :
  AccessControlService.grantPermission pt pid T R accessRoleId gb w = (Normal e, w') ->
  (exists role, mapGet accessRoleId (accessRoleStore w) = Some role
                /\ IAclEntry.permBits e = IAccessRole.permBits role)
  /\ IAclEntry.roleId e
     = match find (AclEntry.sameTuple pt pid T R) (values (aclStore w)) with
       | Some existing => IAclEntry.roleId existing
       | None => PUndefined
       end.
Proof.
  intros H. destruct (grantPermission_service_success _ _ _ _ _ _ _ _ _ H)
    as [role [Hr [_ Hacl]]].
  destruct (find (AclEntry.sameTuple pt pid T R) (values (aclStore w)))
    as [existing|] eqn:E.
  - rewrite (grantPermission_existing _ _ _ _ _ _ _ _ _ E) in Hacl.
    inversion Hacl; subst. split; [exists role; now split|reflexivity].
  - rewrite (grantPermission_new _ _ _ _ _ _ _ _ E) in Hacl.
    inversion Hacl; subst. split; [exists role; now split|reflexivity].
Qed.

Lemma service_grant_never_records_the_role_witness :
  (exists role, mapGet AccessRoleIds.AGENT_OWNER (accessRoleStore Example.publicEditor)
                = Some role
                /\ 15 = IAccessRole.permBits role)
  /\ PStr "id1"
     = match find (AclEntry.sameTuple PrincipalType.PUBLIC PNull ResourceType.AGENT "a1")
                  (values (aclStore Example.publicEditor)) with
       | Some existing => IAclEntry.roleId existing
       | None => PUndefined
       end.
Proof.
  apply (service_grant_never_records_the_role Example.publicEditor
           (after (AccessControlService.grantPermission PrincipalType.PUBLIC PNull
                     ResourceType.AGENT "a1" AccessRoleIds.AGENT_OWNER "admin"
                     Example.publicEditor))
           PrincipalType.PUBLIC PNull ResourceType.AGENT "a1"
           AccessRoleIds.AGENT_OWNER "admin"
           (IAclEntry.mk "id12" PrincipalType.PUBLIC PNull None ResourceType.AGENT "a1"
              15 (PStr "id1") "admin" 1014)).
  reflexivity.
Defined.

(* ================================================================== *)
(** ** Revocations of a bulk update *)

Lemma forOf_rel {A S} (I : list A -> S -> World -> Prop) (xs : list A)
    (body : S -> A -> Async S) (s : S) (w : World) :
  I [] s w ->
  (forall done x s w, I done s w ->
     exists s' w', body s x w = (Normal s', w') /\ I (done ++ [x]) s' w') ->
  exists s' w', forOf xs body s w = (Normal s', w') /\ I xs s' w'.
Proof.
  intros H0 Hstep.
  assert (G : forall done s w, I done s w ->
            exists s' w', forOf xs body s w = (Normal s', w') /\ I (done ++ xs) s' w').
  { induction xs as [|x xs IH]; intros done s0 w0 H; simpl.
    - do 2 eexists. split; [reflexivity|]. now rewrite app_nil_r.
    - destruct (Hstep done x s0 w0 H) as [s1 [w1 [E1 H1]]].
      unfold bind. rewrite E1.
      destruct (IH (done ++ [x]) s1 w1 H1) as [s2 [w2 [E2 H2]]].
      exists s2, w2. split; [exact E2|]. now rewrite <- app_assoc in H2. }
  exact (G [] s w H0).
Qed.

(** Under the invariant, [findOneAndDelete] on a tuple removes the
    tuple's entry, if any, and nothing else. *)
Lemma findOneAndDelete_tuple pt pid rt rid w :
  Store.invariant (aclStore w) ->
  exists found store',
    Models.aclEntry.findOneAndDelete
      [("principalType", PStr pt); ("principalId", pid);
       ("resourceType", PStr rt); ("resourceId", PStr rid)] w
    = (Normal found, setAclStore store' w)
    /\ Store.invariant store'
    /\ values store'
       = List.filter (fun e => negb (AclEntry.sameTuple pt pid rt rid e))
                     (values (aclStore w)).
Proof.
  intros [Hw Inv].
  unfold Models.aclEntry.findOneAndDelete, AclEntry.findOneAndDeleteAclEntry,
    AclEntry.findOneAclEntry, AclEntry.findAclEntries, bind, gets, ret.
  rewrite (filter_ext _ _ (tupleFilter_sameTuple pt pid rt rid)).
  pose proof (Inv pt pid rt rid) as Hone. unfold Spec.entriesOf in Hone.
  destruct (List.filter (AclEntry.sameTuple pt pid rt rid) (values (aclStore w)))
    as [|e rest] eqn:F; simpl.
  - exists None, (aclStore w). rewrite setAclStore_same.
    split; [reflexivity|]. split; [now split|].
    symmetry. apply forallb_filter_id, forallb_forall. intros x Hx.
    destruct (AclEntry.sameTuple pt pid rt rid x) eqn:E; [|reflexivity].
    assert (Hin : In x (List.filter (AclEntry.sameTuple pt pid rt rid)
                          (values (aclStore w)))) by (apply filter_In; now split).
    rewrite F in Hin. destruct Hin.
  - destruct rest; [|simpl in Hone; lia].
    assert (He : In e (values (aclStore w)) /\ AclEntry.sameTuple pt pid rt rid e = true).
    { apply filter_In. rewrite F. now left. }
    destruct He as [He Hs].
    assert (Hv : values (mapDelete (IAclEntry._id e) (aclStore w))
                 = List.filter (fun x => negb (AclEntry.sameTuple pt pid rt rid x))
                               (values (aclStore w))).
    { rewrite values_mapDelete by assumption. apply filter_ext_in. intros x Hx. f_equal.
      destruct (String.eqb (IAclEntry._id x) (IAclEntry._id e)) eqn:E.
      - apply String.eqb_eq in E.
        rewrite (wellKeyed_ids_inj _ _ _ Hw Hx He E). now rewrite Hs.
      - destruct (AclEntry.sameTuple pt pid rt rid x) eqn:Sx; [|reflexivity].
        assert (Hin : In x (List.filter (AclEntry.sameTuple pt pid rt rid)
                              (values (aclStore w)))) by (apply filter_In; now split).
        rewrite F in Hin. destruct Hin as [->|[]].
        now rewrite String.eqb_refl in E. }
    exists (Some e), (mapDelete (IAclEntry._id e) (aclStore w)).
    split; [reflexivity|]. split; [|exact Hv].
    split; [now apply wellKeyed_mapDelete|].
    exact (filtered_onePerTuple _ _ _ Hv Inv).
Qed.

(** X21.  With a resource id and an entry store that satisfies the
    invariant, [bulkUpdateResourcePermissions] resolves; it creates no
    entry; the entries left are those of the store that belong to none of
    the revoked principals' tuples on the resource, in order; [revoked]
    lists the revoked principals one for one; and the invariant holds
    afterwards. *)
Theorem bulkUpdate_revokes_the_listed_principals
    (T R : string) (updatedPrincipals revokedPrincipals : list TPrincipal.t)
    (gb : string) (w : World) :
  R <> "" -> Store.invariant (aclStore w) ->
  exists results w',
    PermissionService.bulkUpdateResourcePermissions
      T R updatedPrincipals revokedPrincipals gb w = (Normal results, w')
    /\ values (aclStore w')
       = List.filter
           (fun e => negb (existsb (fun p => AclEntry.sameTuple (TPrincipal.type p)
                                               (TPrincipal.id p) T R e)
                                   revokedPrincipals))
           (values (aclStore w))
    /\ map (fun p => (TPrincipal.type p, TPrincipal.id p)) (BulkResults.revoked results)
       = map (fun p => (TPrincipal.type p, TPrincipal.id p)) revokedPrincipals
    /\ Store.invariant (aclStore w').
Proof.
  intros HR Hinv. apply String.eqb_neq in HR.
  unfold PermissionService.bulkUpdateResourcePermissions, tryCatch.
  unfold bind at 1. rewrite HR. unfold ret at 1.
  unfold bind at 1. rewrite accessRole_find_filter_object_empty.
  cbn [fold_left]. unfold bind at 1.
  match goal with
  | |- context [forOf updatedPrincipals ?body ?s w] =>
      destruct (forOf_rel
                  (fun _ results w1 => w1 = w /\ BulkResults.revoked results = [])
                  updatedPrincipals body s w) as [s1 [w1 [E1 [-> Hrev1]]]]
  end.
  { now split. }
  { intros done x s w0 [-> Hs]. unfold tryCatch.
    destruct (negb (truthy (TPrincipal.accessRoleId x))).
    - do 2 eexists. split; [reflexivity|]. now split.
    - replace (PermissionService.rolesMapGet (TPrincipal.accessRoleId x) [])
        with (@None IAccessRole.t) by (now destruct (TPrincipal.accessRoleId x)).
      do 2 eexists. split; [reflexivity|]. now split. }
  rewrite E1. unfold bind at 1.
  set (key := fun p : TPrincipal.t => (TPrincipal.type p, TPrincipal.id p)).
  match goal with
  | |- context [forOf revokedPrincipals ?body s1 w] =>
      destruct (forOf_rel
                  (fun done results w2 =>
                     Store.invariant (aclStore w2)
                     /\ values (aclStore w2)
                        = List.filter
                            (fun e => negb (existsb
                               (fun p => AclEntry.sameTuple (TPrincipal.type p)
                                           (TPrincipal.id p) T R e) done))
                            (values (aclStore w))
                     /\ map key (BulkResults.revoked results) = map key done)
                  revokedPrincipals body s1 w) as [s2 [w2 [E2 [Hi2 [Hv2 Hr2]]]]]
  end.
  { split; [exact Hinv|]. split; [|now rewrite Hrev1].
    symmetry. apply forallb_filter_id, forallb_forall. reflexivity. }
  { intros done x s w0 [Hi [Hv Hr]]. unfold tryCatch, bind.
    destruct (findOneAndDelete_tuple (TPrincipal.type x) (TPrincipal.id x) T R w0 Hi)
      as [found [store' [Hrun [Hi' Hv']]]].
    rewrite Hrun. do 2 eexists. split; [reflexivity|].
    cbn [aclStore setAclStore]. split; [exact Hi'|]. split.
    - rewrite Hv', Hv, filter_filter. apply filter_ext. intros e.
      now rewrite existsb_app, negb_orb; simpl; rewrite orb_false_r.
    - unfold PermissionService.pushRevoked. cbn [BulkResults.revoked].
      rewrite !map_app, Hr. reflexivity. }
  rewrite E2. exists s2, w2. split; [reflexivity|].
  split; [exact Hv2|]. split; [exact Hr2|exact Hi2].
Qed.

Lemma bulkUpdate_revokes_the_listed_principals_witness :
  exists results w',
    PermissionService.bulkUpdateResourcePermissions ResourceType.AGENT "a1" []
      [Example.updated PrincipalType.USER "u1" AccessRoleIds.AGENT_VIEWER] "admin"
      Example.userView = (Normal results, w')
    /\ values (aclStore w')
       = List.filter
           (fun e => negb (existsb (fun p => AclEntry.sameTuple (TPrincipal.type p)
                                               (TPrincipal.id p) ResourceType.AGENT "a1" e)
                                   [Example.updated PrincipalType.USER "u1"
                                      AccessRoleIds.AGENT_VIEWER]))
           (values (aclStore Example.userView))
    /\ map (fun p => (TPrincipal.type p, TPrincipal.id p)) (BulkResults.revoked results)
       = map (fun p => (TPrincipal.type p, TPrincipal.id p))
             [Example.updated PrincipalType.USER "u1" AccessRoleIds.AGENT_VIEWER]
    /\ Store.invariant (aclStore w').
Proof.
  apply (bulkUpdate_revokes_the_listed_principals ResourceType.AGENT "a1" []
           [Example.updated PrincipalType.USER "u1" AccessRoleIds.AGENT_VIEWER] "admin"
           Example.userView).
  - discriminate.
  - exact userView_invariant.
Defined.

(* ================================================================== *)
(** ** Instances *)

Lemma findAccessibleResources_lists_what_hasPermission_accepts_witness :
  exists ids,
    AclEntry.findAccessibleResources [Example.user "u1"] ResourceType.AGENT 1
      Example.userView = (Normal ids, Example.userView)
    /\ NoDup ids
    /\ (In "a1" ids
        <-> AclEntry.hasPermission [Example.user "u1"] ResourceType.AGENT "a1" 1
              Example.userView = (Normal true, Example.userView)).
Proof.
  destruct (findAccessibleResources_lists_what_hasPermission_accepts
              [Example.user "u1"] ResourceType.AGENT 1 Example.userView)
    as [ids [Hrun [Hn Hin]]].
  exists ids. split; [exact Hrun|]. split; [exact Hn|apply Hin].
Defined.

Lemma batch_agrees_with_single_query_witness :
  exists m,
    AclEntry.getEffectivePermissionsForResources [Example.user "u1"] ResourceType.AGENT
      ["a1"; "a2"] Example.userView = (Normal m, Example.userView)
    /\ AclEntry.getEffectivePermissions [Example.user "u1"] ResourceType.AGENT "a1"
         Example.userView = (Normal (Store.bitsAt "a1" m), Example.userView).
Proof.
  destruct (batch_agrees_with_single_query [Example.user "u1"] ResourceType.AGENT
              ["a1"; "a2"] Example.userView) as [m [Hrun [Hbits _]]].
  exists m. split; [exact Hrun|]. apply Hbits. simpl. now left.
Defined.

Lemma seedDefaultRoles_is_idempotent_and_keeps_stored_roles_witness :
  exists w',
    after (AccessRole.seedDefaultRoles Example.start) = w'
    /\ exists role,
         mapGet AccessRoleIds.AGENT_EDITOR (accessRoleStore w') = Some role
         /\ IAccessRole.resourceType role = ResourceType.AGENT
         /\ IAccessRole.permBits role = RoleBits.EDITOR.
Proof.
  destruct (seedDefaultRoles_is_idempotent_and_keeps_stored_roles Example.start)
    as [result [w' [Hrun [_ [_ [_ [_ [Hall _]]]]]]]].
  exists w'. split; [now rewrite Hrun|].
  destruct (Hall (AccessRoleIds.AGENT_EDITOR, "com_ui_role_editor",
                  "com_ui_role_editor_desc", ResourceType.AGENT, RoleBits.EDITOR))
    as [role [Hrole Hfields]].
  - simpl. right. now left.
  - exists role. split; [exact Hrole|].
    destruct (Hfields eq_refl) as [_ [_ [_ [HT Hb]]]]. now split.
Defined.

Lemma getRoleForPermissions_exact_or_greatest_within_witness :
  exists res,
    AccessRoleMethods.getRoleForPermissions ResourceType.AGENT 7 Example.seeded
    = (Normal res, Example.seeded)
    /\ option_map IAccessRole.permBits res = Some 3.
Proof.
  destruct (getRoleForPermissions_exact_or_greatest_within ResourceType.AGENT 7
              Example.seeded) as [res [Hrun _]].
  exists res. split; [exact Hrun|].
  assert (E : AccessRoleMethods.getRoleForPermissions ResourceType.AGENT 7 Example.seeded
              = (Normal (Some (IAccessRole.mk "id1" AccessRoleIds.AGENT_EDITOR
                                 "com_ui_role_editor" "com_ui_role_editor_desc"
                                 ResourceType.AGENT 3)), Example.seeded))
    by reflexivity.
  rewrite E in Hrun. apply (f_equal fst) in Hrun. cbn [fst] in Hrun.
  injection Hrun as <-. reflexivity.
Defined.
